(** * tinc: net_socket.c -- outgoing meta connections, retries, accept loop

    A shallow embedding of [src/net_socket.c].  Pointers to [connection_t]
    and [outgoing_t] are identifiers into two heaps, the splay trees of the
    program are finite sets, C [int]s are integers with their wrap-around
    written out ([time_t], whose width is the platform's, is an integer
    without bound), and every call that leaves the file (system calls, the
    resolver, the logger, the registry, the timers) is recorded in a
    trace. *)

From Stdlib Require Import ZArith String Ascii.
From stdpp Require Import gmap strings list.

Local Open Scope Z_scope.

(** ** C integers *)

Definition INT_MIN : Z := - 2 ^ 31.
Definition INT_MAX : Z := 2 ^ 31 - 1.

(** The value an [int] holds after an arithmetic result [z] is stored. *)
Definition wrap_int (z : Z) : Z := (z + 2 ^ 31) mod 2 ^ 32 - 2 ^ 31.

Definition in_int (z : Z) : Prop := INT_MIN <= z <= INT_MAX.

(** ** Data *)

(** [sockaddr_t]: the family and the address it carries. *)
Record sockaddr_t := {
  sa_family : Z;
  sa_host : string;
  sa_port : Z
}.

Definition AF_UNSPEC : Z := 0.
Definition AF_INET : Z := 2.
Definition AF_INET6 : Z := 10.

(** [config_t]: one line of a configuration file. *)
Record config_t := {
  variable : string;
  value : string;
  file : string;
  line : Z
}.

(** [event_t], embedded in [outgoing_t]; the only handler this file installs
    is [retry_outgoing_handler]. *)
Inductive handler_t := retry_outgoing_handler.

Record event_t := {
  ev_handler : option handler_t;
  ev_time : Z
}.

(** [outgoing_t].  A [config_t *] cursor is the list of entries of its
    variable from the entry pointed to onwards ([[]] is [NULL]); an
    [addrinfo *] is the list from the node pointed to onwards. *)
Record outgoing_t := {
  o_name : string;
  o_timeout : Z;
  o_cfg : list config_t;
  o_ai : list sockaddr_t;
  o_aip : list sockaddr_t;
  o_ev : event_t
}.

Inductive request_t := ID.

(** [connection_t], with the fields this file reads or writes. *)
Record connection_t := {
  c_name : string;
  c_hostname : option string;
  c_address : option sockaddr_t;
  c_socket : Z;
  c_connecting : bool;
  c_last_ping_time : Z;
  c_outcipher : Z;
  c_outdigest : Z;
  c_outmaclength : Z;
  c_outcompression : Z;
  c_config_tree : list config_t;
  c_outgoing : option nat;
  c_allow_request : option request_t;
  c_thread : bool
}.

(** [node_t]: only [n->connection] is read here. *)
Record node_t := {
  n_connection : option nat
}.

(** ** Messages handed to [logger]

    [Error_looking_up_freed] is the warning of lines 127-128: its name
    argument is [node] after [free(node)] (line 126), so the name it
    prints is not determined by the program and the message carries
    none. *)

Inductive log_msg :=
| Cant_bind_to_interface (iface : string)
| Not_supported_on_this_platform
| Error_looking_up_freed
| Cant_bind_to_tcp (node : string)
| Successfully_bound (node : string)
| Trying_to_reestablish (seconds : Z)
| Called_without_outgoing (name : string)
| Could_not_set_up (name : string)
| Trying_to_connect (name : string) (hostname : string)
| Creating_socket_failed (hostname : string)
| Already_connected (name : string)
| No_address_specified (name : string)
| Create_thread_failed
| Accepting_failed
| Connection_from (hostname : string)
| Invalid_name (f : string) (l : Z)
| Connected_to (name : string) (hostname : option string).

Inductive sockopt := TCP_NODELAY | IP_TOS_LOWDELAY | IPV6_V6ONLY | SO_BINDTODEVICE (iface : string).

(** ** Trace of the calls that leave the file

    Registry operations carry the state of [mutex] at the time of the call;
    [Connection_del] also carries the record as it was when it was deleted. *)
Inductive event :=
| Logger (m : log_msg)
| Str2addrinfo (address port : string)
| Sockaddr2hostname (sa : sockaddr_t)
| Getaddrinfo (node : string) (family : Z)
| Socket (family : Z) (fd : Z)
| Setsockopt (fd : Z) (opt : sockopt)
| Bind (fd : Z) (sa : sockaddr_t) (status : Z)
| Accept (fd : Z)
| Lookup_node (name : string) (locked : bool)
| Connection_add (c : nat) (locked : bool)
| Connection_del (c : nat) (rec : option connection_t) (locked : bool)
| Free_connection (c : nat)
| Event_add (o : nat) (time : Z)
| Event_del (o : nat)
| Send_id (c : nat)
| Thread_create (c : nat) (ok : bool)
| Mutex_lock
| Mutex_unlock.

(** ** The world outside the file

    Everything the code obtains from the operating system or from other
    files of the program.  System calls may answer differently each time:
    they take the number of calls made so far. *)
Record world := {
  (* netutl.c *)
  str2addrinfo : string -> string -> list sockaddr_t;
  sockaddr2hostname : sockaddr_t -> string;
  sockaddrunmap : sockaddr_t -> sockaddr_t;
  (* utils.c, conf.c *)
  check_id : string -> bool;
  read_connection_config : string -> list config_t;
  (* myself->connection *)
  myself_connection : connection_t;
  (* libc *)
  sys_socket : nat -> Z -> Z;
  sys_bind : nat -> Z -> sockaddr_t -> Z;
  sys_setsockopt_bindtodevice : nat -> Z -> string -> Z;
  (* [None]: a non-zero status; otherwise the non-empty result list *)
  sys_getaddrinfo : nat -> string -> Z -> option (sockaddr_t * list sockaddr_t);
  sys_accept : nat -> Z -> Z * sockaddr_t;
  sys_thread_create : nat -> bool;
  (* defined(SOL_TCP) && defined(TCP_NODELAY) *)
  have_TCP_NODELAY : bool;
  (* defined(SOL_IP) && defined(IP_TOS) && defined(IPTOS_LOWDELAY) *)
  have_IPTOS_LOWDELAY : bool;
  (* defined(SOL_SOCKET) && defined(SO_BINDTODEVICE) *)
  have_SO_BINDTODEVICE : bool;
  (* defined(SOL_IPV6) && defined(IPV6_V6ONLY) *)
  have_IPV6_V6ONLY : bool
}.

(** ** Program state: the globals of the file and of its collaborators *)
Record state := {
  config_tree : list config_t;
  maxtimeout : Z;
  debug_connections : bool;
  connections : gmap nat connection_t;
  connection_tree : gset nat;
  outgoings : gmap nat outgoing_t;
  outgoing_list : list nat;
  node_tree : gmap string node_t;
  event_tree : gset nat;
  mutex : bool;
  now : Z;
  tick : nat;
  trace : list event
}.

(** ** State updates *)

Definition set_trace (t : list event) (s : state) : state :=
  {| config_tree := config_tree s; maxtimeout := maxtimeout s;
     debug_connections := debug_connections s;
     connections := connections s; connection_tree := connection_tree s;
     outgoings := outgoings s; outgoing_list := outgoing_list s;
     node_tree := node_tree s; event_tree := event_tree s;
     mutex := mutex s; now := now s; tick := tick s; trace := t |}.

Definition set_tick (n : nat) (s : state) : state :=
  {| config_tree := config_tree s; maxtimeout := maxtimeout s;
     debug_connections := debug_connections s;
     connections := connections s; connection_tree := connection_tree s;
     outgoings := outgoings s; outgoing_list := outgoing_list s;
     node_tree := node_tree s; event_tree := event_tree s;
     mutex := mutex s; now := now s; tick := n; trace := trace s |}.

Definition set_mutex (b : bool) (s : state) : state :=
  {| config_tree := config_tree s; maxtimeout := maxtimeout s;
     debug_connections := debug_connections s;
     connections := connections s; connection_tree := connection_tree s;
     outgoings := outgoings s; outgoing_list := outgoing_list s;
     node_tree := node_tree s; event_tree := event_tree s;
     mutex := b; now := now s; tick := tick s; trace := trace s |}.

Definition set_event_tree (t : gset nat) (s : state) : state :=
  {| config_tree := config_tree s; maxtimeout := maxtimeout s;
     debug_connections := debug_connections s;
     connections := connections s; connection_tree := connection_tree s;
     outgoings := outgoings s; outgoing_list := outgoing_list s;
     node_tree := node_tree s; event_tree := t;
     mutex := mutex s; now := now s; tick := tick s; trace := trace s |}.

Definition set_outgoing_list (l : list nat) (s : state) : state :=
  {| config_tree := config_tree s; maxtimeout := maxtimeout s;
     debug_connections := debug_connections s;
     connections := connections s; connection_tree := connection_tree s;
     outgoings := outgoings s; outgoing_list := l;
     node_tree := node_tree s; event_tree := event_tree s;
     mutex := mutex s; now := now s; tick := tick s; trace := trace s |}.

Definition set_outgoings (m : gmap nat outgoing_t) (s : state) : state :=
  {| config_tree := config_tree s; maxtimeout := maxtimeout s;
     debug_connections := debug_connections s;
     connections := connections s; connection_tree := connection_tree s;
     outgoings := m; outgoing_list := outgoing_list s;
     node_tree := node_tree s; event_tree := event_tree s;
     mutex := mutex s; now := now s; tick := tick s; trace := trace s |}.

Definition set_connection_tree (t : gset nat) (s : state) : state :=
  {| config_tree := config_tree s; maxtimeout := maxtimeout s;
     debug_connections := debug_connections s;
     connections := connections s; connection_tree := t;
     outgoings := outgoings s; outgoing_list := outgoing_list s;
     node_tree := node_tree s; event_tree := event_tree s;
     mutex := mutex s; now := now s; tick := tick s; trace := trace s |}.

Definition set_connections (m : gmap nat connection_t) (s : state) : state :=
  {| config_tree := config_tree s; maxtimeout := maxtimeout s;
     debug_connections := debug_connections s;
     connections := m; connection_tree := connection_tree s;
     outgoings := outgoings s; outgoing_list := outgoing_list s;
     node_tree := node_tree s; event_tree := event_tree s;
     mutex := mutex s; now := now s; tick := tick s; trace := trace s |}.

(** A call that leaves the file is appended to the trace. *)
Definition emit (e : event) (s : state) : state := set_trace (trace s ++ [e]) s.

(** A system call was made. *)
Definition ticked (s : state) : state := set_tick (S (tick s)) s.

Definition logger (m : log_msg) (s : state) : state := emit (Logger m) s.

(** [ifdebug(CONNECTIONS) logger(...)] *)
Definition ifdebug_CONNECTIONS (m : log_msg) (s : state) : state :=
  if debug_connections s then logger m s else s.

(** Writes through a [connection_t *] and an [outgoing_t *]. *)
Definition with_connection (c : nat) (f : connection_t -> connection_t) (s : state) : state :=
  set_connections (alter f c (connections s)) s.

Definition with_outgoing (o : nat) (f : outgoing_t -> outgoing_t) (s : state) : state :=
  set_outgoings (alter f o (outgoings s)) s.

Definition set_o_timeout (t : Z) (og : outgoing_t) : outgoing_t :=
  {| o_name := o_name og; o_timeout := t; o_cfg := o_cfg og;
     o_ai := o_ai og; o_aip := o_aip og; o_ev := o_ev og |}.

Definition set_o_cfg (cfg : list config_t) (og : outgoing_t) : outgoing_t :=
  {| o_name := o_name og; o_timeout := o_timeout og; o_cfg := cfg;
     o_ai := o_ai og; o_aip := o_aip og; o_ev := o_ev og |}.

Definition set_o_ai (ai : list sockaddr_t) (og : outgoing_t) : outgoing_t :=
  {| o_name := o_name og; o_timeout := o_timeout og; o_cfg := o_cfg og;
     o_ai := ai; o_aip := o_aip og; o_ev := o_ev og |}.

Definition set_o_aip (aip : list sockaddr_t) (og : outgoing_t) : outgoing_t :=
  {| o_name := o_name og; o_timeout := o_timeout og; o_cfg := o_cfg og;
     o_ai := o_ai og; o_aip := aip; o_ev := o_ev og |}.

Definition set_o_ev (ev : event_t) (og : outgoing_t) : outgoing_t :=
  {| o_name := o_name og; o_timeout := o_timeout og; o_cfg := o_cfg og;
     o_ai := o_ai og; o_aip := o_aip og; o_ev := ev |}.

Definition set_c_hostname (h : option string) (r : connection_t) : connection_t :=
  {| c_name := c_name r; c_hostname := h; c_address := c_address r;
     c_socket := c_socket r; c_connecting := c_connecting r;
     c_last_ping_time := c_last_ping_time r; c_outcipher := c_outcipher r;
     c_outdigest := c_outdigest r; c_outmaclength := c_outmaclength r;
     c_outcompression := c_outcompression r; c_config_tree := c_config_tree r;
     c_outgoing := c_outgoing r; c_allow_request := c_allow_request r;
     c_thread := c_thread r |}.

Definition set_c_address (a : option sockaddr_t) (r : connection_t) : connection_t :=
  {| c_name := c_name r; c_hostname := c_hostname r; c_address := a;
     c_socket := c_socket r; c_connecting := c_connecting r;
     c_last_ping_time := c_last_ping_time r; c_outcipher := c_outcipher r;
     c_outdigest := c_outdigest r; c_outmaclength := c_outmaclength r;
     c_outcompression := c_outcompression r; c_config_tree := c_config_tree r;
     c_outgoing := c_outgoing r; c_allow_request := c_allow_request r;
     c_thread := c_thread r |}.

Definition set_c_socket (fd : Z) (r : connection_t) : connection_t :=
  {| c_name := c_name r; c_hostname := c_hostname r; c_address := c_address r;
     c_socket := fd; c_connecting := c_connecting r;
     c_last_ping_time := c_last_ping_time r; c_outcipher := c_outcipher r;
     c_outdigest := c_outdigest r; c_outmaclength := c_outmaclength r;
     c_outcompression := c_outcompression r; c_config_tree := c_config_tree r;
     c_outgoing := c_outgoing r; c_allow_request := c_allow_request r;
     c_thread := c_thread r |}.

Definition set_c_connecting (b : bool) (r : connection_t) : connection_t :=
  {| c_name := c_name r; c_hostname := c_hostname r; c_address := c_address r;
     c_socket := c_socket r; c_connecting := b;
     c_last_ping_time := c_last_ping_time r; c_outcipher := c_outcipher r;
     c_outdigest := c_outdigest r; c_outmaclength := c_outmaclength r;
     c_outcompression := c_outcompression r; c_config_tree := c_config_tree r;
     c_outgoing := c_outgoing r; c_allow_request := c_allow_request r;
     c_thread := c_thread r |}.

Definition set_c_outgoing (o : option nat) (r : connection_t) : connection_t :=
  {| c_name := c_name r; c_hostname := c_hostname r; c_address := c_address r;
     c_socket := c_socket r; c_connecting := c_connecting r;
     c_last_ping_time := c_last_ping_time r; c_outcipher := c_outcipher r;
     c_outdigest := c_outdigest r; c_outmaclength := c_outmaclength r;
     c_outcompression := c_outcompression r; c_config_tree := c_config_tree r;
     c_outgoing := o; c_allow_request := c_allow_request r;
     c_thread := c_thread r |}.

Definition set_c_allow_request (q : option request_t) (r : connection_t) : connection_t :=
  {| c_name := c_name r; c_hostname := c_hostname r; c_address := c_address r;
     c_socket := c_socket r; c_connecting := c_connecting r;
     c_last_ping_time := c_last_ping_time r; c_outcipher := c_outcipher r;
     c_outdigest := c_outdigest r; c_outmaclength := c_outmaclength r;
     c_outcompression := c_outcompression r; c_config_tree := c_config_tree r;
     c_outgoing := c_outgoing r; c_allow_request := q;
     c_thread := c_thread r |}.

Definition set_c_last_ping_time (t : Z) (r : connection_t) : connection_t :=
  {| c_name := c_name r; c_hostname := c_hostname r; c_address := c_address r;
     c_socket := c_socket r; c_connecting := c_connecting r;
     c_last_ping_time := t; c_outcipher := c_outcipher r;
     c_outdigest := c_outdigest r; c_outmaclength := c_outmaclength r;
     c_outcompression := c_outcompression r; c_config_tree := c_config_tree r;
     c_outgoing := c_outgoing r; c_allow_request := c_allow_request r;
     c_thread := c_thread r |}.

Definition set_c_thread (b : bool) (r : connection_t) : connection_t :=
  {| c_name := c_name r; c_hostname := c_hostname r; c_address := c_address r;
     c_socket := c_socket r; c_connecting := c_connecting r;
     c_last_ping_time := c_last_ping_time r; c_outcipher := c_outcipher r;
     c_outdigest := c_outdigest r; c_outmaclength := c_outmaclength r;
     c_outcompression := c_outcompression r; c_config_tree := c_config_tree r;
     c_outgoing := c_outgoing r; c_allow_request := c_allow_request r;
     c_thread := b |}.

(** ** Collaborators outside the file *)

(** Modelled from the spec: conf.c is not among the sources.  Configuration
    keys have first/next lookup semantics, several values per key are
    allowed and are consumed in file order.  [lookup_config] points at the
    first entry of the key, [lookup_config_next] at the next one of the
    same key, and [get_config_string] reads the value of the entry pointed
    to (it reports failure on [NULL]). *)
Definition lookup_config (tree : list config_t) (key : string) : list config_t :=
  filter (fun e => variable e = key) tree.

Definition lookup_config_next (tree : list config_t) (cfg : list config_t) : list config_t :=
  tail cfg.

Definition get_config_string (cfg : list config_t) : option string :=
  match cfg with
  | [] => None
  | e :: _ => Some (value e)
  end.

(** Modelled from the spec: event.c is not among the sources.  Arming
    inserts (or replaces) the timer of that attempt in the timer set,
    cancelling removes it. *)
Definition event_add (o : nat) (s : state) : state :=
  let t := match outgoings s !! o with Some og => ev_time (o_ev og) | None => 0 end in
  emit (Event_add o t) (set_event_tree ({[o]} ∪ event_tree s) s).

Definition event_del (o : nat) (s : state) : state :=
  emit (Event_del o) (set_event_tree (event_tree s ∖ {[o]}) s).

(** Modelled from the spec: connection.c is not among the sources.
    [connection_add] registers a record, [connection_del] deregisters it,
    [free_connection] releases a record that was never registered, and
    [new_connection] hands out a zeroed record. *)
Definition connection_add (c : nat) (s : state) : state :=
  emit (Connection_add c (mutex s))
       (set_connection_tree ({[c]} ∪ connection_tree s) s).

Definition connection_del (c : nat) (s : state) : state :=
  emit (Connection_del c (connections s !! c) (mutex s))
       (set_connection_tree (connection_tree s ∖ {[c]}) s).

Definition free_connection (c : nat) (s : state) : state :=
  emit (Free_connection c) (set_connections (delete c (connections s)) s).

Definition zero_connection : connection_t :=
  {| c_name := ""; c_hostname := None; c_address := None; c_socket := 0;
     c_connecting := false; c_last_ping_time := 0; c_outcipher := 0;
     c_outdigest := 0; c_outmaclength := 0; c_outcompression := 0;
     c_config_tree := []; c_outgoing := None; c_allow_request := None;
     c_thread := false |}.

(** The next unused identifier of a heap. *)
Definition fresh {A} (m : gmap nat A) : nat :=
  S (max_list (elements (dom m))).

Definition new_connection (s : state) : nat * state :=
  let c := fresh (connections s) in
  (c, set_connections (<[c := zero_connection]> (connections s)) s).

(** Modelled from the spec: node.c is not among the sources.  The registry
    answers whether a peer name has a live connection record. *)
Definition lookup_node (name : string) (s : state) : option node_t * state :=
  (node_tree s !! name, emit (Lookup_node name (mutex s)) s).

(** ** Results

    A call returns ([Done]), or the process is gone ([Abort]: [abort()] or a
    failed [assert]).  [Undefined] is kept for what the model does not
    cover: a pointer that denotes no record, and a loop cut off before it
    ended, which does not happen with the bound [passes]. *)
Inductive result (A : Type) :=
| Done (a : A) (s : state)
| Abort (s : state)
| Undefined.
Arguments Done {A} a s.
Arguments Abort {A} s.
Arguments Undefined {A}.

Definition IFNAMSIZ : nat := 16.

(** [strchr(address, ' ')] followed by [*space = 0]: the text before the
    first space and the text after it. *)
Fixpoint split_at_space (address : string) : option (string * string) :=
  match address with
  | EmptyString => None
  | String a rest =>
      if Ascii.eqb a " " then Some (EmptyString, rest)
      else match split_at_space rest with
           | Some (host, port) => Some (String a host, port)
           | None => None
           end
  end.

Section Net_socket.

Variable W : world.

Definition configure_tcp (c : nat) (s : state) : state :=
  match connections s !! c with
  | Some r =>
      let s := if have_TCP_NODELAY W
               then emit (Setsockopt (c_socket r) TCP_NODELAY) s else s in
      if have_IPTOS_LOWDELAY W
      then emit (Setsockopt (c_socket r) IP_TOS_LOWDELAY) s else s
  | None => s
  end.

Definition bind_to_interface (sd : Z) (s : state) : bool * state :=
  match get_config_string (lookup_config (config_tree s) "BindToInterface") with
  | None => (true, s)
  | Some iface =>
      if have_SO_BINDTODEVICE W then
        let ifrn_name := substring 0 (IFNAMSIZ - 1) iface in
        let status := sys_setsockopt_bindtodevice W (tick s) sd ifrn_name in
        let s := emit (Setsockopt sd (SO_BINDTODEVICE ifrn_name)) (ticked s) in
        if status =? 0 then (true, s)
        else (false, logger (Cant_bind_to_interface iface) s)
      else (true, logger Not_supported_on_this_platform s)
  end.

(** The [for] loop of [bind_to_address]: [ai_ptr] walks the list, each
    iteration binds to [ai_list->ai_addr]. *)
Fixpoint bind_loop (fd : Z) (ai_list : sockaddr_t) (ai_ptr : list sockaddr_t)
    (status : Z) (s : state) : Z * state :=
  match ai_ptr with
  | [] => (status, s)
  | _ :: ai_next =>
      let status := sys_bind W (tick s) fd ai_list in
      let s := emit (Bind fd ai_list status) (ticked s) in
      if status =? 0 then (status, s)
      else bind_loop fd ai_list ai_next status s
  end.

Definition bind_to_address (c : nat) (s : state) : result bool :=
  match connections s !! c with
  | None => Undefined
  | Some r =>
      if c_socket r <? 0 then Abort s (* assert(c->socket >= 0) *)
      else
        match get_config_string (lookup_config (config_tree s) "BindToAddress") with
        | None => Done true s
        | Some node =>
            let family := match c_address r with Some a => sa_family a | None => AF_UNSPEC end in
            let answer := sys_getaddrinfo W (tick s) node family in
            let s := emit (Getaddrinfo node family) (ticked s) in
            match answer with
            | None =>
                (* free(node) comes before logger(..., node, ...) *)
                Done false (logger Error_looking_up_freed s)
            | Some (ai_list, ai_next) =>
                let '(status, s) := bind_loop (c_socket r) ai_list (ai_list :: ai_next) (-1) s in
                let s := if negb (status =? 0) then logger (Cant_bind_to_tcp node) s
                         else ifdebug_CONNECTIONS (Successfully_bound node) s in
                Done (status =? 0) s
            end
        end
  end.

(** [socket(family, SOCK_STREAM, IPPROTO_TCP)]: a descriptor, or -1. *)
Definition socket (family : Z) (s : state) : Z * state :=
  let r := sys_socket W (tick s) family in
  let fd := if r <? 0 then -1 else r in
  (fd, emit (Socket family fd) (ticked s)).

Definition retry_outgoing (o : nat) (s : state) : state :=
  let s := with_outgoing o (fun og => set_o_timeout (wrap_int (o_timeout og + 5)) og) s in
  let s := with_outgoing o (fun og =>
             if maxtimeout s <? o_timeout og then set_o_timeout (maxtimeout s) og else og) s in
  let s := with_outgoing o (fun og =>
             set_o_ev {| ev_handler := Some retry_outgoing_handler;
                         ev_time := now s + o_timeout og |} og) s in
  let s := event_add o s in
  match outgoings s !! o with
  | Some og => ifdebug_CONNECTIONS (Trying_to_reestablish (o_timeout og)) s
  | None => s
  end.

Definition finish_connecting (c : nat) (s : state) : state :=
  match connections s !! c with
  | Some r =>
      let s := ifdebug_CONNECTIONS (Connected_to (c_name r) (c_hostname r)) s in
      let s := configure_tcp c s in
      let s := with_connection c (set_c_last_ping_time (now s)) s in
      let s := with_connection c (set_c_connecting false) s in
      emit (Send_id c) s
  | None => s
  end.

(** The host and the port an [Address] value is resolved with. *)
Definition address_and_port (conn_config : list config_t) (address : string) : string * string :=
  match split_at_space address with
  | Some (host, port) => (host, port)
  | None =>
      match get_config_string (lookup_config conn_config "Port") with
      | Some port => (address, port)
      | None => (address, "655"%string)
      end
  end.

(** Lines 338-354: resolve the entry under the cursor and move the cursor. *)
Definition resolve_entry (c o : nat) (r : connection_t) (og : outgoing_t) (s : state) : state :=
  match get_config_string (o_cfg og) with
  | None => s
  | Some address =>
      let '(address, port) := address_and_port (c_config_tree r) address in
      let ai := str2addrinfo W address port in
      let s := emit (Str2addrinfo address port) s in
      let s := with_outgoing o (set_o_ai ai) s in
      let s := with_outgoing o (set_o_aip ai) s in
      with_outgoing o (set_o_cfg (lookup_config_next (c_config_tree r) (o_cfg og))) s
  end.

(** Lines 330-335: every entry has been used up. *)
Definition out_of_addresses (c o : nat) (r : connection_t) (s : state) : state :=
  let s := ifdebug_CONNECTIONS (Could_not_set_up (c_name r)) s in
  let s := retry_outgoing o s in
  let s := with_connection c (set_c_outgoing None) s in
  connection_del c s.

(** One pass from the label [begin] to a [goto begin] or to a [return]. *)
Inductive pass :=
| Goto_begin (s : state)
| Return (r : result unit).

(** Lines 357-396. *)
Definition try_candidate (c o : nat) (r : connection_t) (s : state) : pass :=
  match outgoings s !! o with
  | None => Return Undefined
  | Some og =>
      match o_aip og with
      | [] => Goto_begin (with_outgoing o (set_o_ai []) s)
      | a :: ai_next =>
          let s := with_connection c (set_c_address (Some a)) s in
          let s := with_outgoing o (set_o_aip ai_next) s in
          let hostname := sockaddr2hostname W a in
          let s := emit (Sockaddr2hostname a) s in
          let s := with_connection c (set_c_hostname (Some hostname)) s in
          let s := ifdebug_CONNECTIONS (Trying_to_connect (c_name r) hostname) s in
          let '(fd, s) := socket (sa_family a) s in
          let s := with_connection c (set_c_socket fd) s in
          if fd =? -1 then
            Goto_begin (ifdebug_CONNECTIONS (Creating_socket_failed hostname) s)
          else
            let s := if have_IPV6_V6ONLY W && (sa_family a =? AF_INET6)
                     then emit (Setsockopt fd IPV6_V6ONLY) s else s in
            let '(_, s) := bind_to_interface fd s in
            match bind_to_address c s with
            | Done _ s =>
                let s := configure_tcp c s in
                Return (Done tt (with_connection c (set_c_connecting true) s))
            | Abort s => Return (Abort s)
            | Undefined => Return Undefined
            end
      end
  end.

Definition begin_pass (c : nat) (s : state) : pass :=
  match connections s !! c with
  | None => Return Undefined
  | Some r =>
      match c_outgoing r with
      | None => Return Undefined
      | Some o =>
          match outgoings s !! o with
          | None => Return Undefined
          | Some og =>
              match o_ai og with
              | [] =>
                  match o_cfg og with
                  | [] => Return (Done tt (out_of_addresses c o r s))
                  | _ :: _ => try_candidate c o r (resolve_entry c o r og s)
                  end
              | _ :: _ => try_candidate c o r s
              end
          end
      end
  end.

(** The [goto] loop, at most [fuel] passes. *)
Fixpoint begin (fuel : nat) (c : nat) (s : state) : result unit :=
  match fuel with
  | O => Undefined
  | S fuel =>
      match begin_pass c s with
      | Goto_begin s => begin fuel c s
      | Return r => r
      end
  end.

(** The addresses an [Address] entry resolves to. *)
Definition resolve (r : connection_t) (e : config_t) : list sockaddr_t :=
  let '(address, port) := address_and_port (c_config_tree r) (value e) in
  str2addrinfo W address port.

(** A bound on the number of passes: one for every candidate left, one to
    release a list, two for every entry left and one for each of its
    addresses, and one to end. *)
Definition passes (r : connection_t) (og : outgoing_t) : nat :=
  (1 + match o_ai og with [] => 0 | _ :: _ => 1 end + length (o_aip og)
   + sum_list (map (fun e => 2 + length (resolve r e)) (o_cfg og)))%nat.

Definition do_outgoing_connection (c : nat) (s : state) : result unit :=
  match connections s !! c with
  | None => Undefined
  | Some r =>
      match c_outgoing r with
      | None => Abort (logger (Called_without_outgoing (c_name r)) s)
      | Some o =>
          match outgoings s !! o with
          | None => Undefined
          | Some og => begin (passes r og) c s
          end
      end
  end.

(** [thread_create(&c->thread, handle_meta_connection_data, c)] and the
    [abort()] that follows its failure. *)
Definition thread_create_or_abort (c : nat) (s : state) : result unit :=
  let ok := sys_thread_create W (tick s) in
  let s := emit (Thread_create c ok) (ticked s) in
  if ok then Done tt (with_connection c (set_c_thread true) s)
  else Abort (logger Create_thread_failed s).

(** Lines 416-423: the fields of a record for an outgoing connection. *)
Definition outgoing_record (name : string) (r : connection_t) : connection_t :=
  {| c_name := name; c_hostname := c_hostname r; c_address := c_address r;
     c_socket := c_socket r; c_connecting := c_connecting r;
     c_last_ping_time := c_last_ping_time r;
     c_outcipher := c_outcipher (myself_connection W);
     c_outdigest := c_outdigest (myself_connection W);
     c_outmaclength := c_outmaclength (myself_connection W);
     c_outcompression := c_outcompression (myself_connection W);
     c_config_tree := read_connection_config W name;
     c_outgoing := c_outgoing r; c_allow_request := c_allow_request r;
     c_thread := c_thread r |}.

Definition setup_outgoing_connection (o : nat) (s : state) : result unit :=
  let s := event_del o s in
  match outgoings s !! o with
  | None => Undefined
  | Some og =>
      let '(n, s) := lookup_node (o_name og) s in
      match n ≫= n_connection with
      | Some c' =>
          let s := ifdebug_CONNECTIONS (Already_connected (o_name og)) s in
          Done tt (with_connection c' (set_c_outgoing (Some o)) s)
      | None =>
          let '(c, s) := new_connection s in
          let s := with_connection c (outgoing_record (o_name og)) s in
          let cfg := lookup_config (read_connection_config W (o_name og)) "Address" in
          let s := with_outgoing o (set_o_cfg cfg) s in
          match cfg with
          | [] =>
              let s := logger (No_address_specified (o_name og)) s in
              Done tt (free_connection c s)
          | _ :: _ =>
              let s := with_connection c (set_c_outgoing (Some o)) s in
              let s := with_connection c (set_c_last_ping_time (now s)) s in
              let s := connection_add c s in
              match do_outgoing_connection c s with
              | Done _ s => thread_create_or_abort c s
              | Abort s => Abort s
              | Undefined => Undefined
              end
          end
      end
  end.

(** Lines 467-477: the fields of a record for an accepted connection. *)
Definition accepted_record (sa : sockaddr_t) (fd : Z) (t : Z) (r : connection_t) : connection_t :=
  {| c_name := "<unknown>"; c_hostname := Some (sockaddr2hostname W sa);
     c_address := Some sa; c_socket := fd; c_connecting := c_connecting r;
     c_last_ping_time := t;
     c_outcipher := c_outcipher (myself_connection W);
     c_outdigest := c_outdigest (myself_connection W);
     c_outmaclength := c_outmaclength (myself_connection W);
     c_outcompression := c_outcompression (myself_connection W);
     c_config_tree := c_config_tree r;
     c_outgoing := c_outgoing r; c_allow_request := c_allow_request r;
     c_thread := c_thread r |}.

Definition mutex_lock (s : state) : state := emit Mutex_lock (set_mutex true s).
Definition mutex_unlock (s : state) : state := emit Mutex_unlock (set_mutex false s).

(** One turn of the [while(true)] loop of [handle_new_meta_connection]. *)
Inductive turn :=
| Again (s : state)
| Leave (r : result unit).

Definition accept_turn (l_tcp : Z) (s : state) : turn :=
  let '(fd, sa) := sys_accept W (tick s) l_tcp in
  let s := emit (Accept fd) (ticked s) in
  if fd <? 0 then Leave (Done tt (logger Accepting_failed s))
  else
    let sa := sockaddrunmap W sa in
    let '(c, s) := new_connection s in
    let s := emit (Sockaddr2hostname sa) s in
    let s := with_connection c (accepted_record sa fd (now s)) s in
    let s := ifdebug_CONNECTIONS (Connection_from (sockaddr2hostname W sa)) s in
    let s := configure_tcp c s in
    let s := mutex_lock s in
    let s := connection_add c s in
    let s := with_connection c (set_c_allow_request (Some ID)) s in
    let s := emit (Send_id c) s in
    match thread_create_or_abort c s with
    | Done _ s => Again (mutex_unlock s)
    | Abort s => Leave (Abort s)
    | Undefined => Leave Undefined
    end.

(** The accept loop, observed for at most [turns] accepted connections:
    [None] when it is still looping after them. *)
Fixpoint handle_new_meta_connection (turns : nat) (l_tcp : Z) (s : state) : option (result unit) :=
  match turns with
  | O => None
  | S turns =>
      match accept_turn l_tcp s with
      | Again s => handle_new_meta_connection turns l_tcp s
      | Leave r => Some r
      end
  end.

Definition zero_outgoing : outgoing_t :=
  {| o_name := ""; o_timeout := 0; o_cfg := []; o_ai := []; o_aip := [];
     o_ev := {| ev_handler := None; ev_time := 0 |} |}.

Definition set_o_name (name : string) (og : outgoing_t) : outgoing_t :=
  {| o_name := name; o_timeout := o_timeout og; o_cfg := o_cfg og;
     o_ai := o_ai og; o_aip := o_aip og; o_ev := o_ev og |}.

(** The [for] loop of [try_outgoing_connections], from the entry [cfg]. *)
Fixpoint connect_to (cfg : list config_t) (s : state) : result unit :=
  match cfg with
  | [] => Done tt s
  | e :: next =>
      let name := value e in
      if negb (check_id W name) then
        connect_to next (logger (Invalid_name (file e) (line e)) s)
      else
        let o := fresh (outgoings s) in
        let s := set_outgoings (<[o := zero_outgoing]> (outgoings s)) s in
        let s := with_outgoing o (set_o_name name) s in
        let s := set_outgoing_list (outgoing_list s ++ [o]) s in
        match setup_outgoing_connection o s with
        | Done _ s => connect_to next s
        | Abort s => Abort s
        | Undefined => Undefined
        end
  end.

Definition try_outgoing_connections (s : state) : result unit :=
  let s := set_outgoing_list [] s in
  connect_to (lookup_config (config_tree s) "ConnectTo") s.

End Net_socket.

(** ** Listening and datagram sockets (lines 155-286)

    [setup_listen_socket] and [setup_vpn_in_socket] only make system calls
    and log: their calls are kept in a log of their own, beside the state
    of the program, which they read for the configuration and which
    [bind_to_interface] writes its own events to. *)

Inductive socktype := SOCK_STREAM | SOCK_DGRAM.

(** The options these two functions set, with the value they pass. *)
Inductive socket_option :=
| SO_REUSEADDR (v : Z)
| SO_RCVBUF (v : Z)
| SO_SNDBUF (v : Z)
| SOL_IPV6_V6ONLY (v : Z)
| IPPROTO_IPV6_V6ONLY (v : Z)
| SO_BINDTODEVICE_ifreq (ifrn_name : string)
| IP_MTU_DISCOVER_DO
| IP_DONTFRAGMENT (v : Z)
| IPV6_MTU_DISCOVER_DO
| IPV6_DONTFRAG (v : Z).

Inductive socket_msg :=
| Creating_metasocket_failed
| Cant_bind_listen_socket_to_interface (iface : string)
| BindToInterface_not_supported
| Cant_bind_to_address_tcp (addrstr : string)
| System_call_listen_failed
| Creating_UDP_socket_failed
| Cant_set_UDP_SO_RCVBUF (v : Z)
| Cant_set_UDP_SO_SNDBUF (v : Z)
| Cant_bind_to_address_udp (addrstr : string).

Inductive call :=
| Call_socket (family : Z) (type : socktype) (fd : Z)
| Call_setsockopt (fd : Z) (opt : socket_option) (status : Z)
| Call_bind (fd : Z) (sa : sockaddr_t) (status : Z)
| Call_listen (fd : Z) (backlog : Z) (status : Z)
| Call_closesocket (fd : Z)
| Call_logger (m : socket_msg).

(** What these two functions obtain from outside: the answers of the
    system calls (by the number of calls made so far), the globals
    [udp_rcvbuf] and [udp_sndbuf], the debug level, the path MTU option of
    the local node and the macros the platform defines. *)
Record platform := {
  os_socket : nat -> Z -> socktype -> Z;
  os_setsockopt : nat -> Z -> socket_option -> Z;
  os_bind : nat -> Z -> sockaddr_t -> Z;
  os_listen : nat -> Z -> Z -> Z;
  udp_rcvbuf : Z;
  udp_sndbuf : Z;
  (* ifdebug(STATUS) *)
  debug_status : bool;
  (* myself->options & OPTION_PMTU_DISCOVERY *)
  option_pmtu_discovery : bool;
  (* defined(IPPROTO_IPV6) && defined(IPV6_V6ONLY) *)
  have_IPPROTO_IPV6_V6ONLY : bool;
  (* defined(SOL_IP) && defined(IP_MTU_DISCOVER) && defined(IP_PMTUDISC_DO) *)
  have_IP_MTU_DISCOVER : bool;
  (* defined(IPPROTO_IP) && defined(IP_DONTFRAGMENT) *)
  have_IP_DONTFRAGMENT : bool;
  (* defined(SOL_IPV6) && defined(IPV6_MTU_DISCOVER) && defined(IPV6_PMTUDISC_DO) *)
  have_IPV6_MTU_DISCOVER : bool;
  (* defined(IPPROTO_IPV6) && defined(IPV6_DONTFRAG) *)
  have_IPV6_DONTFRAG : bool
}.

(** The state of the program and the log of the calls of these functions. *)
Record sockets := {
  sys : state;
  calls : list call
}.

(** A system call was made and answered. *)
Definition called (e : call) (x : sockets) : sockets :=
  {| sys := ticked (sys x); calls := calls x ++ [e] |}.

Definition socket_logger (m : socket_msg) (x : sockets) : sockets :=
  {| sys := sys x; calls := calls x ++ [Call_logger m] |}.

Section Sockets.

Variable W : world.
Variable P : platform.

Definition setsockopt (fd : Z) (opt : socket_option) (x : sockets) : Z * sockets :=
  let status := os_setsockopt P (tick (sys x)) fd opt in
  (status, called (Call_setsockopt fd opt status) x).

Definition closesocket (fd : Z) (x : sockets) : sockets :=
  called (Call_closesocket fd) x.

Definition bind (fd : Z) (sa : sockaddr_t) (x : sockets) : Z * sockets :=
  let status := os_bind P (tick (sys x)) fd sa in
  (status, called (Call_bind fd sa status) x).

Definition listen (fd : Z) (backlog : Z) (x : sockets) : Z * sockets :=
  let status := os_listen P (tick (sys x)) fd backlog in
  (status, called (Call_listen fd backlog status) x).

(** Lines 178-195 of [setup_listen_socket]: [false] when the function
    returns -1 there.  [strncpy] copies at most [IFNAMSIZ] characters and
    the name is not cut after it. *)
Definition listen_bind_to_interface (nfd : Z) (x : sockets) : bool * sockets :=
  match get_config_string (lookup_config (config_tree (sys x)) "BindToInterface") with
  | Some iface =>
      if have_SO_BINDTODEVICE W then
        let '(status, x) :=
          setsockopt nfd (SO_BINDTODEVICE_ifreq (substring 0 IFNAMSIZ iface)) x in
        if negb (status =? 0) then
          let x := closesocket nfd x in
          (false, socket_logger (Cant_bind_listen_socket_to_interface iface) x)
        else (true, x)
      else (true, socket_logger BindToInterface_not_supported x)
  | None => (true, x)
  end.

Definition setup_listen_socket (sa : sockaddr_t) (x : sockets) : Z * sockets :=
  let nfd := os_socket P (tick (sys x)) (sa_family sa) SOCK_STREAM in
  let x := called (Call_socket (sa_family sa) SOCK_STREAM nfd) x in
  if nfd <? 0 then
    (-1, if debug_status P then socket_logger Creating_metasocket_failed x else x)
  else
    let x := (setsockopt nfd (SO_REUSEADDR 1) x).2 in
    let x := if have_IPV6_V6ONLY W && (sa_family sa =? AF_INET6)
             then (setsockopt nfd (SOL_IPV6_V6ONLY 1) x).2 else x in
    let '(went_on, x) := listen_bind_to_interface nfd x in
    if negb went_on then (-1, x)
    else
      let '(status, x) := bind nfd sa x in
      if negb (status =? 0) then
        let x := closesocket nfd x in
        (-1, socket_logger (Cant_bind_to_address_tcp (sockaddr2hostname W sa)) x)
      else
        let '(status, x) := listen nfd 3 x in
        if negb (status =? 0) then
          let x := closesocket nfd x in
          (-1, socket_logger System_call_listen_failed x)
        else (nfd, x).

(** Lines 226-270 of [setup_vpn_in_socket]: the options of the datagram
    socket; none of them decides what the function returns. *)
Definition tune_vpn_in_socket (nfd : Z) (sa : sockaddr_t) (x : sockets) : sockets :=
  let x := (setsockopt nfd (SO_REUSEADDR 1) x).2 in
  let x := if negb (udp_rcvbuf P =? 0) then
             let '(status, x) := setsockopt nfd (SO_RCVBUF (udp_rcvbuf P)) x in
             if negb (status =? 0)
             then socket_logger (Cant_set_UDP_SO_RCVBUF (udp_rcvbuf P)) x else x
           else x in
  let x := if negb (udp_sndbuf P =? 0) then
             let '(status, x) := setsockopt nfd (SO_SNDBUF (udp_sndbuf P)) x in
             if negb (status =? 0)
             then socket_logger (Cant_set_UDP_SO_SNDBUF (udp_sndbuf P)) x else x
           else x in
  let x := if have_IPPROTO_IPV6_V6ONLY P && (sa_family sa =? AF_INET6)
           then (setsockopt nfd (IPPROTO_IPV6_V6ONLY 1) x).2 else x in
  let x := if have_IP_MTU_DISCOVER P then
             if option_pmtu_discovery P
             then (setsockopt nfd IP_MTU_DISCOVER_DO x).2 else x
           else if have_IP_DONTFRAGMENT P then
             if option_pmtu_discovery P
             then (setsockopt nfd (IP_DONTFRAGMENT 1) x).2 else x
           else x in
  if have_IPV6_MTU_DISCOVER P then
    if option_pmtu_discovery P
    then (setsockopt nfd IPV6_MTU_DISCOVER_DO x).2 else x
  else if have_IPV6_DONTFRAG P then
    if option_pmtu_discovery P
    then (setsockopt nfd (IPV6_DONTFRAG 1) x).2 else x
  else x.

Definition setup_vpn_in_socket (sa : sockaddr_t) (x : sockets) : Z * sockets :=
  let nfd := os_socket P (tick (sys x)) (sa_family sa) SOCK_DGRAM in
  let x := called (Call_socket (sa_family sa) SOCK_DGRAM nfd) x in
  if nfd <? 0 then (-1, socket_logger Creating_UDP_socket_failed x)
  else
    let x := tune_vpn_in_socket nfd sa x in
    let '(ok, s) := bind_to_interface W nfd (sys x) in
    let x := {| sys := s; calls := calls x |} in
    if negb ok then (-1, closesocket nfd x)
    else
      let '(status, x) := bind nfd sa x in
      if negb (status =? 0) then
        let x := closesocket nfd x in
        (-1, socket_logger (Cant_bind_to_address_udp (sockaddr2hostname W sa)) x)
      else (nfd, x).

End Sockets.

(** ** Vocabulary of the statements *)

(** What [retry_outgoing] leaves in the attempt it is given. *)
Definition retried (max t : Z) (og : outgoing_t) : outgoing_t :=
  let timeout := wrap_int (o_timeout og + 5) in
  let timeout := if max <? timeout then max else timeout in
  {| o_name := o_name og; o_timeout := timeout; o_cfg := o_cfg og;
     o_ai := o_ai og; o_aip := o_aip og;
     o_ev := {| ev_handler := Some retry_outgoing_handler; ev_time := t + timeout |} |}.

(** The timeout of attempt [o] after [n] rounds that each end in
    [retry_outgoing]. *)
Definition timeout_after (o : nat) (s : state) (n : nat) : option Z :=
  o_timeout <$> outgoings (Nat.iter n (retry_outgoing o) s) !! o.

(** One round for attempt [o]: its timer fires and [retry_outgoing_handler]
    calls [setup_outgoing_connection]. *)
Definition round (W : world) (o : nat) (s : state) : state :=
  match setup_outgoing_connection W o s with
  | Done _ s' => s'
  | Abort s' => s'
  | Undefined => s
  end.

(** The timeout of attempt [o] after [n] such rounds. *)
Definition timeout_after_rounds (W : world) (o : nat) (s : state) (n : nat) : option Z :=
  o_timeout <$> outgoings (Nat.iter n (round W o) s) !! o.

(** A state that differs from [s] in the two heaps, in the number of system
    calls and in the events [t] appended to the trace. *)
Definition updated (s : state) (cs : gmap nat connection_t) (os : gmap nat outgoing_t)
    (n : nat) (t : list event) : state :=
  {| config_tree := config_tree s; maxtimeout := maxtimeout s;
     debug_connections := debug_connections s;
     connections := cs; connection_tree := connection_tree s;
     outgoings := os; outgoing_list := outgoing_list s;
     node_tree := node_tree s; event_tree := event_tree s;
     mutex := mutex s; now := now s; tick := n; trace := trace s ++ t |}.

(** Events of the sockets, the resolver and the logger: neither the
    registry, nor the timers, nor the lock. *)
Definition io_event (e : event) : bool :=
  match e with
  | Logger _ | Str2addrinfo _ _ | Sockaddr2hostname _ | Getaddrinfo _ _
  | Socket _ _ | Setsockopt _ _ | Bind _ _ _ => true
  | _ => false
  end.

(** Of those, the ones that are neither a resolution of an [Address] entry
    nor the naming of a candidate. *)
Definition quiet_event (e : event) : bool :=
  match e with
  | Logger _ | Getaddrinfo _ _ | Socket _ _ | Setsockopt _ _ | Bind _ _ _ => true
  | _ => false
  end.

Definition quiet (t : list event) : Prop := Forall (fun e => quiet_event e = true) t.

(** The requests made to [str2addrinfo], oldest first. *)
Definition resolver_calls (t : list event) : list (string * string) :=
  flat_map (fun e => match e with Str2addrinfo a p => [(a, p)] | _ => [] end) t.

(** The candidates handed to [sockaddr2hostname], oldest first: the
    addresses that were tried. *)
Definition tried (t : list event) : list sockaddr_t :=
  flat_map (fun e => match e with Sockaddr2hostname a => [a] | _ => [] end) t.

(** The addresses [bind] was called with, oldest first. *)
Definition bind_calls (t : list event) : list sockaddr_t :=
  flat_map (fun e => match e with Bind _ a _ => [a] | _ => [] end) t.

(** The lock flags of the registry operations of a trace: lookups of a
    peer, insertions and removals of records. *)
Definition registry_locks (t : list event) : list bool :=
  flat_map (fun e => match e with
                     | Lookup_node _ l | Connection_add _ l | Connection_del _ _ l => [l]
                     | _ => []
                     end) t.

(** The messages handed to the logger, oldest first. *)
Definition logged (t : list event) : list log_msg :=
  flat_map (fun e => match e with Logger m => [m] | _ => [] end) t.

(** All candidates an address source still has to offer: what is left of
    the list of the current entry, then the addresses of the entries under
    and after the cursor. *)
Definition all_candidates (W : world) (r : connection_t) (og : outgoing_t) : list sockaddr_t :=
  match o_ai og with [] => [] | _ :: _ => o_aip og end
  ++ flat_map (resolve W r) (o_cfg og).

(** The fields of a record that the address loop leaves alone. *)
Definition kept (r r' : connection_t) : Prop :=
  c_name r' = c_name r /\ c_connecting r' = c_connecting r /\
  c_last_ping_time r' = c_last_ping_time r /\
  c_outcipher r' = c_outcipher r /\ c_outdigest r' = c_outdigest r /\
  c_outmaclength r' = c_outmaclength r /\
  c_outcompression r' = c_outcompression r /\
  c_config_tree r' = c_config_tree r /\ c_outgoing r' = c_outgoing r /\
  c_allow_request r' = c_allow_request r /\ c_thread r' = c_thread r.

(** What the passes of the loop have used up of an attempt [og], leaving
    [og'] and the events [t]. *)
Record consumed (W : world) (r : connection_t) (og og' : outgoing_t) (t : list event) : Prop := {
  cs_io : Forall (fun e => io_event e = true) t;
  cs_name : o_name og' = o_name og;
  cs_timeout : o_timeout og' = o_timeout og;
  cs_ev : o_ev og' = o_ev og;
  cs_cfg : exists used,
      o_cfg og = used ++ o_cfg og' /\
      resolver_calls t = map (fun e => address_and_port (c_config_tree r) (value e)) used;
  cs_candidates : all_candidates W r og = tried t ++ all_candidates W r og'
}.

(** The record of a connection after candidate [a] got descriptor [fd]. *)
Definition candidate_record (W : world) (a : sockaddr_t) (fd : Z) (r : connection_t) : connection_t :=
  set_c_socket fd (set_c_hostname (Some (sockaddr2hostname W a)) (set_c_address (Some a) r)).

(** The globals as the file initialises them (lines 43-51). *)
Definition startup (tree : list config_t) (debug : bool) (t : Z) : state :=
  {| config_tree := tree; maxtimeout := 900; debug_connections := debug;
     connections := ∅; connection_tree := ∅; outgoings := ∅; outgoing_list := [];
     node_tree := ∅; event_tree := ∅; mutex := false; now := t; tick := 0%nat;
     trace := [] |}.

(** [fd] is a descriptor that a call of [socket] returned. *)
Definition from_socket (W : world) (fd : Z) : Prop :=
  0 <= fd /\ exists k family, sys_socket W k family = fd.

(** What one pass of the loop does to a state whose record [c] is [r] and
    whose attempt [o] is [og]. *)
Inductive pass_outcome (W : world) (c o : nat) (r : connection_t) (og : outgoing_t)
    (s : state) (cs : gmap nat connection_t) (os : gmap nat outgoing_t)
    (n : nat) (t : list event) : pass -> Prop :=
| Runs_out :
    o_ai og = [] -> o_cfg og = [] ->
    pass_outcome W c o r og s cs os n t
      (Return (Done tt (out_of_addresses c o r (updated s cs os n t))))
| Goes_on r' og' n' t' :
    kept r r' -> consumed W r og og' t' ->
    (passes W r' og' < passes W r og)%nat ->
    pass_outcome W c o r og s cs os n t
      (Goto_begin (updated s (<[c := r']> cs) (<[o := og']> os) n' (t ++ t')))
| Connects a fd og' n' t' :
    from_socket W fd -> consumed W r og og' t' -> last (tried t') = Some a ->
    pass_outcome W c o r og s cs os n t
      (Return (Done tt (updated s
                          (<[c := set_c_connecting true (candidate_record W a fd r)]> cs)
                          (<[o := og']> os) n' (t ++ t')))).

(** How the loop ends from a state whose record [c] is [r] and whose
    attempt [o] is [og]: every entry is used up and it gives up, or a
    candidate got a socket. *)
Inductive loop_outcome (W : world) (c o : nat) (r : connection_t) (og : outgoing_t)
    (s : state) (cs : gmap nat connection_t) (os : gmap nat outgoing_t)
    (t0 : list event) : result unit -> Prop :=
| Loop_runs_out r' og' n t :
    kept r r' -> consumed W r og og' t -> o_ai og' = [] -> o_cfg og' = [] ->
    loop_outcome W c o r og s cs os t0
      (Done tt (out_of_addresses c o r' (updated s (<[c := r']> cs) (<[o := og']> os) n (t0 ++ t))))
| Loop_connects r' a fd og' n t :
    kept r r' -> from_socket W fd -> consumed W r og og' t -> last (tried t) = Some a ->
    loop_outcome W c o r og s cs os t0
      (Done tt (updated s
                  (<[c := set_c_connecting true (candidate_record W a fd r')]> cs)
                  (<[o := og']> os) n (t0 ++ t))).

(** The events of giving up on record [r] and attempt [og]. *)
Definition out_of_addresses_trace (c o : nat) (r : connection_t) (og : outgoing_t) (s : state) : list event :=
  (if debug_connections s then [Logger (Could_not_set_up (c_name r))] else [])
  ++ [Event_add o (now s + o_timeout (retried (maxtimeout s) (now s) og))]
  ++ (if debug_connections s
      then [Logger (Trying_to_reestablish (o_timeout (retried (maxtimeout s) (now s) og)))]
      else [])
  ++ [Connection_del c (Some (set_c_outgoing None r)) (mutex s)].

(** The state after giving up. *)
Definition ran_out (c o : nat) (r : connection_t) (og : outgoing_t) (s : state)
    (cs : gmap nat connection_t) (os : gmap nat outgoing_t) (n : nat) (t : list event) : state :=
  {| config_tree := config_tree s; maxtimeout := maxtimeout s;
     debug_connections := debug_connections s;
     connections := <[c := set_c_outgoing None r]> cs;
     connection_tree := connection_tree s ∖ {[c]};
     outgoings := <[o := retried (maxtimeout s) (now s) og]> os;
     outgoing_list := outgoing_list s;
     node_tree := node_tree s; event_tree := {[o]} ∪ event_tree s;
     mutex := mutex s; now := now s; tick := n;
     trace := trace s ++ t ++ out_of_addresses_trace c o r og s |}.

(** ** The three ways [do_outgoing_connection] ends (C10) *)

(** The process is aborted: the record has no pending attempt. *)
Definition aborts (W : world) (c : nat) (s : state) (r : connection_t) : Prop :=
  c_outgoing r = None /\
  do_outgoing_connection W c s = Abort (logger (Called_without_outgoing (c_name r)) s).

(** Every address is used up: the timer of the attempt is armed, the
    back-reference of the record is cleared and the record is deleted with
    the back-reference already cleared; the attempt stays in its heap. *)
Definition retry_scheduled (W : world) (c : nat) (s : state) (r : connection_t) : Prop :=
  exists o og' r' s',
    c_outgoing r = Some o /\
    do_outgoing_connection W c s = Done tt s' /\
    outgoings s' !! o = Some og' /\ o_ai og' = [] /\ o_cfg og' = [] /\
    o_ev og' = {| ev_handler := Some retry_outgoing_handler;
                  ev_time := now s + o_timeout og' |} /\
    o ∈ event_tree s' /\
    connections s' !! c = Some r' /\ c_outgoing r' = None /\
    (c ∉ connection_tree s') /\
    last (trace s') = Some (Connection_del c (Some r') (mutex s)).

(** A candidate got a socket: the record carries its address, its host
    name and the descriptor, and is marked as connecting. *)
Definition connecting (W : world) (c : nat) (s : state) (r : connection_t) : Prop :=
  exists o a r' s',
    c_outgoing r = Some o /\
    do_outgoing_connection W c s = Done tt s' /\
    connections s' !! c = Some r' /\
    c_address r' = Some a /\ c_hostname r' = Some (sockaddr2hostname W a) /\
    0 <= c_socket r' /\ c_connecting r' = true /\ c_outgoing r' = Some o /\
    connection_tree s' = connection_tree s /\ event_tree s' = event_tree s.

(** The peer is configured for an outgoing connection: a [ConnectTo] line
    of the configuration names it. *)
Definition still_configured (s : state) (name : string) : Prop :=
  name ∈ (value <$> lookup_config (config_tree s) "ConnectTo").

(** The host and the port each entry of a cursor is resolved with. *)
Definition requests (r : connection_t) (cfg : list config_t) : list (string * string) :=
  map (fun e => address_and_port (c_config_tree r) (value e)) cfg.

(** An [Address] line of a host configuration file. *)
Definition address_entry (v : string) : config_t :=
  {| variable := "Address"; value := v; file := "hosts"; line := 0 |}.

(** The record [setup_outgoing_connection] builds for attempt [o] before
    it calls [do_outgoing_connection]. *)
Definition new_outgoing_record (W : world) (o : nat) (og : outgoing_t) (s : state) : connection_t :=
  set_c_last_ping_time (now s)
    (set_c_outgoing (Some o) (outgoing_record W (o_name og) zero_connection)).

(** The state in which [setup_outgoing_connection] calls
    [do_outgoing_connection]: the timer is cancelled, the record is
    registered and the cursor is at the first [Address] entry. *)
Definition prepared (W : world) (o : nat) (og : outgoing_t) (s : state) : state :=
  let c := fresh (connections s) in
  {| config_tree := config_tree s; maxtimeout := maxtimeout s;
     debug_connections := debug_connections s;
     connections := <[c := new_outgoing_record W o og s]> (connections s);
     connection_tree := {[c]} ∪ connection_tree s;
     outgoings := <[o := set_o_cfg (lookup_config (read_connection_config W (o_name og))
                                      "Address") og]> (outgoings s);
     outgoing_list := outgoing_list s;
     node_tree := node_tree s; event_tree := event_tree s ∖ {[o]};
     mutex := mutex s; now := now s; tick := tick s;
     trace := trace s ++ [Event_del o; Lookup_node (o_name og) (mutex s);
                          Connection_add c (mutex s)] |}.

(** The peer of an attempt has a live connection record. *)
Definition live_connection (s : state) (name : string) : option nat :=
  node_tree s !! name ≫= n_connection.

(** The names of the pending attempts of [outgoing_list]. *)
Definition pending_names (s : state) : list string :=
  omap (fun o => o_name <$> outgoings s !! o) (outgoing_list s).

(** The uses of the lock in a trace. *)
Definition lock_events (t : list event) : list event :=
  flat_map (fun e => match e with Mutex_lock | Mutex_unlock => [e] | _ => [] end) t.

(** What the outgoing path keeps from [s] to [s'] while it appends the
    events [t]: the list of attempts and their names, and the lock, which
    it never takes nor releases; every registry operation sees the lock as
    it was in [s]. *)
Definition steady (s s' : state) (t : list event) : Prop :=
  outgoing_list s' = outgoing_list s /\
  (forall o', o_name <$> outgoings s' !! o' = o_name <$> outgoings s !! o') /\
  mutex s' = mutex s /\
  trace s' = trace s ++ t /\
  Forall (eq (mutex s)) (registry_locks t) /\
  lock_events t = [].

(** The [ConnectTo] names that pass [check_id], in configuration order. *)
Definition valid_names (W : world) (cfg : list config_t) : list string :=
  filter (fun name => check_id W name = true) (value <$> cfg).

(** Every attempt of [outgoing_list] is allocated. *)
Definition listed_live (s : state) : Prop :=
  Forall (fun o => is_Some (outgoings s !! o)) (outgoing_list s).

(** The state in which [try_outgoing_connections] calls
    [setup_outgoing_connection] for a valid name: the attempt is allocated
    and appended to [outgoing_list]. *)
Definition listed (name : string) (s : state) : state :=
  let o := fresh (outgoings s) in
  set_outgoing_list (outgoing_list s ++ [o])
    (with_outgoing o (set_o_name name)
       (set_outgoings (<[o := zero_outgoing]> (outgoings s)) s)).

(** The events of one accepted connection up to [thread_create]. *)
Definition accepted_trace (W : world) (l_tcp : Z) (s : state) : list event :=
  let fd := (sys_accept W (tick s) l_tcp).1 in
  let sa := sockaddrunmap W (sys_accept W (tick s) l_tcp).2 in
  let c := fresh (connections s) in
  [Accept fd; Sockaddr2hostname sa]
  ++ (if debug_connections s then [Logger (Connection_from (sockaddr2hostname W sa))] else [])
  ++ (if have_TCP_NODELAY W then [Setsockopt fd TCP_NODELAY] else [])
  ++ (if have_IPTOS_LOWDELAY W then [Setsockopt fd IP_TOS_LOWDELAY] else [])
  ++ [Mutex_lock; Connection_add c true; Send_id c].

(** The state in which the accept loop calls [thread_create]. *)
Definition accepted (W : world) (l_tcp : Z) (s : state) : state :=
  let fd := (sys_accept W (tick s) l_tcp).1 in
  let sa := sockaddrunmap W (sys_accept W (tick s) l_tcp).2 in
  let c := fresh (connections s) in
  {| config_tree := config_tree s; maxtimeout := maxtimeout s;
     debug_connections := debug_connections s;
     connections := <[c := set_c_allow_request (Some ID)
                             (accepted_record W sa fd (now s) zero_connection)]>
                      (connections s);
     connection_tree := {[c]} ∪ connection_tree s;
     outgoings := outgoings s; outgoing_list := outgoing_list s;
     node_tree := node_tree s; event_tree := event_tree s;
     mutex := true; now := now s; tick := S (tick s);
     trace := trace s ++ accepted_trace W l_tcp s |}.

(** ** Concrete inputs *)

Definition INADDR (host : string) (port : Z) : sockaddr_t :=
  {| sa_family := AF_INET; sa_host := host; sa_port := port |}.

(** A world in which the peer ["a"] has the two [Address] lines of the
    example, name resolution knows three hosts, [socket] answers [sock] at
    every call and [thread_create] answers [thread]. *)
Definition example_world (sock : Z) (thread : bool) : world :=
  {| str2addrinfo := fun address port =>
       if String.eqb address "10.0.0.1" then
         [INADDR address (if String.eqb port "1000" then 1000 else 655)]
       else if String.eqb address "10.0.0.2" then
         [INADDR address (if String.eqb port "1000" then 1000 else 655)]
       else [];
     sockaddr2hostname := sa_host;
     sockaddrunmap := fun sa => sa;
     check_id := fun name => negb (String.eqb name "not a name");
     read_connection_config := fun name =>
       if String.eqb name "a"
       then [address_entry "10.0.0.1 1000"; address_entry "10.0.0.2"]
       else [];
     myself_connection := zero_connection;
     sys_socket := fun _ _ => sock;
     sys_bind := fun _ _ sa => if String.eqb (sa_host sa) "192.0.2.1" then -1 else 0;
     sys_setsockopt_bindtodevice := fun _ _ _ => 0;
     sys_getaddrinfo := fun _ node _ =>
       if String.eqb node "multihomed"
       then Some (INADDR "192.0.2.1" 0, [INADDR "192.0.2.2" 0])
       else None;
     sys_accept := fun _ l_tcp => (7, INADDR "198.51.100.7" 40000);
     sys_thread_create := fun _ => thread;
     have_TCP_NODELAY := true;
     have_IPTOS_LOWDELAY := true;
     have_SO_BINDTODEVICE := true;
     have_IPV6_V6ONLY := true |}.

Definition connect_to_entry (name : string) : config_t :=
  {| variable := "ConnectTo"; value := name; file := "tinc.conf"; line := 1 |}.

(** A record for the peer ["a"] with attempt 1 pending, and that attempt
    with its cursor [cfg] and timeout [timeout]. *)
Definition example_record : connection_t :=
  {| c_name := "a"; c_hostname := None; c_address := None; c_socket := 0;
     c_connecting := false; c_last_ping_time := 0; c_outcipher := 0;
     c_outdigest := 0; c_outmaclength := 0; c_outcompression := 0;
     c_config_tree := [address_entry "10.0.0.1 1000"; address_entry "10.0.0.2"];
     c_outgoing := Some 1%nat; c_allow_request := None; c_thread := false |}.

Definition example_attempt (cfg : list config_t) (timeout : Z) : outgoing_t :=
  {| o_name := "a"; o_timeout := timeout; o_cfg := cfg; o_ai := []; o_aip := [];
     o_ev := {| ev_handler := None; ev_time := 0 |} |}.

(** A state with that record registered as connection 1 and that attempt
    as attempt 1, under the global configuration [tree] and the maximum
    timeout [max]. *)
Definition example_state (tree : list config_t) (max : Z) (cfg : list config_t)
    (timeout : Z) : state :=
  {| config_tree := tree; maxtimeout := max; debug_connections := true;
     connections := {[1%nat := example_record]}; connection_tree := {[1%nat]};
     outgoings := {[1%nat := example_attempt cfg timeout]};
     outgoing_list := [1%nat];
     node_tree := ∅; event_tree := ∅; mutex := false; now := 1000;
     tick := 0%nat; trace := [] |}.

(** The same state after the peer ["a"] has been connected through
    record 1. *)
Definition connected_state : state :=
  {| config_tree := [connect_to_entry "a"]; maxtimeout := 900;
     debug_connections := true;
     connections := {[1%nat := example_record]}; connection_tree := {[1%nat]};
     outgoings := {[1%nat := example_attempt [] 0]};
     outgoing_list := [1%nat];
     node_tree := {["a"%string := {| n_connection := Some 1%nat |}]};
     event_tree := {[1%nat]}; mutex := false; now := 1000;
     tick := 0%nat; trace := [] |}.

(** A state with a socket in hand for record 1 and [BindToAddress] naming
    a host with two addresses. *)
Definition bind_state : state :=
  {| config_tree := [{| variable := "BindToAddress"; value := "multihomed";
                        file := "tinc.conf"; line := 1 |}];
     maxtimeout := 900; debug_connections := true;
     connections := {[1%nat := set_c_socket 3 example_record]};
     connection_tree := {[1%nat]};
     outgoings := ∅; outgoing_list := [];
     node_tree := ∅; event_tree := ∅; mutex := false; now := 1000;
     tick := 0%nat; trace := [] |}.

(** ** Vocabulary of the further properties *)

(** The descriptors a log of calls leaves open, given those that were open
    before it: [socket] opens the one it returns, [closesocket] closes. *)
Fixpoint open_after (l : list call) (open : list Z) : list Z :=
  match l with
  | [] => open
  | Call_socket _ _ fd :: l => open_after l (if fd <? 0 then open else fd :: open)
  | Call_closesocket fd :: l => open_after l (filter (fun d => d <> fd) open)
  | _ :: l => open_after l open
  end.

(** Calls that neither open nor close a descriptor. *)
Definition keeps_descriptors (e : call) : bool :=
  match e with
  | Call_socket _ _ _ | Call_closesocket _ => false
  | _ => true
  end.

(** The options a log of calls has asked for on descriptor [fd]. *)
Definition options_set (fd : Z) (l : list call) : list socket_option :=
  flat_map (fun e => match e with
                     | Call_setsockopt d opt _ => if d =? fd then [opt] else []
                     | _ => []
                     end) l.

(** The characters of a string. *)
Definition chars (a : string) : list ascii := list_ascii_of_string a.

(** The calls of [bind] in a trace, oldest first: descriptor, address and
    status. *)
Definition bind_results (t : list event) : list (Z * sockaddr_t * Z) :=
  flat_map (fun e => match e with Bind fd a st => [(fd, a, st)] | _ => [] end) t.

(** The candidates of a round of [setup_outgoing_connection] for attempt
    [og]: what an earlier round has left of its list of addresses, then the
    addresses of every [Address] entry of the host configuration of the
    peer. *)
Definition round_candidates (W : world) (o : nat) (og : outgoing_t) (s : state) : list sockaddr_t :=
  match o_ai og with [] => [] | _ :: _ => o_aip og end
  ++ flat_map (resolve W (new_outgoing_record W o og s))
       (lookup_config (read_connection_config W (o_name og)) "Address").

(** The state after [turns] completed turns of the accept loop, when it is
    still looping after them. *)
Fixpoint after_turns (W : world) (turns : nat) (l_tcp : Z) (s : state) : option state :=
  match turns with
  | O => Some s
  | S turns =>
      match accept_turn W l_tcp s with
      | Again s => after_turns W turns l_tcp s
      | Leave _ => None
      end
  end.

(** The uses of the lock of [n] accepted connections. *)
Fixpoint lock_pairs (n : nat) : list event :=
  match n with
  | O => []
  | S n => Mutex_lock :: Mutex_unlock :: lock_pairs n
  end.

(** The options set in a trace, oldest first, with their descriptor. *)
Definition sockopts (t : list event) : list (Z * sockopt) :=
  flat_map (fun e => match e with Setsockopt fd opt => [(fd, opt)] | _ => [] end) t.

(** The options of a datagram socket for address [sa], in the order of
    lines 226-270: address reuse, the buffer sizes that are not zero,
    IPv6 only for an IPv6 address, and the ban on fragmentation when path
    MTU discovery is on, by the first way the platform has for each
    protocol. *)
Definition vpn_options (P : platform) (sa : sockaddr_t) : list socket_option :=
  [SO_REUSEADDR 1]
  ++ (if udp_rcvbuf P =? 0 then [] else [SO_RCVBUF (udp_rcvbuf P)])
  ++ (if udp_sndbuf P =? 0 then [] else [SO_SNDBUF (udp_sndbuf P)])
  ++ (if have_IPPROTO_IPV6_V6ONLY P && (sa_family sa =? AF_INET6)
      then [IPPROTO_IPV6_V6ONLY 1] else [])
  ++ (if option_pmtu_discovery P then
        (if have_IP_MTU_DISCOVER P then [IP_MTU_DISCOVER_DO]
         else if have_IP_DONTFRAGMENT P then [IP_DONTFRAGMENT 1] else [])
        ++ (if have_IPV6_MTU_DISCOVER P then [IPV6_MTU_DISCOVER_DO]
            else if have_IPV6_DONTFRAG P then [IPV6_DONTFRAG 1] else [])
      else []).

(** The messages a log of calls has handed to the logger. *)
Definition socket_logged (l : list call) : list socket_msg :=
  flat_map (fun e => match e with Call_logger m => [m] | _ => [] end) l.

(** A call that sets an option or logs. *)
Definition tuning_call (e : call) : bool :=
  match e with
  | Call_setsockopt _ _ _ | Call_logger _ => true
  | _ => false
  end.

(** The warnings of lines 229-233 that a log of calls calls for: one for
    every request of a buffer size that did not answer 0, in the order of
    the requests. *)
Definition buffer_warnings (l : list call) : list socket_msg :=
  flat_map (fun e => match e with
                     | Call_setsockopt _ (SO_RCVBUF v) st =>
                         if st =? 0 then [] else [Cant_set_UDP_SO_RCVBUF v]
                     | Call_setsockopt _ (SO_SNDBUF v) st =>
                         if st =? 0 then [] else [Cant_set_UDP_SO_SNDBUF v]
                     | _ => []
                     end) l.

(** An option that is no buffer size. *)
Definition plain_option (opt : socket_option) : bool :=
  match opt with
  | SO_RCVBUF _ | SO_SNDBUF _ => false
  | _ => true
  end.

(** [x'] is [x] after the options [opts] were asked for on descriptor
    [fd], one system call each, with no other call but for messages among
    [msgs]: exactly the warnings of the buffer sizes that failed. *)
Definition tunes (fd : Z) (opts : list socket_option) (msgs : list socket_msg)
    (x x' : sockets) : Prop :=
  exists l,
    x' = {| sys := set_tick (tick (sys x) + length opts) (sys x); calls := calls x ++ l |}
    /\ options_set fd l = opts
    /\ forallb tuning_call l = true
    /\ socket_logged l `sublist_of` msgs
    /\ socket_logged l = buffer_warnings l.

(** The options of a listening socket for address [sa] under the
    configuration [tree], in the order of lines 170-195. *)
Definition listen_options (W : world) (sa : sockaddr_t) (tree : list config_t) : list socket_option :=
  [SO_REUSEADDR 1]
  ++ (if have_IPV6_V6ONLY W && (sa_family sa =? AF_INET6) then [SOL_IPV6_V6ONLY 1] else [])
  ++ match get_config_string (lookup_config tree "BindToInterface") with
     | Some iface =>
         if have_SO_BINDTODEVICE W
         then [SO_BINDTODEVICE_ifreq (substring 0 IFNAMSIZ iface)] else []
     | None => []
     end.

(** The descriptors [socket] returned in a trace, oldest first. *)
Definition socket_results (t : list event) : list Z :=
  flat_map (fun e => match e with Socket _ fd => [fd] | _ => [] end) t.

(** Events of the options, the binding and the logger: quiet events that
    are not a call of [socket]. *)
Definition calm_event (e : event) : bool :=
  match e with
  | Logger _ | Getaddrinfo _ _ | Setsockopt _ _ | Bind _ _ _ => true
  | _ => false
  end.

Definition calm (t : list event) : Prop := Forall (fun e => calm_event e = true) t.

(** [socket] can fail for the family of address [a]. *)
Definition no_socket_for (W : world) (a : sockaddr_t) : Prop :=
  exists k, sys_socket W k (sa_family a) < 0.

(** Every candidate tried in [t] was tried with one call of [socket], and
    that call failed. *)
Definition all_failed (W : world) (t : list event) : Prop :=
  socket_results t = repeat (-1) (length (tried t))
  /\ Forall (no_socket_for W) (tried t).

(** The candidates tried in [t] before [a] were each tried with one call of
    [socket] that failed, and the call for [a], the last one, returned the
    descriptor [fd]. *)
Definition first_success (W : world) (t : list event) (a : sockaddr_t) (fd : Z) : Prop :=
  exists before,
    tried t = before ++ [a]
    /\ socket_results t = repeat (-1) (length before) ++ [fd]
    /\ Forall (no_socket_for W) before
    /\ 0 <= fd /\ exists k, sys_socket W k (sa_family a) = fd.

(** The calls of [thread_create] in a trace, oldest first, with their
    answer. *)
Definition thread_calls (t : list event) : list (nat * bool) :=
  flat_map (fun e => match e with Thread_create c ok => [(c, ok)] | _ => [] end) t.

(** Modelled from the spec: the callers of the outgoing path, the timer
    loop and the start-up code, are not among the sources.  The spec has
    every registry operation made under the single lock of the registry,
    and the outgoing path holds no lock operation of its own: its callers
    enter it with the lock held. *)
Definition entered_under_lock (s : state) : Prop := mutex s = true.

(** The world [W] with a [thread_create] that fails at system call number
    [k] and succeeds at every other. *)
Definition thread_fails_at (k : nat) (W : world) : world :=
  {| str2addrinfo := str2addrinfo W;
     sockaddr2hostname := sockaddr2hostname W;
     sockaddrunmap := sockaddrunmap W;
     check_id := check_id W;
     read_connection_config := read_connection_config W;
     myself_connection := myself_connection W;
     sys_socket := sys_socket W;
     sys_bind := sys_bind W;
     sys_setsockopt_bindtodevice := sys_setsockopt_bindtodevice W;
     sys_getaddrinfo := sys_getaddrinfo W;
     sys_accept := sys_accept W;
     sys_thread_create := fun n => negb (n =? k)%nat;
     have_TCP_NODELAY := have_TCP_NODELAY W;
     have_IPTOS_LOWDELAY := have_IPTOS_LOWDELAY W;
     have_SO_BINDTODEVICE := have_SO_BINDTODEVICE W;
     have_IPV6_V6ONLY := have_IPV6_V6ONLY W |}.

(** * Properties *)

(** ** C integers and heaps *)

Lemma wrap_int_id z : in_int z -> wrap_int z = z.
Proof.
  unfold in_int, INT_MIN, INT_MAX, wrap_int. intros H.
  rewrite Z.mod_small; lia.
Qed.

Lemma lookup_with_outgoing o f s og :
  outgoings s !! o = Some og ->
  outgoings (with_outgoing o f s) !! o = Some (f og).
Proof. intros H. cbn. by rewrite lookup_alter_eq, H. Qed.

Lemma lookup_with_connection c f s r :
  connections s !! c = Some r ->
  connections (with_connection c f s) !! c = Some (f r).
Proof. intros H. cbn. by rewrite lookup_alter_eq, H. Qed.

Lemma alter_Some {A} (f : A -> A) (m : gmap nat A) i x :
  m !! i = Some x -> alter f i m = <[i := f x]> m.
Proof.
  intros H. apply map_eq. intros j. destruct (decide (i = j)) as [->|Hne].
  - by rewrite lookup_alter_eq, lookup_insert_eq, H.
  - by rewrite lookup_alter_ne, lookup_insert_ne.
Qed.

Lemma alter_insert_same {A} (f : A -> A) (m : gmap nat A) i x :
  alter f i (<[i := x]> m) = <[i := f x]> m.
Proof.
  rewrite (alter_Some f _ i x) by apply lookup_insert_eq.
  apply insert_insert_eq.
Qed.

(** ** States in the form [updated] *)

Lemma updated_id s : s = updated s (connections s) (outgoings s) (tick s) [].
Proof. destruct s. unfold updated. cbn. by rewrite app_nil_r. Qed.

Lemma with_connection_updated c f s cs os n t :
  with_connection c f (updated s cs os n t) = updated s (alter f c cs) os n t.
Proof. reflexivity. Qed.

Lemma with_outgoing_updated o f s cs os n t :
  with_outgoing o f (updated s cs os n t) = updated s cs (alter f o os) n t.
Proof. reflexivity. Qed.

Lemma emit_updated e s cs os n t :
  emit e (updated s cs os n t) = updated s cs os n (t ++ [e]).
Proof. unfold emit, updated, set_trace. cbn. by rewrite app_assoc. Qed.

Lemma ticked_updated s cs os n t :
  ticked (updated s cs os n t) = updated s cs os (S n) t.
Proof. reflexivity. Qed.

Lemma updated_updated s cs os n t cs' os' n' t' :
  updated (updated s cs os n t) cs' os' n' t' = updated s cs' os' n' (t ++ t').
Proof. unfold updated. cbn. by rewrite app_assoc. Qed.

Lemma logger_updated m s cs os n t :
  logger m (updated s cs os n t) = updated s cs os n (t ++ [Logger m]).
Proof. apply emit_updated. Qed.

Lemma ifdebug_updated m s cs os n t :
  ifdebug_CONNECTIONS m (updated s cs os n t)
  = updated s cs os n (t ++ if debug_connections s then [Logger m] else []).
Proof.
  unfold ifdebug_CONNECTIONS. cbn [debug_connections updated].
  destruct (debug_connections s).
  - apply logger_updated.
  - by rewrite app_nil_r.
Qed.

Lemma quiet_nil : quiet [].
Proof. constructor. Qed.

Lemma quiet_app t t' : quiet t -> quiet t' -> quiet (t ++ t').
Proof. apply Forall_app_2. Qed.

Lemma quiet_one e : quiet_event e = true -> quiet [e].
Proof. intros H. by constructor. Qed.

Lemma quiet_io t : quiet t -> Forall (fun e => io_event e = true) t.
Proof. intros H. eapply Forall_impl; [exact H|]. intros []; cbn; congruence. Qed.

Lemma quiet_resolver_calls t : quiet t -> resolver_calls t = [].
Proof.
  induction 1 as [|e t He _ IH]; [reflexivity|].
  change (e :: t) with ([e] ++ t).
  unfold resolver_calls, tried in *. rewrite flat_map_app, IH.
  by destruct e.
Qed.

Lemma quiet_tried t : quiet t -> tried t = [].
Proof.
  induction 1 as [|e t He _ IH]; [reflexivity|].
  change (e :: t) with ([e] ++ t).
  unfold resolver_calls, tried in *. rewrite flat_map_app, IH.
  by destruct e.
Qed.

Lemma resolver_calls_app t t' :
  resolver_calls (t ++ t') = resolver_calls t ++ resolver_calls t'.
Proof. apply flat_map_app. Qed.

Lemma tried_app t t' : tried (t ++ t') = tried t ++ tried t'.
Proof. apply flat_map_app. Qed.

(** ** The helpers only add quiet events *)

Section Helpers.

Variable W : world.

Lemma socket_updated family s cs os n t :
  socket W family (updated s cs os n t)
  = (let fd := if sys_socket W n family <? 0 then -1 else sys_socket W n family in
     (fd, updated s cs os (S n) (t ++ [Socket family fd]))).
Proof. unfold socket. cbn [tick updated]. by rewrite <- emit_updated. Qed.

Lemma socket_result n family :
  let fd := if sys_socket W n family <? 0 then -1 else sys_socket W n family in
  fd = -1 \/ 0 <= fd.
Proof. cbn. destruct (Z.ltb_spec (sys_socket W n family) 0); lia. Qed.

Lemma bind_to_interface_updated sd s cs os n t :
  exists b n' t',
    bind_to_interface W sd (updated s cs os n t) = (b, updated s cs os n' (t ++ t'))
    /\ quiet t'.
Proof.
  unfold bind_to_interface. cbn [config_tree updated tick].
  destruct (get_config_string _) as [iface|].
  - destruct (have_SO_BINDTODEVICE W).
    + rewrite ticked_updated, emit_updated.
      destruct (_ =? 0).
      * eexists _, _, _. split; [reflexivity|]. by apply quiet_one.
      * rewrite logger_updated, <- app_assoc.
        eexists _, _, _. split; [reflexivity|].
        apply quiet_app; by apply quiet_one.
    + rewrite logger_updated. eexists _, _, _. split; [reflexivity|]. by apply quiet_one.
  - exists true, n, []. rewrite app_nil_r. split; [reflexivity|apply quiet_nil].
Qed.

Lemma bind_loop_updated fd a l st s cs os n t :
  exists st' n' t',
    bind_loop W fd a l st (updated s cs os n t) = (st', updated s cs os n' (t ++ t'))
    /\ quiet t' /\ bind_calls t' = repeat a (length (bind_calls t')).
Proof.
  revert st n t. induction l as [|x l IH]; intros st n t.
  - exists st, n, []. rewrite app_nil_r. split; [reflexivity|]. split; [apply quiet_nil|reflexivity].
  - cbn [bind_loop tick updated]. rewrite ticked_updated, emit_updated.
    destruct (_ =? 0).
    + eexists _, _, _. split; [reflexivity|]. split; [by apply quiet_one|reflexivity].
    + destruct (IH (sys_bind W n fd a) (S n) (t ++ [Bind fd a (sys_bind W n fd a)]))
        as (st' & n' & t' & E & Q & B).
      rewrite E, <- app_assoc.
      eexists _, _, _. split; [reflexivity|].
      split; [apply quiet_app; [by apply quiet_one|done]|].
      cbn. f_equal. exact B.
Qed.

Lemma bind_to_address_updated c r s cs os n t :
  cs !! c = Some r -> 0 <= c_socket r ->
  exists b n' t',
    bind_to_address W c (updated s cs os n t) = Done b (updated s cs os n' (t ++ t'))
    /\ quiet t'.
Proof.
  intros Hc Hfd. unfold bind_to_address. cbn [connections config_tree updated tick].
  rewrite Hc. destruct (Z.ltb_spec (c_socket r) 0); [lia|].
  destruct (get_config_string _) as [node|].
  - rewrite ticked_updated, emit_updated.
    destruct (sys_getaddrinfo W n node _) as [[ai_list ai_next]|].
    + destruct (bind_loop_updated (c_socket r) ai_list (ai_list :: ai_next) (-1)
                  s cs os (S n) (t ++ [Getaddrinfo node
                     match c_address r with Some a => sa_family a | None => AF_UNSPEC end]))
        as (st' & n' & t' & E & Q & _).
      rewrite E. destruct (st' =? 0); cbn [negb].
      * rewrite ifdebug_updated, <- !app_assoc.
        eexists _, _, _. split; [reflexivity|].
        apply quiet_app; [by apply quiet_one|]. apply quiet_app; [done|].
        destruct (debug_connections s); [by apply quiet_one|apply quiet_nil].
      * rewrite logger_updated, <- !app_assoc.
        eexists _, _, _. split; [reflexivity|].
        apply quiet_app; [by apply quiet_one|]. apply quiet_app; [done|by apply quiet_one].
    + rewrite logger_updated, <- app_assoc.
      eexists _, _, _. split; [reflexivity|].
      apply quiet_app; by apply quiet_one.
  - exists true, n, []. rewrite app_nil_r. split; [reflexivity|apply quiet_nil].
Qed.

Lemma configure_tcp_updated c r s cs os n t :
  cs !! c = Some r ->
  exists t', configure_tcp W c (updated s cs os n t) = updated s cs os n (t ++ t')
             /\ quiet t'.
Proof.
  intros Hc. unfold configure_tcp. cbn [connections updated]. rewrite Hc.
  exists ((if have_TCP_NODELAY W then [Setsockopt (c_socket r) TCP_NODELAY] else [])
          ++ if have_IPTOS_LOWDELAY W then [Setsockopt (c_socket r) IP_TOS_LOWDELAY] else []).
  split.
  - destruct (have_TCP_NODELAY W), (have_IPTOS_LOWDELAY W);
      rewrite ?emit_updated, <- ?app_assoc, ?app_nil_r; reflexivity.
  - apply quiet_app.
    + destruct (have_TCP_NODELAY W); [by apply quiet_one|apply quiet_nil].
    + destruct (have_IPTOS_LOWDELAY W); [by apply quiet_one|apply quiet_nil].
Qed.

End Helpers.

(** ** One pass of the loop *)

Section Pass.

Variable W : world.

Lemma kept_refl r : kept r r.
Proof. by repeat split. Qed.

Lemma kept_trans r1 r2 r3 : kept r1 r2 -> kept r2 r3 -> kept r1 r3.
Proof. unfold kept. intuition congruence. Qed.

Lemma kept_candidate a fd r : kept r (candidate_record W a fd r).
Proof. by repeat split. Qed.

Lemma try_candidate_spec c o r og s cs os n t :
  cs !! c = Some r -> os !! o = Some og ->
  match o_aip og with
  | [] =>
      try_candidate W c o r (updated s cs os n t)
      = Goto_begin (updated s cs (<[o := set_o_ai [] og]> os) n t)
  | a :: ai_next =>
      exists fd n' q,
        quiet q /\
        ((fd = -1 /\
          try_candidate W c o r (updated s cs os n t)
          = Goto_begin (updated s (<[c := candidate_record W a (-1) r]> cs)
                                  (<[o := set_o_aip ai_next og]> os) n'
                                  (t ++ Sockaddr2hostname a :: q)))
         \/
         (from_socket W fd /\
          try_candidate W c o r (updated s cs os n t)
          = Return (Done tt (updated s
                               (<[c := set_c_connecting true (candidate_record W a fd r)]> cs)
                               (<[o := set_o_aip ai_next og]> os) n'
                               (t ++ Sockaddr2hostname a :: q)))))
  end.
Proof.
  intros Hc Ho. unfold try_candidate. cbn [outgoings updated]. rewrite Ho.
  destruct (o_aip og) as [|a ai_next].
  - rewrite with_outgoing_updated. by rewrite (alter_Some _ _ _ _ Ho).
  - rewrite with_connection_updated, with_outgoing_updated, emit_updated,
      with_connection_updated, ifdebug_updated, socket_updated.
    cbv zeta.
    rewrite (alter_Some _ _ _ _ Hc), alter_insert_same, (alter_Some _ _ _ _ Ho).
    set (fd := if sys_socket W n (sa_family a) <? 0 then -1 else sys_socket W n (sa_family a)).
    rewrite with_connection_updated, alter_insert_same.
    change (set_c_socket fd (set_c_hostname (Some (sockaddr2hostname W a))
              (set_c_address (Some a) r))) with (candidate_record W a fd r).
    set (dbg := if debug_connections s then [Logger (Trying_to_connect (c_name r) (sockaddr2hostname W a))] else []).
    assert (Qdbg : quiet dbg).
    { subst dbg. destruct (debug_connections s); [by apply quiet_one|apply quiet_nil]. }
    destruct (socket_result W n (sa_family a)) as [Hfd|Hfd]; fold fd in Hfd.
    + rewrite Hfd. cbn [Z.eqb Pos.eqb]. rewrite ifdebug_updated.
      exists (-1), (S n), (dbg ++ [Socket (sa_family a) (-1)]
                       ++ if debug_connections s
                          then [Logger (Creating_socket_failed (sockaddr2hostname W a))] else []).
      split.
      { apply quiet_app; [done|]. apply quiet_app; [by apply quiet_one|].
        destruct (debug_connections s); [by apply quiet_one|apply quiet_nil]. }
      left. split; [reflexivity|]. do 2 f_equal.
      rewrite <- !app_assoc. reflexivity.
    + destruct (Z.eqb_spec fd (-1)) as [E|_]; [lia|].
      set (s1 := updated s _ _ _ _).
      assert (E1 : exists t1, quiet t1 /\
                (if have_IPV6_V6ONLY W && (sa_family a =? AF_INET6)
                 then emit (Setsockopt fd IPV6_V6ONLY) s1 else s1)
                = updated s (<[c := candidate_record W a fd r]> cs)
                    (<[o := set_o_aip ai_next og]> os) (S n)
                    (t ++ Sockaddr2hostname a :: dbg ++ [Socket (sa_family a) fd] ++ t1)).
      { subst s1. destruct (_ && _).
        - exists [Setsockopt fd IPV6_V6ONLY]. split; [by apply quiet_one|].
          rewrite emit_updated. f_equal. rewrite <- !app_assoc. reflexivity.
        - exists []. split; [apply quiet_nil|]. f_equal.
          rewrite <- !app_assoc. rewrite app_nil_r. reflexivity. }
      destruct E1 as (t1 & Q1 & ->).
      match goal with |- context [bind_to_interface W fd (updated ?s0 ?cs0 ?os0 ?n0 ?t0)] =>
        destruct (bind_to_interface_updated W fd s0 cs0 os0 n0 t0) as (b & n2 & t2 & -> & Q2)
      end.
      match goal with |- context [bind_to_address W c (updated ?s0 ?cs0 ?os0 ?n0 ?t0)] =>
        destruct (bind_to_address_updated W c (candidate_record W a fd r) s0 cs0 os0 n0 t0)
          as (b' & n3 & t3 & -> & Q3); [apply lookup_insert_eq|exact Hfd|]
      end.
      match goal with |- context [configure_tcp W c (updated ?s0 ?cs0 ?os0 ?n0 ?t0)] =>
        destruct (configure_tcp_updated W c (candidate_record W a fd r) s0 cs0 os0 n0 t0)
          as (t4 & -> & Q4); [apply lookup_insert_eq|]
      end.
      rewrite with_connection_updated, alter_insert_same.
      exists fd, n3, (dbg ++ [Socket (sa_family a) fd] ++ t1 ++ t2 ++ t3 ++ t4).
      split.
      { repeat (apply quiet_app; [try done; by apply quiet_one|]). done. }
      right. split.
      { split; [exact Hfd|]. exists n, (sa_family a). subst fd.
        destruct (Z.ltb_spec (sys_socket W n (sa_family a)) 0); [lia|reflexivity]. }
      do 3 f_equal.
      repeat first [rewrite <- app_assoc | rewrite <- app_comm_cons]. reflexivity.
Qed.

End Pass.

Section Begin_pass.

Variable W : world.

Lemma io_cons_quiet e q :
  io_event e = true -> quiet q -> Forall (fun e => io_event e = true) (e :: q).
Proof. intros He Hq. constructor; [done|by apply quiet_io]. Qed.

Lemma passes_config r r' og :
  c_config_tree r' = c_config_tree r -> passes W r' og = passes W r og.
Proof. intros H. unfold passes, resolve. by rewrite H. Qed.

Lemma all_candidates_config r r' og :
  c_config_tree r' = c_config_tree r -> all_candidates W r' og = all_candidates W r og.
Proof. intros H. unfold all_candidates, resolve. by rewrite H. Qed.

Lemma goes_on_same c o r og s cs os n t og' t' :
  cs !! c = Some r -> consumed W r og og' t' ->
  (passes W r og' < passes W r og)%nat ->
  pass_outcome W c o r og s cs os n t
    (Goto_begin (updated s cs (<[o := og']> os) n (t ++ t'))).
Proof.
  intros Hc Hcons Hlt.
  rewrite <- (insert_id cs c r Hc) at 2.
  by apply Goes_on; [apply kept_refl| |].
Qed.

(** A pass that starts with a list in hand. *)
Lemma pass_with_list c o r og s cs os n t :
  cs !! c = Some r -> os !! o = Some og -> o_ai og <> [] ->
  pass_outcome W c o r og s cs os n t (try_candidate W c o r (updated s cs os n t)).
Proof.
  intros Hc Ho Hai.
  pose proof (try_candidate_spec W c o r og s cs os n t Hc Ho) as H.
  destruct (o_aip og) as [|a ai_next] eqn:Eaip.
  - rewrite H. rewrite <- (app_nil_r t) at 2.
    apply goes_on_same; [done| |].
    + split; try done.
      * exists []. by split.
      * unfold all_candidates. cbn. rewrite Eaip. by destruct (o_ai og).
    + unfold passes. cbn. rewrite Eaip. destruct (o_ai og); [done|]. cbn. lia.
  - destruct H as (fd & n' & q & Q & [[-> ->]|[Hfd ->]]).
    + apply Goes_on.
      * apply kept_candidate.
      * split; try done.
        -- by apply io_cons_quiet.
        -- exists []. split; [done|]. cbn. by apply quiet_resolver_calls.
        -- unfold all_candidates. cbn [o_ai o_aip o_cfg set_o_aip].
           change (tried (Sockaddr2hostname a :: q)) with ([a] ++ tried q).
           rewrite Eaip, (quiet_tried _ Q).
           by destruct (o_ai og).
      * rewrite (passes_config r) by reflexivity.
        unfold passes. cbn. rewrite Eaip. cbn. lia.
    + apply Connects.
      * exact Hfd.
      * split; try done.
        -- by apply io_cons_quiet.
        -- exists []. split; [done|]. cbn. by apply quiet_resolver_calls.
        -- unfold all_candidates. cbn [o_ai o_aip o_cfg set_o_aip].
           change (tried (Sockaddr2hostname a :: q)) with ([a] ++ tried q).
           rewrite Eaip, (quiet_tried _ Q).
           by destruct (o_ai og).
      * change (tried (Sockaddr2hostname a :: q)) with ([a] ++ tried q).
        by rewrite (quiet_tried _ Q).
Qed.

Lemma resolve_entry_updated c o r og e rest s cs os n t :
  os !! o = Some og -> o_cfg og = e :: rest ->
  resolve_entry W c o r og (updated s cs os n t)
  = updated s cs
      (<[o := set_o_cfg rest (set_o_aip (resolve W r e) (set_o_ai (resolve W r e) og))]> os) n
      (t ++ [Str2addrinfo (address_and_port (c_config_tree r) (value e)).1
                          (address_and_port (c_config_tree r) (value e)).2]).
Proof.
  intros Ho Ecfg. unfold resolve_entry, resolve. rewrite Ecfg. cbn [get_config_string].
  destruct (address_and_port _ _) as [address port]. cbn [fst snd].
  rewrite emit_updated, !with_outgoing_updated.
  rewrite (alter_Some _ _ _ _ Ho), !alter_insert_same.
  reflexivity.
Qed.

Lemma begin_pass_spec c o r og s cs os n t :
  cs !! c = Some r -> c_outgoing r = Some o -> os !! o = Some og ->
  pass_outcome W c o r og s cs os n t (begin_pass W c (updated s cs os n t)).
Proof.
  intros Hc Hout Ho. unfold begin_pass. cbn [connections outgoings updated].
  rewrite Hc, Hout, Ho.
  destruct (o_ai og) as [|a0 ai0] eqn:Eai.
  - destruct (o_cfg og) as [|e rest] eqn:Ecfg.
    + by apply Runs_out.
    + rewrite (resolve_entry_updated c o r og e rest) by done.
      set (R := resolve W r e).
      set (og1 := set_o_cfg rest (set_o_aip R (set_o_ai R og))).
      set (call := Str2addrinfo _ _).
      pose proof (try_candidate_spec W c o r og1 s cs (<[o := og1]> os) n (t ++ [call])
                    Hc (lookup_insert_eq _ _ _)) as H.
      assert (Ecall : resolver_calls [call]
                      = [address_and_port (c_config_tree r) (value e)]).
      { subst call. cbn. by destruct (address_and_port _ _). }
      change (o_aip og1) with R in H.
      destruct R as [|a ai_next] eqn:ER.
      * rewrite H, insert_insert_eq.
        apply goes_on_same; [done| |].
        -- split; try done.
           ++ by repeat constructor.
           ++ exists [e]. by split.
           ++ unfold all_candidates. rewrite Eai, Ecfg. cbn. fold R. by rewrite ER.
        -- unfold passes. rewrite Eai, Ecfg. cbn. lia.
      * destruct H as (fd & n' & q & Q & [[-> H]|[Hfd H]]);
          rewrite H, insert_insert_eq, <- app_assoc.
        -- apply Goes_on.
           ++ apply kept_candidate.
           ++ split; try done.
              ** constructor; [done|]. by apply io_cons_quiet.
              ** exists [e]. split; [done|].
                 change (resolver_calls ([call] ++ Sockaddr2hostname a :: q)
                         = [address_and_port (c_config_tree r) (value e)]).
                 rewrite resolver_calls_app, Ecall.
                 change (resolver_calls (Sockaddr2hostname a :: q)) with (resolver_calls q).
                 by rewrite (quiet_resolver_calls _ Q).
              ** unfold all_candidates. rewrite Eai, Ecfg.
                 cbn [o_ai o_aip o_cfg og1 set_o_cfg set_o_aip set_o_ai flat_map app].
                 fold R. rewrite ER.
                 change (tried (call :: Sockaddr2hostname a :: q)) with ([a] ++ tried q).
                 rewrite (quiet_tried _ Q). reflexivity.
           ++ rewrite (passes_config r) by reflexivity.
              unfold passes. rewrite Eai, Ecfg. cbn. fold R. rewrite ER.
              cbn. lia.
        -- apply Connects.
           ++ exact Hfd.
           ++ split; try done.
              ** constructor; [done|]. by apply io_cons_quiet.
              ** exists [e]. split; [done|].
                 change (resolver_calls ([call] ++ Sockaddr2hostname a :: q)
                         = [address_and_port (c_config_tree r) (value e)]).
                 rewrite resolver_calls_app, Ecall.
                 change (resolver_calls (Sockaddr2hostname a :: q)) with (resolver_calls q).
                 by rewrite (quiet_resolver_calls _ Q).
              ** unfold all_candidates. rewrite Eai, Ecfg.
                 cbn [o_ai o_aip o_cfg og1 set_o_cfg set_o_aip set_o_ai flat_map app].
                 fold R. rewrite ER.
                 change (tried (call :: Sockaddr2hostname a :: q)) with ([a] ++ tried q).
                 rewrite (quiet_tried _ Q). reflexivity.
           ++ change (tried ([call] ++ Sockaddr2hostname a :: q)) with ([a] ++ tried q).
              by rewrite (quiet_tried _ Q).
  - apply pass_with_list; [done|done|]. by rewrite Eai.
Qed.

End Begin_pass.

(** ** The whole loop *)

Section Loop.

Variable W : world.

Lemma consumed_refl r og : consumed W r og og [].
Proof.
  split; try done.
  - exists []. by split.
Qed.

Lemma consumed_config r r' og og' t :
  c_config_tree r' = c_config_tree r ->
  consumed W r' og og' t -> consumed W r og og' t.
Proof.
  intros E [Hio Hn Ht Hev (used & Hu & Hr) Hc].
  split; try done.
  - exists used. by rewrite <- E.
  - by rewrite <- !(all_candidates_config W r r' _ E).
Qed.

Lemma consumed_trans r og og1 og2 t1 t2 :
  consumed W r og og1 t1 -> consumed W r og1 og2 t2 ->
  consumed W r og og2 (t1 ++ t2).
Proof.
  intros [Hio1 Hn1 Ht1 Hev1 (u1 & Hu1 & Hr1) Hc1] [Hio2 Hn2 Ht2 Hev2 (u2 & Hu2 & Hr2) Hc2].
  split; try congruence.
  - by apply Forall_app_2.
  - exists (u1 ++ u2). split.
    + by rewrite Hu1, Hu2, app_assoc.
    + by rewrite resolver_calls_app, Hr1, Hr2, map_app.
  - by rewrite Hc1, Hc2, tried_app, app_assoc.
Qed.

Lemma last_app_Some {A} (l1 l2 : list A) x : last l2 = Some x -> last (l1 ++ l2) = Some x.
Proof.
  intros H. destruct l2 as [|y l2 _] using rev_ind; [done|].
  rewrite app_assoc, last_snoc. by rewrite last_snoc in H.
Qed.

Lemma begin_spec c o s fuel :
  forall r og cs os n t,
    cs !! c = Some r -> c_outgoing r = Some o -> os !! o = Some og ->
    (passes W r og <= fuel)%nat ->
    loop_outcome W c o r og s cs os t (begin W fuel c (updated s cs os n t)).
Proof.
  induction fuel as [|fuel IH]; intros r og cs os n t Hc Hout Ho Hfuel.
  - unfold passes in Hfuel. lia.
  - cbn [begin].
    pose proof (begin_pass_spec W c o r og s cs os n t Hc Hout Ho) as P.
    remember (begin_pass W c (updated s cs os n t)) as p eqn:Ep. clear Ep.
    destruct P as [Eai Ecfg|r1 og1 n1 t1 K1 C1 Hlt|a fd og1 n1 t1 Hfd C1 L1].
    + assert (E : updated s cs os n t
                  = updated s (<[c := r]> cs) (<[o := og]> os) n (t ++ []))
        by (by rewrite !insert_id, app_nil_r).
      rewrite E.
      apply Loop_runs_out; [apply kept_refl|apply consumed_refl|done|done].
    + assert (Hcfg : c_config_tree r1 = c_config_tree r) by apply K1.
      assert (Hout1 : c_outgoing r1 = Some o).
      { destruct K1 as (_ & _ & _ & _ & _ & _ & _ & _ & E & _). by rewrite E. }
      pose proof (IH r1 og1 (<[c := r1]> cs) (<[o := og1]> os) n1 (t ++ t1)
                    (lookup_insert_eq _ _ _) Hout1 (lookup_insert_eq _ _ _)
                    ltac:(lia)) as L.
      remember (begin W fuel c _) as res eqn:Eres. clear Eres.
      destruct L as [r2 og2 n2 t2 K2 C2 Eai Ecfg|r2 a fd og2 n2 t2 K2 Hfd C2 L2];
        rewrite !insert_insert_eq, <- app_assoc.
      * apply Loop_runs_out; [by eapply kept_trans| |done|done].
        eapply consumed_trans; [exact C1|]. by eapply consumed_config.
      * apply Loop_connects; [by eapply kept_trans|done| |].
        -- eapply consumed_trans; [exact C1|]. by eapply consumed_config.
        -- rewrite tried_app. by apply last_app_Some.
    + by apply Loop_connects; [apply kept_refl| | |].
Qed.

End Loop.

(** ** Giving up *)

Ltac fields :=
  cbn [config_tree maxtimeout debug_connections connections connection_tree
       outgoings outgoing_list node_tree event_tree mutex now tick trace
       updated ran_out set_trace set_tick set_mutex set_event_tree set_outgoing_list
       set_outgoings set_connection_tree set_connections].

Ltac fields_in H :=
  cbn [config_tree maxtimeout debug_connections connections connection_tree
       outgoings outgoing_list node_tree event_tree mutex now tick trace
       updated ran_out set_trace set_tick set_mutex set_event_tree set_outgoing_list
       set_outgoings set_connection_tree set_connections] in H.

Lemma event_add_updated o og s cs os n t :
  os !! o = Some og ->
  event_add o (updated s cs os n t)
  = set_event_tree ({[o]} ∪ event_tree s)
      (updated s cs os n (t ++ [Event_add o (ev_time (o_ev og))])).
Proof.
  intros Ho. unfold event_add. fields. rewrite Ho.
  unfold emit. fields. by rewrite <- app_assoc.
Qed.

Lemma ifdebug_set_event_tree m e s :
  ifdebug_CONNECTIONS m (set_event_tree e s) = set_event_tree e (ifdebug_CONNECTIONS m s).
Proof. unfold ifdebug_CONNECTIONS. fields. by destruct (debug_connections s). Qed.

Lemma retry_outgoing_updated o og s cs os n t :
  os !! o = Some og ->
  retry_outgoing o (updated s cs os n t)
  = set_event_tree ({[o]} ∪ event_tree s)
      (updated s cs (<[o := retried (maxtimeout s) (now s) og]> os) n
         (t ++ [Event_add o (now s + o_timeout (retried (maxtimeout s) (now s) og))]
            ++ if debug_connections s
               then [Logger (Trying_to_reestablish
                               (o_timeout (retried (maxtimeout s) (now s) og)))]
               else [])).
Proof.
  intros Ho. unfold retry_outgoing.
  rewrite !with_outgoing_updated. fields.
  rewrite (alter_Some _ _ _ _ Ho), !alter_insert_same.
  set (og' := set_o_ev _ _).
  assert (E : og' = retried (maxtimeout s) (now s) og).
  { subst og'. unfold retried.
    cbn [set_o_ev set_o_timeout o_timeout o_name o_cfg o_ai o_aip o_ev].
    destruct (maxtimeout s <? wrap_int (o_timeout og + 5)); reflexivity. }
  rewrite E. clear E og'.
  rewrite (event_add_updated o (retried (maxtimeout s) (now s) og))
    by apply lookup_insert_eq.
  fields. rewrite lookup_insert_eq.
  rewrite ifdebug_set_event_tree, ifdebug_updated, <- app_assoc.
  reflexivity.
Qed.

Lemma out_of_addresses_updated c o r og s cs os n t :
  cs !! c = Some r -> os !! o = Some og ->
  out_of_addresses c o r (updated s cs os n t) = ran_out c o r og s cs os n t.
Proof.
  intros Hc Ho. unfold out_of_addresses.
  rewrite ifdebug_updated, (retry_outgoing_updated o og) by done.
  unfold with_connection, connection_del, emit, ran_out, out_of_addresses_trace.
  fields.
  rewrite (alter_Some _ _ _ _ Hc), lookup_insert_eq.
  f_equal. by rewrite <- !app_assoc.
Qed.

(** ** do_outgoing_connection *)

Section Do_outgoing.

Variable W : world.

Lemma do_outgoing_connection_spec c o r og s :
  connections s !! c = Some r -> c_outgoing r = Some o -> outgoings s !! o = Some og ->
  loop_outcome W c o r og s (connections s) (outgoings s) []
    (do_outgoing_connection W c s).
Proof.
  intros Hc Hout Ho. unfold do_outgoing_connection. rewrite Hc, Hout, Ho.
  pose proof (begin_spec W c o s (passes W r og) r og (connections s) (outgoings s)
                (tick s) [] Hc Hout Ho (le_n _)) as L.
  by rewrite <- updated_id in L.
Qed.

End Do_outgoing.


(** ** The two ways the loop returns *)

Section Cases.

Variable W : world.

Lemma do_outgoing_connection_cases c o r og s :
  connections s !! c = Some r -> c_outgoing r = Some o -> outgoings s !! o = Some og ->
  exists r1 og1 n t,
    kept r r1 /\ consumed W r og og1 t /\
    ((o_ai og1 = [] /\ o_cfg og1 = [] /\
      do_outgoing_connection W c s
      = Done tt (ran_out c o r1 og1 s (<[c := r1]> (connections s))
                   (<[o := og1]> (outgoings s)) n t))
     \/
     (exists a fd,
        from_socket W fd /\ last (tried t) = Some a /\
        do_outgoing_connection W c s
        = Done tt (updated s
                     (<[c := set_c_connecting true (candidate_record W a fd r1)]>
                        (connections s))
                     (<[o := og1]> (outgoings s)) n t))).
Proof.
  intros Hc Hout Ho.
  pose proof (do_outgoing_connection_spec W c o r og s Hc Hout Ho) as L.
  remember (do_outgoing_connection W c s) as res eqn:E. clear E.
  destruct L as [r1 og1 n t K C Eai Ecfg|r1 a fd og1 n t K Hfd C L].
  - exists r1, og1, n, t. split; [done|]. split; [done|]. left.
    split; [done|]. split; [done|].
    rewrite app_nil_l.
    by rewrite (out_of_addresses_updated c o r1 og1) by apply lookup_insert_eq.
  - exists r1, og1, n, t. split; [done|]. split; [done|]. right.
    exists a, fd. by rewrite app_nil_l.
Qed.

Lemma armed_in (o : nat) (E : gset nat) : o ∈ {[o]} ∪ E.
Proof. apply elem_of_union_l. by apply elem_of_singleton. Qed.

Lemma removed_out (c : nat) (T : gset nat) : c ∉ T ∖ {[c]}.
Proof. rewrite elem_of_difference, elem_of_singleton. by intros [_ H]. Qed.

Lemma kept_outgoing r r' : kept r r' -> c_outgoing r' = c_outgoing r.
Proof. intros K. apply K. Qed.

Lemma kept_connecting r r' : kept r r' -> c_connecting r' = c_connecting r.
Proof. intros K. apply K. Qed.

Lemma kept_config r r' : kept r r' -> c_config_tree r' = c_config_tree r.
Proof. intros K. apply K. Qed.

Lemma kept_name r r' : kept r r' -> c_name r' = c_name r.
Proof. intros K. apply K. Qed.


(** C4 (amended).  When the address source has no further candidate to
    offer, [do_outgoing_connection] arms the retry timer of the attempt and
    also deregisters the record, whatever the configuration says about the
    peer: there is no outcome without an armed retry. *)
Theorem no_candidate_arms_retry (c o : nat) (r : connection_t) (og : outgoing_t) (s : state) :
  connections s !! c = Some r -> c_outgoing r = Some o -> outgoings s !! o = Some og ->
  all_candidates W r og = [] ->
  exists s' og' r',
    do_outgoing_connection W c s = Done tt s' /\
    outgoings s' !! o = Some og' /\
    o_timeout og' = o_timeout (retried (maxtimeout s) (now s) og) /\
    o_ev og' = {| ev_handler := Some retry_outgoing_handler;
                  ev_time := now s + o_timeout og' |} /\
    (o ∈ event_tree s') /\
    (c ∉ connection_tree s') /\
    connections s' !! c = Some r' /\ c_outgoing r' = None.
Proof.
  intros Hc Hout Ho Hnone.
  destruct (do_outgoing_connection_cases c o r og s Hc Hout Ho)
    as (r1 & og1 & n & t & K & C & [(Eai & Ecfg & E)|(a & fd & Hfd & L & E)]).
  - exists (ran_out c o r1 og1 s (<[c := r1]> (connections s))
              (<[o := og1]> (outgoings s)) n t),
      (retried (maxtimeout s) (now s) og1), (set_c_outgoing None r1).
    split; [exact E|]. fields.
    split; [apply lookup_insert_eq|].
    split; [unfold retried; cbn; by rewrite (cs_timeout _ _ _ _ _ C)|].
    split; [reflexivity|]. split; [apply armed_in|]. split; [apply removed_out|].
    split; [by rewrite insert_insert_eq, lookup_insert_eq|done].
  - pose proof (cs_candidates _ _ _ _ _ C) as Hcand. rewrite Hnone in Hcand.
    symmetry in Hcand. apply app_eq_nil in Hcand as [Ht _].
    rewrite Ht in L. discriminate.
Qed.

(** C6.  One call of [do_outgoing_connection] advances the address source
    of the attempt: the candidates it tries are, in order, what is left of
    the list of the current entry and then the addresses of the following
    [Address] entries, each resolved when the cursor reaches it; the source
    is left right behind the last candidate tried.  It ends without a
    candidate only when every entry is used up, the list is released and
    the cursor is at the end; from there a further call tries nothing. *)
Theorem address_source_advance (c o : nat) (r : connection_t) (og : outgoing_t) (s : state) :
  connections s !! c = Some r -> c_outgoing r = Some o -> outgoings s !! o = Some og ->
  exists s' og' t,
    do_outgoing_connection W c s = Done tt s' /\
    trace s' = trace s ++ t /\
    outgoings s' !! o = Some og' /\
    all_candidates W r og = tried t ++ all_candidates W r og' /\
    (exists used, o_cfg og = used ++ o_cfg og' /\ resolver_calls t = requests r used) /\
    ((exists a r', last (tried t) = Some a /\ connections s' !! c = Some r' /\
                   c_address r' = Some a /\ c_connecting r' = true)
     \/ (tried t = all_candidates W r og /\ o_ai og' = [] /\ o_cfg og' = []
         /\ (c ∉ connection_tree s') /\ (o ∈ event_tree s'))) /\
    (o_ai og = [] -> o_cfg og = [] ->
     tried t = [] /\ o_ai og' = [] /\ o_cfg og' = []).
Proof.
  intros Hc Hout Ho.
  destruct (do_outgoing_connection_cases c o r og s Hc Hout Ho)
    as (r1 & og1 & n & t & K & C & [(Eai & Ecfg & E)|(a & fd & Hfd & L & E)]).
  - assert (Hall : all_candidates W r og1 = []).
    { unfold all_candidates. by rewrite Eai, Ecfg. }
    pose proof (cs_candidates _ _ _ _ _ C) as Hcand.
    rewrite Hall, app_nil_r in Hcand.
    exists (ran_out c o r1 og1 s (<[c := r1]> (connections s))
              (<[o := og1]> (outgoings s)) n t),
      (retried (maxtimeout s) (now s) og1),
      (t ++ out_of_addresses_trace c o r1 og1 s).
    split; [exact E|]. fields. split; [reflexivity|].
    split; [apply lookup_insert_eq|].
    assert (Ht : tried (t ++ out_of_addresses_trace c o r1 og1 s) = tried t).
    { rewrite tried_app. unfold out_of_addresses_trace.
      destruct (debug_connections s); cbn; by rewrite app_nil_r. }
    rewrite Ht.
    split.
    { rewrite Hcand. unfold all_candidates. cbn [retried o_ai o_aip o_cfg].
      rewrite Eai, Ecfg. cbn. by rewrite app_nil_r. }
    split.
    { destruct (cs_cfg _ _ _ _ _ C) as (used & Hu & Hr). exists used.
      split; [exact Hu|]. rewrite resolver_calls_app, Hr. unfold out_of_addresses_trace.
      destruct (debug_connections s); cbn; by rewrite app_nil_r. }
    split.
    { right. split; [done|]. split; [done|]. split; [done|].
      split; [apply removed_out|apply armed_in]. }
    intros Eai0 Ecfg0. split; [|done].
    rewrite <- Hcand. unfold all_candidates. by rewrite Eai0, Ecfg0.
  - exists (updated s (<[c := set_c_connecting true (candidate_record W a fd r1)]>
                        (connections s)) (<[o := og1]> (outgoings s)) n t), og1, t.
    split; [exact E|]. fields. split; [reflexivity|].
    split; [apply lookup_insert_eq|].
    split; [apply (cs_candidates _ _ _ _ _ C)|].
    split; [apply (cs_cfg _ _ _ _ _ C)|].
    split.
    { left. exists a, (set_c_connecting true (candidate_record W a fd r1)).
      split; [done|]. split; [apply lookup_insert_eq|]. by split. }
    intros Eai0 Ecfg0.
    pose proof (cs_candidates _ _ _ _ _ C) as Hcand.
    unfold all_candidates at 1 in Hcand. rewrite Eai0, Ecfg0 in Hcand.
    symmetry in Hcand. apply app_eq_nil in Hcand as [Ht _].
    rewrite Ht in L. discriminate.
Qed.

End Cases.

(** ** Host and port of an Address entry *)

Lemma split_at_space_append host port :
  split_at_space host = None ->
  split_at_space (String.append host (String " " port)) = Some (host, port).
Proof.
  induction host as [|a host IH]; intros H.
  - reflexivity.
  - change (String a host +:+ String " " port)
      with (String a (host +:+ String " " port)).
    cbn [split_at_space] in *.
    destruct (Ascii.eqb a " "); [discriminate|].
    destruct (split_at_space host) as [[h p]|]; [discriminate|].
    by rewrite IH.
Qed.

Section Address_port.

Variable W : world.

Lemma out_of_addresses_trace_unresolved c o r og s :
  resolver_calls (out_of_addresses_trace c o r og s) = []
  /\ tried (out_of_addresses_trace c o r og s) = [].
Proof. unfold out_of_addresses_trace. by destruct (debug_connections s). Qed.

(** What a call of [do_outgoing_connection] asks of the resolver: the
    entries [used], from the cursor onwards. *)
Lemma do_outgoing_connection_requests c o r og s :
  connections s !! c = Some r -> c_outgoing r = Some o -> outgoings s !! o = Some og ->
  exists s' og' used t,
    do_outgoing_connection W c s = Done tt s'
    /\ trace s' = trace s ++ t
    /\ outgoings s' !! o = Some og'
    /\ o_cfg og = used ++ o_cfg og'
    /\ resolver_calls t = requests r used
    /\ tried t `prefix_of` all_candidates W r og
    /\ (o_ai og = [] -> o_cfg og <> [] -> used <> [])
    /\ ((forall k family, sys_socket W k family < 0) ->
        used = o_cfg og /\ tried t = all_candidates W r og).
Proof.
  intros Hc Hout Ho.
  destruct (do_outgoing_connection_cases W c o r og s Hc Hout Ho)
    as (r1 & og1 & n & t & K & C & [(Eai & Ecfg & E)|(a & fd & Hfd & L & E)]);
    destruct C as [_ _ _ _ (used & Hu & Hr) Ecand].
  - destruct (out_of_addresses_trace_unresolved c o r1 og1 s) as [E1 E2].
    assert (E0 : all_candidates W r og1 = []).
    { unfold all_candidates. by rewrite Eai, Ecfg. }
    rewrite E0, app_nil_r in Ecand. rewrite Ecfg, app_nil_r in Hu.
    eexists _, (retried (maxtimeout s) (now s) og1), used,
      (t ++ out_of_addresses_trace c o r1 og1 s).
    split; [exact E|]. fields.
    split; [done|]. split; [apply lookup_insert_eq|].
    split; [unfold retried; cbn [o_cfg]; by rewrite Ecfg, app_nil_r|].
    rewrite resolver_calls_app, tried_app, E1, E2, !app_nil_r, <- Ecand.
    split; [done|]. split; [done|]. split; [intros _ Hne; by rewrite <- Hu|done].
  - eexists _, og1, used, t.
    split; [exact E|]. fields.
    split; [done|]. split; [apply lookup_insert_eq|]. split; [done|].
    split; [done|]. split; [rewrite Ecand; by apply prefix_app_r|].
    split.
    + intros Eai Hne ->. cbn [app] in Hu.
      assert (Hlen : length (all_candidates W r og)
                     = length (tried t ++ all_candidates W r og1)) by (by rewrite Ecand).
      unfold all_candidates in Hlen. rewrite Eai, <- Hu in Hlen.
      rewrite !length_app in Hlen. cbn [length] in Hlen.
      destruct (tried t); [discriminate|]. cbn [length] in Hlen. lia.
    + intros Hsock. destruct Hfd as [Hfd (k & family & <-)].
      specialize (Hsock k family). lia.
Qed.

(** C2.  An [Address] value ["host port"] is resolved with its own port;
    a value without a port is resolved with the [Port] of the host
    configuration of the peer, or with ["655"] when there is none.  A call
    of [do_outgoing_connection] hands the resolver the entries from the
    cursor onwards, in configuration order and each with the host and port
    above: at least the entry under the cursor when no list of addresses is
    in hand, and every entry left when no socket can be created, in which
    case the addresses tried are those the resolver returned, in that
    order.  With the entries ["10.0.0.1 1000"] and ["10.0.0.2"] and no
    configured [Port], the first request is for port 1000 on the first
    host, the next, if any, for port 655 on the second, and when no socket
    can be created both are made and their addresses tried in that
    order. *)
Theorem address_entry_port (c o : nat) (r : connection_t) (og : outgoing_t) (s : state)
    (host port : string) :
  connections s !! c = Some r -> c_outgoing r = Some o -> outgoings s !! o = Some og ->
  split_at_space host = None ->
  address_and_port (c_config_tree r) (String.append host (String " " port)) = (host, port)
  /\ (forall p, get_config_string (lookup_config (c_config_tree r) "Port") = Some p ->
                address_and_port (c_config_tree r) host = (host, p))
  /\ (lookup_config (c_config_tree r) "Port" = [] ->
      address_and_port (c_config_tree r) host = (host, "655"%string))
  /\ (exists s' og' used t,
        do_outgoing_connection W c s = Done tt s'
        /\ trace s' = trace s ++ t
        /\ outgoings s' !! o = Some og'
        /\ o_cfg og = used ++ o_cfg og'
        /\ resolver_calls t
           = map (fun e => address_and_port (c_config_tree r) (value e)) used
        /\ (o_ai og = [] -> o_cfg og <> [] -> used <> [])
        /\ ((forall k family, sys_socket W k family < 0) ->
            used = o_cfg og
            /\ tried t
               = match o_ai og with [] => [] | _ :: _ => o_aip og end
                 ++ flat_map (fun hp => str2addrinfo W hp.1 hp.2) (resolver_calls t))
        /\ (o_ai og = [] ->
            o_cfg og = [address_entry "10.0.0.1 1000"; address_entry "10.0.0.2"] ->
            lookup_config (c_config_tree r) "Port" = [] ->
            (resolver_calls t = [("10.0.0.1", "1000")]%string
             \/ resolver_calls t = [("10.0.0.1", "1000"); ("10.0.0.2", "655")]%string)
            /\ ((forall k family, sys_socket W k family < 0) ->
                resolver_calls t = [("10.0.0.1", "1000"); ("10.0.0.2", "655")]%string
                /\ tried t = str2addrinfo W "10.0.0.1" "1000"
                             ++ str2addrinfo W "10.0.0.2" "655"))).
Proof.
  intros Hc Hout Ho Hhost.
  split; [|split; [|split]].
  - unfold address_and_port. by rewrite (split_at_space_append _ _ Hhost).
  - intros p Hp. unfold address_and_port. by rewrite Hhost, Hp.
  - intros Hp. unfold address_and_port. by rewrite Hhost, Hp.
  - destruct (do_outgoing_connection_requests c o r og s Hc Hout Ho)
      as (s' & og' & used & t & E & Ht & Ho' & Hu & Hr & _ & Hne & Hall).
    assert (Hflat : forall cfg,
              flat_map (resolve W r) cfg
              = flat_map (fun hp => str2addrinfo W hp.1 hp.2) (requests r cfg)).
    { intros cfg. induction cfg as [|e cfg IH]; [reflexivity|].
      cbn [flat_map requests map]. unfold requests in IH. rewrite IH. f_equal.
      unfold resolve. by destruct (address_and_port _ _). }
    assert (Hall' : (forall k family, sys_socket W k family < 0) ->
                    used = o_cfg og
                    /\ tried t
                       = match o_ai og with [] => [] | _ :: _ => o_aip og end
                         ++ flat_map (fun hp => str2addrinfo W hp.1 hp.2)
                              (resolver_calls t)).
    { intros Hsock. destruct (Hall Hsock) as [-> Et]. split; [done|].
      rewrite Et, Hr. unfold all_candidates. by rewrite Hflat. }
    exists s', og', used, t. split_and!; try done.
    intros Eai Ecfg Hp.
    assert (Ereq : requests r [address_entry "10.0.0.1 1000"; address_entry "10.0.0.2"]
                   = [("10.0.0.1", "1000"); ("10.0.0.2", "655")]%string).
    { unfold requests, address_and_port. cbn. by rewrite Hp. }
    split.
    + rewrite Hr. rewrite Ecfg in Hu, Hne. specialize (Hne Eai ltac:(done)).
      destruct used as [|e1 [|e2 used]]; [done| |]; cbn [app] in Hu.
      * left. injection Hu as <- _.
        unfold address_and_port. cbn. reflexivity.
      * right. injection Hu as <- <- Hu.
        destruct used as [|e3 used]; [|discriminate].
        exact Ereq.
    + intros Hsock. destruct (Hall' Hsock) as [-> Et].
      rewrite Et, Hr, Ecfg, Eai. fold (requests r [address_entry "10.0.0.1 1000";
                                                  address_entry "10.0.0.2"]).
      rewrite Ereq. split; [done|]. cbn. by rewrite app_nil_r.
Qed.

End Address_port.

(** ** setup_outgoing_connection *)

Ltac fields' :=
  unfold with_connection, with_outgoing, logger, emit, ticked, updated, ran_out,
    prepared, set_trace, set_tick, set_mutex, set_event_tree, set_outgoing_list,
    set_outgoings, set_connection_tree, set_connections;
  cbn [config_tree maxtimeout debug_connections connections connection_tree
       outgoings outgoing_list node_tree event_tree mutex now tick trace fst snd].

Section Setup.

Variable W : world.

(** The peer already has a live record. *)
Lemma setup_already_connected o og c' s :
  outgoings s !! o = Some og -> live_connection s (o_name og) = Some c' ->
  setup_outgoing_connection W o s
  = Done tt {| config_tree := config_tree s; maxtimeout := maxtimeout s;
               debug_connections := debug_connections s;
               connections := alter (set_c_outgoing (Some o)) c' (connections s);
               connection_tree := connection_tree s;
               outgoings := outgoings s; outgoing_list := outgoing_list s;
               node_tree := node_tree s; event_tree := event_tree s ∖ {[o]};
               mutex := mutex s; now := now s; tick := tick s;
               trace := trace s ++ [Event_del o; Lookup_node (o_name og) (mutex s)]
                        ++ if debug_connections s
                           then [Logger (Already_connected (o_name og))] else [] |}.
Proof.
  intros Ho Hlive. unfold setup_outgoing_connection, live_connection in *.
  unfold event_del, lookup_node. fields'. rewrite Ho. fields'. rewrite Hlive.
  unfold ifdebug_CONNECTIONS. fields'.
  destruct (debug_connections s); fields'; do 2 f_equal.
  - by rewrite <- !app_assoc.
  - by rewrite <- !app_assoc.
Qed.

(** The host configuration of the peer has no [Address]. *)
Lemma setup_no_address o og s :
  outgoings s !! o = Some og -> live_connection s (o_name og) = None ->
  lookup_config (read_connection_config W (o_name og)) "Address" = [] ->
  setup_outgoing_connection W o s
  = Done tt {| config_tree := config_tree s; maxtimeout := maxtimeout s;
               debug_connections := debug_connections s;
               connections := delete (fresh (connections s))
                                (<[fresh (connections s)
                                   := outgoing_record W (o_name og) zero_connection]>
                                   (connections s));
               connection_tree := connection_tree s;
               outgoings := <[o := set_o_cfg [] og]> (outgoings s);
               outgoing_list := outgoing_list s;
               node_tree := node_tree s; event_tree := event_tree s ∖ {[o]};
               mutex := mutex s; now := now s; tick := tick s;
               trace := trace s ++ [Event_del o; Lookup_node (o_name og) (mutex s);
                                    Logger (No_address_specified (o_name og));
                                    Free_connection (fresh (connections s))] |}.
Proof.
  intros Ho Hlive Hcfg. unfold setup_outgoing_connection, live_connection in *.
  unfold event_del, lookup_node. fields'. rewrite Ho. fields'. rewrite Hlive.
  unfold new_connection. fields'. rewrite Hcfg.
  unfold free_connection. fields'.
  rewrite alter_insert_same, (alter_Some _ _ _ _ Ho).
  do 2 f_equal. by rewrite <- !app_assoc.
Qed.

(** Otherwise a record is registered and handed to
    [do_outgoing_connection]. *)
Lemma setup_prepared o og s :
  outgoings s !! o = Some og -> live_connection s (o_name og) = None ->
  lookup_config (read_connection_config W (o_name og)) "Address" <> [] ->
  setup_outgoing_connection W o s
  = match do_outgoing_connection W (fresh (connections s)) (prepared W o og s) with
    | Done _ s1 => thread_create_or_abort W (fresh (connections s)) s1
    | Abort s1 => Abort s1
    | Undefined => Undefined
    end.
Proof.
  intros Ho Hlive Hcfg. unfold setup_outgoing_connection, live_connection in *.
  unfold event_del, lookup_node. fields'. rewrite Ho. fields'. rewrite Hlive.
  unfold new_connection. fields'.
  destruct (lookup_config _ "Address") as [|e rest] eqn:Ecfg; [done|].
  unfold connection_add. fields'.
  rewrite !alter_insert_same, (alter_Some _ _ _ _ Ho).
  rewrite <- !app_assoc. reflexivity.
Qed.

End Setup.

(** ** What the outgoing path keeps *)

Lemma registry_locks_app t t' :
  registry_locks (t ++ t') = registry_locks t ++ registry_locks t'.
Proof. apply flat_map_app. Qed.

Lemma lock_events_app t t' : lock_events (t ++ t') = lock_events t ++ lock_events t'.
Proof. apply flat_map_app. Qed.

Lemma logged_app t t' : logged (t ++ t') = logged t ++ logged t'.
Proof. apply flat_map_app. Qed.

Lemma io_no_registry t :
  Forall (fun e => io_event e = true) t -> registry_locks t = [] /\ lock_events t = [].
Proof.
  induction 1 as [|e t He _ [IH1 IH2]]; [done|].
  change (e :: t) with ([e] ++ t).
  rewrite registry_locks_app, lock_events_app, IH1, IH2.
  by destruct e.
Qed.

Lemma steady_refl s : steady s s [].
Proof. unfold steady. rewrite app_nil_r. by repeat split. Qed.

Lemma steady_trans s s1 s2 t1 t2 :
  steady s s1 t1 -> steady s1 s2 t2 -> steady s s2 (t1 ++ t2).
Proof.
  intros (L1 & N1 & M1 & T1 & R1 & K1) (L2 & N2 & M2 & T2 & R2 & K2).
  unfold steady. split; [congruence|]. split; [intros o'; by rewrite N2, N1|].
  split; [congruence|]. split; [by rewrite T2, T1, app_assoc|].
  split.
  - rewrite registry_locks_app. apply Forall_app_2; [done|]. by rewrite <- M1.
  - by rewrite lock_events_app, K1, K2.
Qed.

Lemma out_of_addresses_trace_locks c o r og s :
  registry_locks (out_of_addresses_trace c o r og s) = [mutex s]
  /\ lock_events (out_of_addresses_trace c o r og s) = [].
Proof. unfold out_of_addresses_trace. by destruct (debug_connections s). Qed.

Lemma name_insert (os : gmap nat outgoing_t) o og og' o' :
  os !! o = Some og -> o_name og' = o_name og ->
  o_name <$> <[o := og']> os !! o' = o_name <$> os !! o'.
Proof.
  intros Ho En. destruct (decide (o = o')) as [<-|Hne].
  - rewrite lookup_insert_eq, Ho. cbn. by rewrite En.
  - by rewrite lookup_insert_ne.
Qed.

Section Frame.

Variable W : world.

Lemma do_outgoing_connection_steady c o r og s :
  connections s !! c = Some r -> c_outgoing r = Some o -> outgoings s !! o = Some og ->
  exists s1 t, do_outgoing_connection W c s = Done tt s1 /\ steady s s1 t.
Proof.
  intros Hc Hout Ho.
  destruct (do_outgoing_connection_cases W c o r og s Hc Hout Ho)
    as (r1 & og1 & n & t & K & C & [(Eai & Ecfg & E)|(a & fd & Hfd & L & E)]);
    destruct (io_no_registry t (cs_io _ _ _ _ _ C)) as [Hreg Hlock].
  - eexists _, (t ++ out_of_addresses_trace c o r1 og1 s). split; [exact E|].
    unfold steady. fields'.
    destruct (out_of_addresses_trace_locks c o r1 og1 s) as [G1 G2].
    split; [done|]. split.
    { intros o'. rewrite (name_insert _ o og1); [| apply lookup_insert_eq | done].
      apply (name_insert _ o og); [done|]. apply (cs_name _ _ _ _ _ C). }
    split; [done|]. split; [done|].
    rewrite registry_locks_app, lock_events_app, Hreg, Hlock, G1, G2.
    split; [by repeat constructor|done].
  - eexists _, t. split; [exact E|].
    unfold steady. fields'.
    split; [done|]. split.
    { intros o'. apply (name_insert _ o og); [done|]. apply (cs_name _ _ _ _ _ C). }
    split; [done|]. split; [done|]. rewrite Hreg, Hlock. by split.
Qed.

Lemma thread_create_or_abort_steady c s1 :
  exists s' t,
    (thread_create_or_abort W c s1 = Done tt s' \/ thread_create_or_abort W c s1 = Abort s')
    /\ steady s1 s' t.
Proof.
  unfold thread_create_or_abort. destruct (sys_thread_create W (tick s1)).
  - eexists _, _. split; [left; reflexivity|].
    unfold steady. fields'. by repeat split.
  - eexists _, [Thread_create c false; Logger Create_thread_failed].
    split; [right; reflexivity|].
    unfold steady. fields'. rewrite <- app_assoc. by repeat split.
Qed.

Lemma prepared_steady o og s :
  outgoings s !! o = Some og ->
  steady s (prepared W o og s)
    [Event_del o; Lookup_node (o_name og) (mutex s);
     Connection_add (fresh (connections s)) (mutex s)].
Proof.
  intros Ho. unfold steady. fields'.
  split; [done|]. split; [intros o'; by apply (name_insert _ o og)|].
  split; [done|]. split; [done|]. split; [by repeat constructor|done].
Qed.

(** Every call of [setup_outgoing_connection] on a live attempt returns or
    aborts, keeps the attempts and their names, never touches the lock and
    makes at least one registry operation. *)
Lemma setup_outgoing_connection_steady o og s :
  outgoings s !! o = Some og ->
  exists s' t,
    (setup_outgoing_connection W o s = Done tt s'
     \/ setup_outgoing_connection W o s = Abort s')
    /\ steady s s' t /\ registry_locks t <> [].
Proof.
  intros Ho.
  destruct (live_connection s (o_name og)) as [c'|] eqn:Hlive.
  - rewrite (setup_already_connected W o og c' s Ho Hlive).
    eexists _, ([Event_del o; Lookup_node (o_name og) (mutex s)]
                ++ if debug_connections s
                   then [Logger (Already_connected (o_name og))] else []).
    split; [left; reflexivity|].
    split; [|by destruct (debug_connections s)].
    unfold steady. fields'.
    split; [done|]. split; [done|]. split; [done|]. split; [done|].
    destruct (debug_connections s); by repeat constructor.
  - destruct (lookup_config (read_connection_config W (o_name og)) "Address")
      as [|e rest] eqn:Ecfg.
    + rewrite (setup_no_address W o og s Ho Hlive Ecfg).
      eexists _, [Event_del o; Lookup_node (o_name og) (mutex s);
                  Logger (No_address_specified (o_name og));
                  Free_connection (fresh (connections s))].
      split; [left; reflexivity|].
      split; [|done].
      unfold steady. fields'.
      split; [done|]. split; [intros o'; by apply (name_insert _ o og)|].
      split; [done|]. split; [done|]. by repeat constructor.
    + rewrite (setup_prepared W o og s Ho Hlive) by (by rewrite Ecfg).
      pose proof (prepared_steady o og s Ho) as S0.
      destruct (do_outgoing_connection_steady (fresh (connections s)) o
                  (new_outgoing_record W o og s)
                  (set_o_cfg (lookup_config (read_connection_config W (o_name og))
                                "Address") og)
                  (prepared W o og s)) as (s1 & t1 & -> & S1).
      { unfold prepared. fields'. apply lookup_insert_eq. }
      { reflexivity. }
      { unfold prepared. fields'. apply lookup_insert_eq. }
      destruct (thread_create_or_abort_steady (fresh (connections s)) s1)
        as (s' & t' & Hres & S2).
      exists s', (([Event_del o; Lookup_node (o_name og) (mutex s);
                    Connection_add (fresh (connections s)) (mutex s)] ++ t1) ++ t').
      split; [exact Hres|]. split.
      * eapply steady_trans; [|exact S2]. eapply steady_trans; [exact S0|exact S1].
      * rewrite !registry_locks_app. done.
Qed.

End Frame.

(** ** try_outgoing_connections *)

Lemma fresh_unused {A} (m : gmap nat A) : m !! fresh m = None.
Proof.
  destruct (m !! fresh m) as [x|] eqn:E; [|done].
  assert (H : fresh m ∈ elements (dom m)).
  { apply elem_of_elements, elem_of_dom. by exists x. }
  apply max_list_elem_of_le in H. unfold fresh in H. lia.
Qed.

Lemma pending_names_steady s s' t : steady s s' t -> pending_names s' = pending_names s.
Proof.
  intros (L & N & _). unfold pending_names. rewrite L. clear L.
  induction (outgoing_list s) as [|o l IH]; [done|].
  cbn [omap list_omap]. by rewrite N, IH.
Qed.

Lemma listed_live_steady s s' t : steady s s' t -> listed_live s -> listed_live s'.
Proof.
  intros (L & N & _). unfold listed_live. rewrite L.
  intros H. eapply Forall_impl; [exact H|]. intros o [og Ho].
  specialize (N o). rewrite Ho in N. cbn in N.
  destruct (outgoings s' !! o); [done|discriminate].
Qed.

Lemma listed_lookup name s :
  outgoings (listed name s) !! fresh (outgoings s) = Some (set_o_name name zero_outgoing).
Proof.
  unfold listed. fields'. by rewrite alter_insert_same, lookup_insert_eq.
Qed.

Lemma listed_lookup_old name s o :
  is_Some (outgoings s !! o) -> outgoings (listed name s) !! o = outgoings s !! o.
Proof.
  intros [og Ho].
  assert (Hne : fresh (outgoings s) <> o).
  { intros <-. by rewrite fresh_unused in Ho. }
  unfold listed. fields'. by rewrite alter_insert_same, lookup_insert_ne.
Qed.

Lemma listed_pending name s :
  listed_live s -> pending_names (listed name s) = pending_names s ++ [name].
Proof.
  intros Hlive. unfold pending_names.
  change (outgoing_list (listed name s)) with (outgoing_list s ++ [fresh (outgoings s)]).
  rewrite omap_app. f_equal.
  - unfold listed_live in Hlive.
    induction (outgoing_list s) as [|o l IH]; [done|].
    apply Forall_cons in Hlive as [Ho Hl].
    cbn [omap list_omap]. by rewrite (IH Hl), (listed_lookup_old _ _ _ Ho).
  - cbn [omap list_omap]. by rewrite listed_lookup.
Qed.

Lemma listed_listed_live name s : listed_live s -> listed_live (listed name s).
Proof.
  intros Hlive. unfold listed_live.
  change (outgoing_list (listed name s)) with (outgoing_list s ++ [fresh (outgoings s)]).
  apply Forall_app_2.
  - eapply Forall_impl; [exact Hlive|]. intros o Ho.
    by rewrite (listed_lookup_old _ _ _ Ho).
  - constructor; [|constructor]. by rewrite listed_lookup.
Qed.

Section Connect_to.

Variable W : world.

Lemma connect_to_valid e next s :
  check_id W (value e) = true ->
  connect_to W (e :: next) s
  = match setup_outgoing_connection W (fresh (outgoings s)) (listed (value e) s) with
    | Done _ s1 => connect_to W next s1
    | Abort s1 => Abort s1
    | Undefined => Undefined
    end.
Proof. intros H. cbn [connect_to]. by rewrite H. Qed.

Lemma connect_to_invalid e next s :
  check_id W (value e) = false ->
  connect_to W (e :: next) s
  = connect_to W next (logger (Invalid_name (file e) (line e)) s).
Proof. intros H. cbn [connect_to]. by rewrite H. Qed.

Lemma connect_to_pending cfg :
  forall s, listed_live s ->
    exists s' names,
      (connect_to W cfg s = Done tt s' \/ connect_to W cfg s = Abort s')
      /\ pending_names s' = pending_names s ++ names
      /\ names `prefix_of` valid_names W cfg.
Proof.
  induction cfg as [|e next IH]; intros s Hlive.
  - exists s, []. split; [by left|]. split; [by rewrite app_nil_r|]. apply prefix_nil.
  - destruct (check_id W (value e)) eqn:Hid.
    + rewrite (connect_to_valid e next s Hid).
      pose proof (listed_listed_live (value e) s Hlive) as Hlive1.
      destruct (setup_outgoing_connection_steady W (fresh (outgoings s))
                  (set_o_name (value e) zero_outgoing) (listed (value e) s)
                  (listed_lookup _ _)) as (s1 & t & [E|E] & S & _); rewrite E.
      * destruct (IH s1 (listed_live_steady _ _ _ S Hlive1)) as (s' & names & R & P & Q).
        exists s', (value e :: names). split; [exact R|]. split.
        -- rewrite P, (pending_names_steady _ _ _ S), (listed_pending _ _ Hlive).
           by rewrite <- app_assoc.
        -- unfold valid_names. cbn [fmap list_fmap].
           rewrite filter_cons_True by done. by apply prefix_cons.
      * exists s1, [value e]. split; [by right|]. split.
        -- by rewrite (pending_names_steady _ _ _ S), (listed_pending _ _ Hlive).
        -- unfold valid_names. cbn [fmap list_fmap].
           rewrite filter_cons_True by done. apply prefix_cons, prefix_nil.
    + rewrite (connect_to_invalid e next s Hid).
      destruct (IH (logger (Invalid_name (file e) (line e)) s) Hlive)
        as (s' & names & R & P & Q).
      exists s', names. split; [exact R|]. split; [exact P|].
      unfold valid_names. cbn [fmap list_fmap].
      rewrite filter_cons_False; [done|]. by rewrite Hid.
Qed.

End Connect_to.

(** ** The accept loop *)

Lemma state_ext (a b : state) :
  config_tree a = config_tree b -> maxtimeout a = maxtimeout b ->
  debug_connections a = debug_connections b ->
  connections a = connections b -> connection_tree a = connection_tree b ->
  outgoings a = outgoings b -> outgoing_list a = outgoing_list b ->
  node_tree a = node_tree b -> event_tree a = event_tree b ->
  mutex a = mutex b -> now a = now b -> tick a = tick b -> trace a = trace b ->
  a = b.
Proof. destruct a, b. cbn. intros. by subst. Qed.

(** Projections of a state built by a chain of updates, reduced by need. *)
Ltac project :=
  lazy beta iota zeta delta
    [config_tree maxtimeout debug_connections connections connection_tree
     outgoings outgoing_list node_tree event_tree mutex now tick trace
     set_trace set_tick set_mutex set_event_tree set_outgoing_list
     set_outgoings set_connection_tree set_connections
     emit ticked logger with_connection with_outgoing mutex_lock mutex_unlock
     connection_add accepted accepted_trace fst snd].

Lemma ifdebug_on m s :
  debug_connections s = true -> ifdebug_CONNECTIONS m s = logger m s.
Proof. unfold ifdebug_CONNECTIONS. by intros ->. Qed.

Lemma ifdebug_off m s :
  debug_connections s = false -> ifdebug_CONNECTIONS m s = s.
Proof. unfold ifdebug_CONNECTIONS. by intros ->. Qed.

Section Accept.

Variable W : world.

Lemma configure_tcp_live c r s :
  connections s !! c = Some r ->
  configure_tcp W c s
  = (fun s => if have_IPTOS_LOWDELAY W
              then emit (Setsockopt (c_socket r) IP_TOS_LOWDELAY) s else s)
      (if have_TCP_NODELAY W then emit (Setsockopt (c_socket r) TCP_NODELAY) s else s).
Proof. unfold configure_tcp. by intros ->. Qed.

Lemma accept_turn_failed l_tcp s :
  (sys_accept W (tick s) l_tcp).1 < 0 ->
  accept_turn W l_tcp s
  = Leave (Done tt (logger Accepting_failed
                      (emit (Accept (sys_accept W (tick s) l_tcp).1) (ticked s)))).
Proof.
  intros H. unfold accept_turn. destruct (sys_accept W (tick s) l_tcp) as [fd sa].
  cbn [fst] in *. destruct (Z.ltb_spec fd 0); [reflexivity|lia].
Qed.

(** An accepted connection reaches [thread_create] registered and under
    the lock. *)
Lemma accept_turn_accepted l_tcp s :
  0 <= (sys_accept W (tick s) l_tcp).1 ->
  accept_turn W l_tcp s
  = match thread_create_or_abort W (fresh (connections s)) (accepted W l_tcp s) with
    | Done _ s2 => Again (mutex_unlock s2)
    | Abort s2 => Leave (Abort s2)
    | Undefined => Leave Undefined
    end.
Proof.
  intros H. unfold accept_turn.
  destruct (sys_accept W (tick s) l_tcp) as [fd sa] eqn:Eacc.
  cbn [fst snd] in *. destruct (Z.ltb_spec fd 0); [lia|].
  unfold new_connection. cbv beta iota zeta.
  change (connections (emit (Accept fd) (ticked s))) with (connections s).
  set (c := fresh (connections s)).
  change (now (emit (Sockaddr2hostname (sockaddrunmap W sa))
                 (set_connections (<[c := zero_connection]> (connections s))
                    (emit (Accept fd) (ticked s))))) with (now s).
  set (rec := accepted_record W (sockaddrunmap W sa) fd (now s)).
  set (S0 := ifdebug_CONNECTIONS _ _).
  assert (Hl : connections S0 !! c = Some (rec zero_connection)).
  { subst S0. destruct (debug_connections s) eqn:D;
      [rewrite ifdebug_on by exact D|rewrite ifdebug_off by exact D];
      project; by rewrite lookup_alter_eq, lookup_insert_eq. }
  rewrite (configure_tcp_live c _ S0 Hl). cbv beta.
  match goal with
  | |- match thread_create_or_abort W _ ?a with _ => _ end = _ =>
      assert (E : a = accepted W l_tcp s); [|by rewrite E]
  end.
  clear Hl. subst S0 rec c. unfold accepted, accepted_trace. rewrite Eacc.
  destruct s as [ct mt dbg cs ctr os ol nt et mx nw tk tr].
  unfold ifdebug_CONNECTIONS.
  change (debug_connections _) with dbg.
  destruct dbg, (have_TCP_NODELAY W), (have_IPTOS_LOWDELAY W);
    apply state_ext; project; try reflexivity;
    try (by rewrite !alter_insert_same);
    repeat first [rewrite <- app_assoc | rewrite <- app_comm_cons]; reflexivity.
Qed.

Lemma thread_create_or_abort_cases c s1 :
  (sys_thread_create W (tick s1) = true /\
   thread_create_or_abort W c s1
   = Done tt (with_connection c (set_c_thread true)
                (emit (Thread_create c true) (ticked s1))))
  \/ (sys_thread_create W (tick s1) = false /\
      thread_create_or_abort W c s1
      = Abort (logger Create_thread_failed
                 (emit (Thread_create c false) (ticked s1)))).
Proof.
  unfold thread_create_or_abort. destruct (sys_thread_create W (tick s1)); [by left|by right].
Qed.

End Accept.

(** ** retry_outgoing *)

Lemma retry_outgoing_lookup o s og :
  outgoings s !! o = Some og ->
  outgoings (retry_outgoing o s) !! o = Some (retried (maxtimeout s) (now s) og).
Proof.
  intros H. rewrite (updated_id s), (retry_outgoing_updated o og) by done.
  fields. apply lookup_insert_eq.
Qed.

Lemma retry_outgoing_event_tree o s og :
  outgoings s !! o = Some og ->
  event_tree (retry_outgoing o s) = {[o]} ∪ event_tree s.
Proof.
  intros H. by rewrite (updated_id s), (retry_outgoing_updated o og) by done.
Qed.

Lemma retry_outgoing_maxtimeout o s og :
  outgoings s !! o = Some og ->
  maxtimeout (retry_outgoing o s) = maxtimeout s.
Proof.
  intros H. by rewrite (updated_id s), (retry_outgoing_updated o og) by done.
Qed.

Lemma retried_timeout max t og :
  in_int (o_timeout og + 5) ->
  o_timeout (retried max t og) = Z.min (o_timeout og + 5) max.
Proof.
  intros H. unfold retried. cbn. rewrite (wrap_int_id _ H).
  destruct (Z.ltb_spec max (o_timeout og + 5)); lia.
Qed.

Lemma timeout_after_formula o s og :
  outgoings s !! o = Some og ->
  o_timeout og = 0 ->
  0 <= maxtimeout s <= INT_MAX - 5 ->
  forall n,
    exists ogn,
      outgoings (Nat.iter n (retry_outgoing o) s) !! o = Some ogn /\
      maxtimeout (Nat.iter n (retry_outgoing o) s) = maxtimeout s /\
      o_timeout ogn = Z.min (5 * Z.of_nat n) (maxtimeout s).
Proof.
  intros Hog H0 Hmax n.
  induction n as [|n (ogn & En & Em & Et)].
  - exists og. cbn. repeat split; [done|lia].
  - rewrite Nat.iter_succ.
    exists (retried (maxtimeout s) (now (Nat.iter n (retry_outgoing o) s)) ogn).
    split; [|split].
    + rewrite (retry_outgoing_lookup _ _ _ En). by rewrite Em.
    + by rewrite (retry_outgoing_maxtimeout _ _ _ En).
    + rewrite retried_timeout; [lia|].
      unfold in_int, INT_MIN, INT_MAX in *. lia.
Qed.

Section Rounds.

Variable W : world.

(** A round in which no socket can be created ends in [retry_outgoing]. *)
Lemma failed_round o og s :
  (forall k family, sys_socket W k family < 0) ->
  (forall k, sys_thread_create W k = true) ->
  outgoings s !! o = Some og ->
  live_connection s (o_name og) = None ->
  lookup_config (read_connection_config W (o_name og)) "Address" <> [] ->
  exists s' og',
    setup_outgoing_connection W o s = Done tt s'
    /\ outgoings s' !! o = Some og'
    /\ o_name og' = o_name og
    /\ o_timeout og' = o_timeout (retried (maxtimeout s) (now s) og)
    /\ o_ev og' = {| ev_handler := Some retry_outgoing_handler;
                     ev_time := now s + o_timeout og' |}
    /\ o ∈ event_tree s'
    /\ node_tree s' = node_tree s
    /\ maxtimeout s' = maxtimeout s.
Proof.
  intros Hsock Hthr Ho Hlive Hcfg.
  rewrite (setup_prepared W o og s Ho Hlive Hcfg).
  destruct (do_outgoing_connection_cases W (fresh (connections s)) o
              (new_outgoing_record W o og s)
              (set_o_cfg (lookup_config (read_connection_config W (o_name og))
                            "Address") og)
              (prepared W o og s))
    as (r1 & og1 & n & t & K & C & [(Eai & Ecfg & E)|(a & fd & Hfd & _)]).
  { unfold prepared. cbn [connections]. apply lookup_insert_eq. }
  { reflexivity. }
  { unfold prepared. cbn [outgoings]. apply lookup_insert_eq. }
  - rewrite E.
    destruct (thread_create_or_abort_cases W (fresh (connections s))
                (ran_out (fresh (connections s)) o r1 og1 (prepared W o og s)
                   (<[fresh (connections s) := r1]> (connections (prepared W o og s)))
                   (<[o := og1]> (outgoings (prepared W o og s))) n t))
      as [[_ ->]|[Hno _]]; [|by rewrite Hthr in Hno].
    eexists _, (retried (maxtimeout s) (now s) og1).
    split; [reflexivity|].
    unfold ran_out, prepared, with_connection, emit, ticked.
    cbn [outgoings event_tree node_tree maxtimeout now set_connections set_trace set_tick].
    split; [apply lookup_insert_eq|].
    split; [apply (cs_name _ _ _ _ _ C)|].
    split; [unfold retried; cbn; by rewrite (cs_timeout _ _ _ _ _ C)|].
    split; [reflexivity|]. split; [apply armed_in|]. by split.
  - destruct Hfd as [Hfd (k & family & <-)]. specialize (Hsock k family). lia.
Qed.

Lemma failed_rounds o og s :
  (forall k family, sys_socket W k family < 0) ->
  (forall k, sys_thread_create W k = true) ->
  outgoings s !! o = Some og ->
  live_connection s (o_name og) = None ->
  lookup_config (read_connection_config W (o_name og)) "Address" <> [] ->
  o_timeout og = 0 ->
  0 <= maxtimeout s <= INT_MAX - 5 ->
  forall n,
    exists ogn,
      outgoings (Nat.iter n (round W o) s) !! o = Some ogn
      /\ o_name ogn = o_name og
      /\ node_tree (Nat.iter n (round W o) s) = node_tree s
      /\ maxtimeout (Nat.iter n (round W o) s) = maxtimeout s
      /\ o_timeout ogn = Z.min (5 * Z.of_nat n) (maxtimeout s).
Proof.
  intros Hsock Hthr Ho Hlive Hcfg H0 Hmax n.
  induction n as [|n (ogn & En & Ename & Enode & Em & Et)].
  - exists og. cbn [Nat.iter nat_rect]. repeat split; [done|lia].
  - rewrite Nat.iter_succ.
    set (sn := Nat.iter n (round W o) s) in *. unfold round.
    destruct (failed_round o ogn sn Hsock Hthr En)
      as (s' & og' & -> & Eo & En' & Et' & _ & _ & Enode' & Em').
    { unfold live_connection. by rewrite Enode, Ename. }
    { by rewrite Ename. }
    cbv beta iota.
    exists og'. split; [exact Eo|]. split; [by rewrite En'|].
    split; [by rewrite Enode'|]. split; [by rewrite Em'|].
    rewrite Et', Em, retried_timeout; [lia|].
    unfold in_int, INT_MIN, INT_MAX in *. lia.
Qed.

End Rounds.

(** C1.  One retry-scheduling step adds 5 seconds to the timeout of the
    attempt and then caps it at [maxtimeout], which the file initialises to
    900; the timer of the attempt is armed for the current time plus the
    new timeout.  From a timeout of 0 the timeout after [n] steps is
    [min (5 n) maxtimeout], which for a maximum of 20 reads 5, 10, 15, 20,
    20, 20, ...; the same holds after [n] rounds of
    [setup_outgoing_connection] in which no socket can be created. *)
Theorem retry_outgoing_backoff (W : world) (o : nat) (s : state) (og : outgoing_t) :
  outgoings s !! o = Some og ->
  in_int (o_timeout og + 5) ->
  (exists og',
      outgoings (retry_outgoing o s) !! o = Some og' /\
      o_timeout og' = Z.min (o_timeout og + 5) (maxtimeout s) /\
      o_ev og' = {| ev_handler := Some retry_outgoing_handler;
                    ev_time := now s + o_timeout og' |})
  /\ o ∈ event_tree (retry_outgoing o s)
  /\ (forall tree debug t, maxtimeout (startup tree debug t) = 900)
  /\ (o_timeout og = 0 -> 0 <= maxtimeout s <= INT_MAX - 5 ->
      forall n, timeout_after o s n = Some (Z.min (5 * Z.of_nat n) (maxtimeout s)))
  /\ (o_timeout og = 0 -> maxtimeout s = 20 ->
      map (timeout_after o s) [1; 2; 3; 4; 5; 6]%nat
        = map Some [5; 10; 15; 20; 20; 20]
      /\ forall n, (4 <= n)%nat -> timeout_after o s n = Some 20)
  /\ ((forall k family, sys_socket W k family < 0) ->
      (forall k, sys_thread_create W k = true) ->
      live_connection s (o_name og) = None ->
      lookup_config (read_connection_config W (o_name og)) "Address" <> [] ->
      o_timeout og = 0 -> 0 <= maxtimeout s <= INT_MAX - 5 ->
      forall n, timeout_after_rounds W o s n
                = Some (Z.min (5 * Z.of_nat n) (maxtimeout s))).
Proof.
  intros Hog Hint.
  assert (F : o_timeout og = 0 -> 0 <= maxtimeout s <= INT_MAX - 5 ->
              forall n, timeout_after o s n = Some (Z.min (5 * Z.of_nat n) (maxtimeout s))).
  { intros H0 Hmax n. unfold timeout_after.
    destruct (timeout_after_formula o s og Hog H0 Hmax n) as (ogn & -> & _ & <-).
    reflexivity. }
  split; [|split; [|split; [|split; [|split]]]].
  - exists (retried (maxtimeout s) (now s) og).
    split; [by apply retry_outgoing_lookup|].
    split; [by apply retried_timeout|].
    reflexivity.
  - rewrite (retry_outgoing_event_tree _ _ _ Hog). apply armed_in.
  - reflexivity.
  - exact F.
  - intros H0 Hmax.
    assert (Hm : 0 <= maxtimeout s <= INT_MAX - 5) by (rewrite Hmax; unfold INT_MAX; lia).
    split.
    + cbn [map]. rewrite !(F H0 Hm), Hmax. reflexivity.
    + intros n Hn. rewrite (F H0 Hm), Hmax. f_equal. lia.
  - intros Hsock Hthr Hlive Hcfg H0 Hmax n. unfold timeout_after_rounds.
    destruct (failed_rounds W o og s Hsock Hthr Hog Hlive Hcfg H0 Hmax n)
      as (ogn & -> & _ & _ & _ & <-).
    reflexivity.
Qed.

(** ** bind_to_address *)

(** C3.  With [BindToAddress] resolving to two addresses of which the first
    cannot be bound and the second can, [bind_to_address] calls [bind]
    twice with the first address, never with the second, and reports
    failure: the loop walks the list but always binds its head. *)
Theorem bind_to_address_binds_only_first :
  exists s',
    bind_to_address (example_world 3 true) 1 bind_state = Done false s'
    /\ bind_calls (trace s') = [INADDR "192.0.2.1" 0; INADDR "192.0.2.1" 0]
    /\ forall n fd, sys_bind (example_world 3 true) n fd (INADDR "192.0.2.2" 0) = 0.
Proof.
  eexists. split; [vm_compute; reflexivity|]. split; [reflexivity|].
  intros n fd. reflexivity.
Qed.

(** In every world the [bind] calls of the loop all go to the head of the
    list. *)
Lemma bind_loop_binds_head W fd a l st s :
  exists k, bind_calls (trace (bind_loop W fd a l st s).2)
            = bind_calls (trace s) ++ repeat a k.
Proof.
  destruct (bind_loop_updated W fd a l st s (connections s) (outgoings s) (tick s) [])
    as (st' & n' & t' & E & _ & B).
  rewrite <- updated_id in E. rewrite E.
  exists (length (bind_calls t')). cbn [snd trace updated app].
  unfold bind_calls in *. by rewrite flat_map_app, <- B.
Qed.

Section Claims.

Variable W : world.

Lemma last_logger s m : last (trace (logger m s)) = Some (Logger m).
Proof. unfold logger, emit. cbn [trace set_trace]. apply last_snoc. Qed.

(** ** One pending attempt per peer *)

Lemma NoDup_prefix {A} (l k : list A) : l `prefix_of` k -> NoDup k -> NoDup l.
Proof. intros [k' ->] H. by apply NoDup_app in H as [H _]. Qed.

(** C5 (amended).  Setting up an outgoing connection to a peer that has a
    live record creates no record, no socket and no thread: the timer of
    the attempt is cancelled, the attempt is attached to the existing
    record, and the call returns.  After [try_outgoing_connections] the
    list of attempts holds at most one attempt per peer provided the valid
    [ConnectTo] names are pairwise different. *)
Theorem setup_attaches_to_live_record (o c' : nat) (og : outgoing_t) (rc : connection_t)
    (s : state) :
  outgoings s !! o = Some og ->
  live_connection s (o_name og) = Some c' ->
  connections s !! c' = Some rc ->
  (exists s',
      setup_outgoing_connection W o s = Done tt s'
      /\ connections s' !! c' = Some (set_c_outgoing (Some o) rc)
      /\ (forall c, c <> c' -> connections s' !! c = connections s !! c)
      /\ dom (connections s') = dom (connections s)
      /\ connection_tree s' = connection_tree s
      /\ outgoings s' = outgoings s
      /\ outgoing_list s' = outgoing_list s
      /\ event_tree s' = event_tree s ∖ {[o]}
      /\ trace s' = trace s ++ [Event_del o; Lookup_node (o_name og) (mutex s)]
                    ++ if debug_connections s
                       then [Logger (Already_connected (o_name og))] else [])
  /\ (forall s0,
        NoDup (valid_names W (lookup_config (config_tree s0) "ConnectTo")) ->
        exists s',
          (try_outgoing_connections W s0 = Done tt s'
           \/ try_outgoing_connections W s0 = Abort s')
          /\ NoDup (pending_names s')).
Proof.
  intros Ho Hlive Hc. split.
  - eexists. split; [apply (setup_already_connected W o og c' s Ho Hlive)|].
    cbn [connections connection_tree outgoings outgoing_list event_tree trace].
    split; [by rewrite lookup_alter_eq, Hc|].
    split; [intros c Hne; by rewrite lookup_alter_ne|].
    split; [apply dom_alter_L|]. by repeat split.
  - intros s0 Hnodup. unfold try_outgoing_connections.
    destruct (connect_to_pending W (lookup_config (config_tree s0) "ConnectTo")
                (set_outgoing_list [] s0)) as (s' & names & R & P & Q).
    { constructor. }
    exists s'. split; [exact R|].
    rewrite P. change (pending_names (set_outgoing_list [] s0)) with (@nil string).
    rewrite app_nil_l. by eapply NoDup_prefix.
Qed.

End Claims.

(** ** Counterexamples *)

(** C4 as stated fails: the peer ["a"] is not configured any more, its
    attempt has no address left, and [do_outgoing_connection] still arms
    the retry timer of the attempt. *)
Lemma retry_armed_for_unconfigured_peer :
  ~ (~ still_configured (example_state [] 900 [] 0) "a" ->
     forall s', do_outgoing_connection (example_world 5 true) 1 (example_state [] 900 [] 0)
                = Done tt s' ->
                1%nat ∉ event_tree s').
Proof.
  intros H.
  assert (Hnot : ~ still_configured (example_state [] 900 [] 0) "a").
  { unfold still_configured. cbn. apply not_elem_of_nil. }
  refine (H Hnot _ _ _); [vm_compute; reflexivity|].
  refine (bool_decide_unpack _ _). vm_compute. exact I.
Qed.

(** C5 as stated fails: two [ConnectTo] lines with the same name leave two
    pending attempts for that peer. *)
Lemma duplicate_connect_to_two_pending :
  exists s',
    try_outgoing_connections (example_world 5 true)
      (startup [connect_to_entry "a"; connect_to_entry "a"] false 1000) = Done tt s'
    /\ pending_names s' = ["a"; "a"]%string
    /\ ~ NoDup (pending_names s').
Proof.
  eexists. split; [vm_compute; reflexivity|].
  split; [vm_compute; reflexivity|].
  match goal with |- ~ NoDup ?l =>
    assert (El : l = ["a"; "a"]%string) by (vm_compute; reflexivity); rewrite El
  end.
  intros Hnd. apply NoDup_cons in Hnd as [Hnd _]. apply Hnd. by left.
Qed.

(** ** The theorems at concrete inputs *)

Lemma retry_outgoing_backoff_witness :
  in_int (o_timeout (example_attempt [] 0) + 5)
  /\ map (timeout_after 1 (example_state [] 20 [] 0)) [1; 2; 3; 4; 5; 6]%nat
     = map Some [5; 10; 15; 20; 20; 20]
  /\ timeout_after_rounds (example_world (-1) true) 1 (example_state [] 20 [] 0) 7
     = Some 20.
Proof.
  assert (Hint : in_int (o_timeout (example_attempt [] 0) + 5)).
  { unfold in_int, INT_MIN, INT_MAX. cbn. lia. }
  split; [exact Hint|].
  destruct (retry_outgoing_backoff (example_world (-1) true) 1
              (example_state [] 20 [] 0) (example_attempt [] 0))
    as (_ & _ & _ & _ & H & R); [reflexivity|exact Hint|].
  split; [apply H; reflexivity|].
  apply (R ltac:(intros; cbn; lia) ltac:(reflexivity) ltac:(reflexivity)
           ltac:(discriminate) ltac:(reflexivity)
           ltac:(unfold INT_MAX; cbn; lia) 7%nat).
Defined.

Lemma address_entry_port_witness :
  split_at_space "10.0.0.1" = None
  /\ address_and_port (c_config_tree example_record) "10.0.0.1 1000"
     = ("10.0.0.1", "1000")%string
  /\ exists s' t,
       do_outgoing_connection (example_world (-1) true) 1
         (example_state [] 900 (c_config_tree example_record) 0) = Done tt s'
       /\ trace s' = trace (example_state [] 900 (c_config_tree example_record) 0) ++ t
       /\ resolver_calls t = [("10.0.0.1", "1000"); ("10.0.0.2", "655")]%string
       /\ tried t = [INADDR "10.0.0.1" 1000; INADDR "10.0.0.2" 655].
Proof.
  split; [reflexivity|].
  destruct (address_entry_port (example_world (-1) true) 1 1 example_record
              (example_attempt (c_config_tree example_record) 0)
              (example_state [] 900 (c_config_tree example_record) 0)
              "10.0.0.1" "1000")
    as (H1 & _ & _ & s' & og' & used & t & E & Ht & _ & _ & _ & _ & _ & Hex);
    [reflexivity..|].
  split; [exact H1|].
  destruct (Hex eq_refl eq_refl eq_refl) as [_ H].
  destruct (H ltac:(intros; cbn; lia)) as [Hr Htr].
  by exists s', t.
Defined.

Lemma no_candidate_arms_retry_witness :
  all_candidates (example_world 5 true) example_record (example_attempt [] 0) = []
  /\ exists s',
       do_outgoing_connection (example_world 5 true) 1 (example_state [] 900 [] 0)
       = Done tt s'
       /\ 1%nat ∈ event_tree s' /\ 1%nat ∉ connection_tree s'.
Proof.
  split; [reflexivity|].
  destruct (no_candidate_arms_retry (example_world 5 true) 1 1 example_record
              (example_attempt [] 0) (example_state [] 900 [] 0))
    as (s' & og' & r' & E & _ & _ & _ & Hin & Hout & _); [reflexivity..|].
  exists s'. by split.
Defined.

Lemma setup_attaches_to_live_record_witness :
  live_connection connected_state "a" = Some 1%nat
  /\ exists s',
       setup_outgoing_connection (example_world 5 true) 1 connected_state = Done tt s'
       /\ connection_tree s' = connection_tree connected_state
       /\ dom (connections s') = dom (connections connected_state).
Proof.
  split; [reflexivity|].
  destruct (setup_attaches_to_live_record (example_world 5 true) 1 1
              (example_attempt [] 0) example_record connected_state)
    as [(s' & E & _ & _ & Hdom & Htree & _) _]; [reflexivity..|].
  exists s'. by repeat split.
Defined.

Lemma address_source_advance_witness :
  exists s' og' t,
    do_outgoing_connection (example_world 5 true) 1
      (example_state [] 900 (c_config_tree example_record) 0) = Done tt s'
    /\ outgoings s' !! 1%nat = Some og'
    /\ all_candidates (example_world 5 true) example_record
         (example_attempt (c_config_tree example_record) 0)
       = tried t ++ all_candidates (example_world 5 true) example_record og'.
Proof.
  destruct (address_source_advance (example_world 5 true) 1 1 example_record
              (example_attempt (c_config_tree example_record) 0)
              (example_state [] 900 (c_config_tree example_record) 0))
    as (s' & og' & t & E & _ & Ho & Hc & _); [reflexivity..|].
  by exists s', og', t.
Defined.


(** ** Strings the code cuts: the host of an Address entry, the interface name *)

Lemma substring_length n (a : string) :
  String.length (substring 0 n a) = Nat.min n (String.length a).
Proof.
  revert a. induction n as [|n IH]; intros [|x a]; cbn; try reflexivity.
  by rewrite IH.
Qed.

Lemma substring_prefix n (a : string) : String.prefix (substring 0 n a) a = true.
Proof.
  revert a. induction n as [|n IH]; intros [|x a]; cbn; try reflexivity.
  destruct (ascii_dec x x); [apply IH|done].
Qed.

Lemma substring_all n (a : string) :
  (String.length a <= n)%nat -> substring 0 n a = a.
Proof.
  revert a. induction n as [|n IH]; intros [|x a]; cbn; intros H;
    try reflexivity; try lia.
  rewrite IH; [reflexivity|lia].
Qed.

(** X1.  [strchr(address, ' ')] (lines 340-343) cuts an [Address] value at
    its first space: the host has no space and the value is the host, a
    space and the port; a value without a space is not cut.  So the host
    [do_outgoing_connection] hands to the resolver never holds a space,
    whatever the host configuration says. *)
Theorem split_at_space_first_space (conn_config : list config_t) (address : string) :
  match split_at_space address with
  | Some (host, port) =>
      address = String.append host (String " " port)
      /\ ~ In " "%char (chars host)
  | None => ~ In " "%char (chars address)
  end
  /\ ~ In " "%char (chars (address_and_port conn_config address).1)
  /\ String.prefix (address_and_port conn_config address).1 address = true.
Proof.
  assert (H : match split_at_space address with
              | Some (host, port) =>
                  address = String.append host (String " " port)
                  /\ ~ In " "%char (chars host)
              | None => ~ In " "%char (chars address)
              end).
  { induction address as [|a rest IH]; [intros []|].
    cbn [split_at_space].
    destruct (Ascii.eqb_spec a " ") as [->|Ha].
    - split; [reflexivity|intros []].
    - destruct (split_at_space rest) as [[host port]|].
      + destruct IH as [-> IH]. split; [reflexivity|].
        intros [E|E]; [by apply Ha|by apply IH].
      + intros [E|E]; [by apply Ha|by apply IH]. }
  split; [exact H|].
  assert (P : forall a : string, String.prefix a a = true).
  { intros a. rewrite <- (substring_all (String.length a) a) at 1 by lia.
    apply substring_prefix. }
  unfold address_and_port.
  destruct (split_at_space address) as [[host port]|].
  - destruct H as [-> H]. split; [exact H|]. cbn [fst].
    clear. induction host as [|x host IH]; [reflexivity|].
    change (String x host +:+ String " " port)
      with (String x (host +:+ String " " port)).
    cbn [String.prefix]. destruct (ascii_dec x x); [exact IH|done].
  - destruct (get_config_string _); cbn [fst]; (split; [exact H|apply P]).
Qed.

Section Interface.

Variable W : world.

(** X2.  [bind_to_interface] (lines 69-96) changes nothing but the trace
    and the count of system calls.  Without [BindToInterface] it makes no
    call and succeeds.  On a platform with [SO_BINDTODEVICE] it makes one
    [setsockopt] on the descriptor it is given, with the first
    [IFNAMSIZ - 1] characters of the configured name, and fails exactly
    when that call fails, after logging the whole name.  On other
    platforms it logs and succeeds. *)
Theorem bind_to_interface_outcome (sd : Z) (s : state) :
  exists n t,
    (bind_to_interface W sd s).2 = updated s (connections s) (outgoings s) n t
    /\ match get_config_string (lookup_config (config_tree s) "BindToInterface") with
       | None => (bind_to_interface W sd s).1 = true /\ t = [] /\ n = tick s
       | Some iface =>
           if have_SO_BINDTODEVICE W then
             exists name,
               n = S (tick s)
               /\ String.length name = Nat.min 15 (String.length iface)
               /\ String.prefix name iface = true
               /\ ((String.length iface <= 15)%nat -> name = iface)
               /\ if sys_setsockopt_bindtodevice W (tick s) sd name =? 0
                  then (bind_to_interface W sd s).1 = true
                       /\ t = [Setsockopt sd (SO_BINDTODEVICE name)]
                  else (bind_to_interface W sd s).1 = false
                       /\ t = [Setsockopt sd (SO_BINDTODEVICE name);
                               Logger (Cant_bind_to_interface iface)]
           else (bind_to_interface W sd s).1 = true
                /\ t = [Logger Not_supported_on_this_platform] /\ n = tick s
       end.
Proof.
  unfold bind_to_interface.
  destruct (get_config_string _) as [iface|].
  - destruct (have_SO_BINDTODEVICE W).
    + set (name := substring 0 (IFNAMSIZ - 1) iface).
      destruct (_ =? 0) eqn:E.
      * exists (S (tick s)), [Setsockopt sd (SO_BINDTODEVICE name)]. split.
        { by destruct s. }
        exists name. rewrite E.
        repeat split; [apply substring_length|apply substring_prefix|].
        intros H. by apply substring_all.
      * exists (S (tick s)),
          [Setsockopt sd (SO_BINDTODEVICE name); Logger (Cant_bind_to_interface iface)].
        split.
        { destruct s. unfold logger, emit, ticked, updated. cbn.
          by rewrite <- app_assoc. }
        exists name. rewrite E.
        repeat split; [apply substring_length|apply substring_prefix|].
        intros H. by apply substring_all.
    + exists (tick s), [Logger Not_supported_on_this_platform]. split; [|done].
      by destruct s.
  - exists (tick s), []. split; [|done].
    destruct s. unfold updated. cbn. by rewrite app_nil_r.
Qed.

End Interface.

(** ** Binding an outgoing socket to a local address *)

Section Bind.

Variable W : world.

Lemma last_cons_default {A} (x : A) (l : list A) : last (x :: l) = Some (default x (last l)).
Proof.
  revert x. induction l as [|y l IH]; intros x; [reflexivity|].
  change (last (x :: y :: l)) with (last (y :: l)). by rewrite IH.
Qed.

Lemma bind_results_app t t' : bind_results (t ++ t') = bind_results t ++ bind_results t'.
Proof. apply flat_map_app. Qed.

Lemma bind_results_binds fd a sts :
  bind_results (map (Bind fd a) sts) = map (fun st => (fd, a, st)) sts.
Proof. induction sts as [|st sts IH]; [reflexivity|]. cbn. by rewrite <- IH. Qed.

Lemma logged_binds fd a sts : logged (map (Bind fd a) sts) = [].
Proof. by induction sts. Qed.

(** The loop of lines 133-139 from status [st]: the statuses [sts] of its
    calls of [bind], all on [ai_list]. *)
Lemma bind_loop_statuses fd a l :
  forall st s cs os n t,
    exists sts,
      bind_loop W fd a l st (updated s cs os n t)
      = (default st (last sts),
         updated s cs os (n + length sts) (t ++ map (Bind fd a) sts))
      /\ (length sts <= length l)%nat
      /\ Forall (fun x => x <> 0) (removelast sts)
      /\ (default st (last sts) <> 0 -> st <> 0 -> length sts = length l).
Proof.
  induction l as [|x l IH]; intros st s cs os n t.
  - exists []. cbn. rewrite app_nil_r, Nat.add_0_r. by repeat split.
  - cbn [bind_loop tick updated]. rewrite ticked_updated, emit_updated.
    destruct (Z.eqb_spec (sys_bind W n fd a) 0) as [E|E].
    + exists [sys_bind W n fd a]. cbn. rewrite Nat.add_1_r.
      repeat split; [lia|constructor|]. intros H. by destruct H.
    + destruct (IH (sys_bind W n fd a) s cs os (S n) (t ++ [Bind fd a (sys_bind W n fd a)]))
        as (sts & -> & Hlen & Hnz & Hall).
      exists (sys_bind W n fd a :: sts).
      rewrite last_cons_default. cbn [default length map].
      rewrite <- app_assoc, Nat.add_succ_r. split; [reflexivity|].
      split; [lia|]. split.
      * destruct sts as [|y sts]; [constructor|].
        change (removelast (sys_bind W n fd a :: y :: sts))
          with (sys_bind W n fd a :: removelast (y :: sts)).
        by constructor.
      * intros H _. by rewrite Hall.
Qed.

(** X3.  [bind_to_address] (lines 98-153), called with a record whose
    socket is open, changes nothing but the trace and the count of system
    calls.  Without [BindToAddress] it makes no call and succeeds; when
    the name does not resolve it fails without a call of [bind], and the
    one warning it logs is handed the name after it was freed (lines
    126-128).  Otherwise every call of [bind] is on the socket of the record and on
    the first address of the answer: it makes at least one call and at
    most one for each address, stops at the first that succeeds, succeeds
    exactly when the last one did, and has made one call for each address
    when it fails.  With a negative descriptor the assertion of line 106
    stops the process. *)
Theorem bind_to_address_outcome (c : nat) (r : connection_t) (s : state) :
  connections s !! c = Some r ->
  (c_socket r < 0 -> bind_to_address W c s = Abort s)
  /\ (0 <= c_socket r ->
      exists b n t,
        bind_to_address W c s = Done b (updated s (connections s) (outgoings s) n t)
        /\ match get_config_string (lookup_config (config_tree s) "BindToAddress") with
           | None => b = true /\ t = [] /\ n = tick s
           | Some node =>
               match sys_getaddrinfo W (tick s) node
                       (match c_address r with Some a => sa_family a | None => AF_UNSPEC end) with
               | None =>
                   b = false /\ bind_results t = []
                   /\ logged t = [Error_looking_up_freed]
               | Some (a, rest) =>
                   exists sts,
                     bind_results t = map (fun st => (c_socket r, a, st)) sts
                     /\ (0 < length sts <= S (length rest))%nat
                     /\ Forall (fun st => st <> 0) (removelast sts)
                     /\ b = bool_decide (last sts = Some 0)
                     /\ (b = false -> length sts = S (length rest))
                     /\ n = (S (tick s) + length sts)%nat
                     /\ logged t
                        = if b then if debug_connections s
                                    then [Successfully_bound node] else []
                          else [Cant_bind_to_tcp node]
               end
           end).
Proof.
  intros Hc. unfold bind_to_address. rewrite Hc. split.
  - intros H. by destruct (Z.ltb_spec (c_socket r) 0); [|lia].
  - intros H. destruct (Z.ltb_spec (c_socket r) 0); [lia|].
    destruct (get_config_string _) as [node|].
    + assert (E : ticked s = updated s (connections s) (outgoings s) (S (tick s)) []).
      { destruct s. unfold ticked, updated. cbn. by rewrite app_nil_r. }
      rewrite E, emit_updated. clear E.
      set (family := match c_address r with Some a => sa_family a | None => AF_UNSPEC end).
      destruct (sys_getaddrinfo W (tick s) node family) as [[a rest]|].
      * destruct (bind_loop_statuses (c_socket r) a (a :: rest) (-1) s
                    (connections s) (outgoings s) (S (tick s))
                    ([] ++ [Getaddrinfo node family]))
          as (sts & -> & Hlen & Hnz & Hall).
        assert (Hpos : (0 < length sts)%nat).
        { destruct sts; [|cbn; lia]. cbn in Hall. specialize (Hall ltac:(done) ltac:(done)).
          discriminate. }
        assert (Hlast : exists st, last sts = Some st).
        { destruct sts as [|x sts]; [cbn in Hpos; lia|].
          rewrite last_cons_default. by eexists. }
        destruct Hlast as [st Hlast]. rewrite Hlast in *.
        change (default (-1) (Some st)) with st in *.
        destruct (Z.eqb_spec st 0) as [->|Hst]; cbn [negb].
        -- rewrite ifdebug_updated.
           eexists true, _, _. split; [reflexivity|].
           exists sts. rewrite !bind_results_app, !logged_app, bind_results_binds, logged_binds.
           cbn [length] in Hlen.
           repeat split; try done; try lia.
           ++ destruct (debug_connections s); cbn; by rewrite app_nil_r.
           ++ symmetry. by apply bool_decide_eq_true.
           ++ by destruct (debug_connections s).
        -- rewrite logger_updated.
           eexists false, _, _. split; [reflexivity|].
           exists sts. rewrite !bind_results_app, !logged_app, bind_results_binds, logged_binds.
           cbn [length] in Hlen.
           repeat split; try done; try lia.
           ++ cbn. by rewrite app_nil_r.
           ++ symmetry. apply bool_decide_eq_false. rewrite Hlast. intros [= ->]. by apply Hst.
           ++ intros _. apply Hall; [done|lia].
      * rewrite logger_updated. eexists false, _, _. split; [reflexivity|]. done.
    + exists true, (tick s), []. split; [|done].
      f_equal. destruct s. unfold updated. cbn. by rewrite app_nil_r.
Qed.

End Bind.

(** ** What a connection attempt leaves alone *)

Section Frame.

Variable W : world.

(** X4.  [do_outgoing_connection] (lines 318-397) for a record with a
    pending attempt returns, and touches only that record and that
    attempt: every other record and attempt, the configuration, the
    maximum timeout, the nodes, the list of attempts, the lock and the
    clock are as before, no record or attempt is allocated or freed, no
    record is registered, no timer but that of the attempt is armed and
    none is cancelled, and the trace only grows. *)
Theorem do_outgoing_connection_frame (c o : nat) (r : connection_t) (og : outgoing_t)
    (s : state) :
  connections s !! c = Some r -> c_outgoing r = Some o -> outgoings s !! o = Some og ->
  exists s',
    do_outgoing_connection W c s = Done tt s'
    /\ (forall c', c' <> c -> connections s' !! c' = connections s !! c')
    /\ (forall o', o' <> o -> outgoings s' !! o' = outgoings s !! o')
    /\ dom (connections s') = dom (connections s)
    /\ dom (outgoings s') = dom (outgoings s)
    /\ config_tree s' = config_tree s /\ maxtimeout s' = maxtimeout s
    /\ debug_connections s' = debug_connections s
    /\ node_tree s' = node_tree s /\ outgoing_list s' = outgoing_list s
    /\ mutex s' = mutex s /\ now s' = now s
    /\ connection_tree s' ⊆ connection_tree s
    /\ event_tree s ⊆ event_tree s' /\ event_tree s' ⊆ {[o]} ∪ event_tree s
    /\ trace s `prefix_of` trace s'.
Proof.
  intros Hc Hout Ho.
  assert (Dc : forall x m, dom (<[c := x]> (<[c := m]> (connections s))) = dom (connections s)).
  { intros x m. rewrite insert_insert_eq. by apply dom_insert_lookup_L. }
  assert (Dc' : forall x, dom (<[c := x]> (connections s)) = dom (connections s)).
  { intros x. by apply dom_insert_lookup_L. }
  assert (Do : forall x m, dom (<[o := x]> (<[o := m]> (outgoings s))) = dom (outgoings s)).
  { intros x m. rewrite insert_insert_eq. by apply dom_insert_lookup_L. }
  assert (Do' : forall x, dom (<[o := x]> (outgoings s)) = dom (outgoings s)).
  { intros x. by apply dom_insert_lookup_L. }
  destruct (do_outgoing_connection_cases W c o r og s Hc Hout Ho)
    as (r1 & og1 & n & t & _ & _ & [(_ & _ & ->)|(a & fd & _ & _ & ->)]);
    eexists; (split; [reflexivity|]); fields;
    split_and!;
    first [ reflexivity
          | by intros x Hx; rewrite !lookup_insert_ne
          | apply Dc | apply Dc' | apply Do | apply Do'
          | by eexists
          | apply union_subseteq_r
          | by apply subseteq_difference_l ].
Qed.

End Frame.

(** ** A round of setup_outgoing_connection *)

Section Setup_round.

Variable W : world.

(** The two ways a round with a new record goes on after
    [do_outgoing_connection], up to [thread_create]. *)
Lemma setup_round_cases o og s :
  outgoings s !! o = Some og ->
  live_connection s (o_name og) = None ->
  lookup_config (read_connection_config W (o_name og)) "Address" <> [] ->
  let c := fresh (connections s) in
  let r := new_outgoing_record W o og s in
  let og0 := set_o_cfg (lookup_config (read_connection_config W (o_name og)) "Address") og in
  let p := prepared W o og s in
  exists r1 og1 n t,
    kept r r1 /\ consumed W r og0 og1 t /\
    ((o_ai og1 = [] /\ o_cfg og1 = [] /\
      setup_outgoing_connection W o s
      = thread_create_or_abort W c
          (ran_out c o r1 og1 p (<[c := r1]> (connections p)) (<[o := og1]> (outgoings p)) n t))
     \/
     (exists a fd,
        from_socket W fd /\ last (tried t) = Some a /\
        setup_outgoing_connection W o s
        = thread_create_or_abort W c
            (updated p (<[c := set_c_connecting true (candidate_record W a fd r1)]>
                          (connections p))
               (<[o := og1]> (outgoings p)) n t))).
Proof.
  intros Ho Hlive Hcfg c r og0 p.
  rewrite (setup_prepared W o og s Ho Hlive Hcfg).
  destruct (do_outgoing_connection_cases W c o r og0 p)
    as (r1 & og1 & n & t & K & C & [(Eai & Ecfg & E)|(a & fd & Hfd & Hlast & E)]).
  { unfold p, prepared. cbn [connections]. apply lookup_insert_eq. }
  { reflexivity. }
  { unfold p, prepared. cbn [outgoings]. apply lookup_insert_eq. }
  - exists r1, og1, n, t. split; [done|]. split; [done|]. left.
    fold c p. by rewrite E.
  - exists r1, og1, n, t. split; [done|]. split; [done|]. right.
    exists a, fd. fold c p. by rewrite E.
Qed.

Lemma thread_create_or_abort_record c r s1 :
  connections s1 !! c = Some r ->
  exists (ok : bool) s',
    thread_create_or_abort W c s1 = (if ok then Done tt s' else Abort s')
    /\ ok = sys_thread_create W (tick s1)
    /\ connections s' !! c = Some (if ok then set_c_thread true r else r)
    /\ connection_tree s' = connection_tree s1 /\ event_tree s' = event_tree s1
    /\ exists q, trace s' = trace s1 ++ Thread_create c ok :: q /\ quiet q.
Proof.
  intros Hc.
  destruct (thread_create_or_abort_cases W c s1) as [[E ->]|[E ->]].
  - eexists true, _. split; [reflexivity|]. split; [done|].
    split; [|split; [done|split; [done|]]].
    + apply lookup_with_connection. by destruct s1.
    + exists (@nil event). split; [by destruct s1|apply quiet_nil].
  - eexists false, _. split; [reflexivity|]. split; [done|].
    split; [by destruct s1|]. split; [done|]. split; [done|].
    exists [Logger Create_thread_failed]. split; [|by apply quiet_one].
    destruct s1. unfold logger, emit, ticked. cbn. by rewrite <- app_assoc.
Qed.

(** X5.  A round for a peer without a live connection and with [Address]
    entries (lines 415-443) leaves a new record that carries the name of
    the attempt, the cipher, digest, MAC length and compression of the
    local node, the host configuration of the peer and the time of the
    round.  [thread_create] is called for that record in every case, and
    the record is marked as having a thread when the call succeeds.
    Either the record is registered, connecting on an open descriptor and
    attached to the attempt, whose timer is not armed; or every address
    failed, the record is detached and no longer registered, the timer of
    the attempt is armed, and the thread was started for it all the
    same. *)
Theorem setup_outgoing_connection_new_record (o : nat) (og : outgoing_t) (s : state) :
  outgoings s !! o = Some og ->
  live_connection s (o_name og) = None ->
  lookup_config (read_connection_config W (o_name og)) "Address" <> [] ->
  exists s' r' (ok : bool),
    setup_outgoing_connection W o s = (if ok then Done tt s' else Abort s')
    /\ connections s' !! fresh (connections s) = Some r'
    /\ c_name r' = o_name og
    /\ c_outcipher r' = c_outcipher (myself_connection W)
    /\ c_outdigest r' = c_outdigest (myself_connection W)
    /\ c_outmaclength r' = c_outmaclength (myself_connection W)
    /\ c_outcompression r' = c_outcompression (myself_connection W)
    /\ c_config_tree r' = read_connection_config W (o_name og)
    /\ c_last_ping_time r' = now s
    /\ c_thread r' = ok
    /\ Thread_create (fresh (connections s)) ok ∈ trace s'
    /\ ((c_outgoing r' = Some o /\ c_connecting r' = true /\ 0 <= c_socket r'
         /\ (fresh (connections s) ∈ connection_tree s') /\ (o ∉ event_tree s'))
        \/ (c_outgoing r' = None /\ c_connecting r' = false
            /\ (fresh (connections s) ∉ connection_tree s') /\ (o ∈ event_tree s'))).
Proof.
  intros Ho Hlive Hcfg.
  destruct (setup_round_cases o og s Ho Hlive Hcfg)
    as (r1 & og1 & n & t & K & _ & [(_ & _ & ->)|(a & fd & Hfd & _ & ->)]);
    destruct K as (K1 & K2 & K3 & K4 & K5 & K6 & K7 & K8 & K9 & K10 & K11).
  - match goal with |- context [thread_create_or_abort W ?c ?s1] =>
      destruct (thread_create_or_abort_record c (set_c_outgoing None r1) s1)
        as (ok & s' & -> & _ & Hr & Hct & Het & q & Ht & _)
    end.
    { fields. apply lookup_insert_eq. }
    exists s', (if ok then set_c_thread true (set_c_outgoing None r1)
                else set_c_outgoing None r1), ok.
    split; [reflexivity|]. split; [exact Hr|].
    rewrite Hct, Het, Ht.
    split_and!; try (by destruct ok).
    + rewrite elem_of_app. right. apply elem_of_cons. by left.
    + right. split_and!.
      * by destruct ok.
      * destruct ok; cbn; by rewrite K2.
      * fields. apply removed_out.
      * fields. apply armed_in.
  - match goal with |- context [thread_create_or_abort W ?c ?s1] =>
      destruct (thread_create_or_abort_record c
                  (set_c_connecting true (candidate_record W a fd r1)) s1)
        as (ok & s' & -> & _ & Hr & Hct & Het & q & Ht & _)
    end.
    { fields. apply lookup_insert_eq. }
    exists s', (if ok then set_c_thread true (set_c_connecting true (candidate_record W a fd r1))
                else set_c_connecting true (candidate_record W a fd r1)), ok.
    split; [reflexivity|]. split; [exact Hr|].
    rewrite Hct, Het, Ht.
    split_and!; try (by destruct ok).
    + rewrite elem_of_app. right. apply elem_of_cons. by left.
    + left. split_and!.
      * destruct ok; cbn; by rewrite K9.
      * by destruct ok.
      * destruct Hfd as [Hfd _]. by destruct ok.
      * fields. unfold prepared. cbn [connection_tree]. apply armed_in.
      * fields. unfold prepared. cbn [event_tree]. apply removed_out.
Qed.

(** X6.  [setup_outgoing_connection] puts the cursor of the attempt back
    on the first [Address] entry (line 425) but keeps the list of
    addresses an earlier round has left in the attempt.  So the addresses
    a round tries are a prefix of: what was left of that list, then the
    addresses of every [Address] entry in configuration order; when there
    is any candidate, the first one tried is the first of these, and the
    entries resolved are a prefix of the [Address] entries. *)
Theorem setup_outgoing_connection_candidates (o : nat) (og : outgoing_t) (s : state) :
  outgoings s !! o = Some og ->
  live_connection s (o_name og) = None ->
  lookup_config (read_connection_config W (o_name og)) "Address" <> [] ->
  exists s' t,
    (setup_outgoing_connection W o s = Done tt s'
     \/ setup_outgoing_connection W o s = Abort s')
    /\ trace s' = trace s ++ t
    /\ tried t `prefix_of` round_candidates W o og s
    /\ head (tried t) = head (round_candidates W o og s)
    /\ resolver_calls t
       `prefix_of` requests (new_outgoing_record W o og s)
                     (lookup_config (read_connection_config W (o_name og)) "Address").
Proof.
  intros Ho Hlive Hcfg.
  assert (Thr : forall c s1,
            exists s' q, (thread_create_or_abort W c s1 = Done tt s'
                          \/ thread_create_or_abort W c s1 = Abort s')
                         /\ trace s' = trace s1 ++ q /\ tried q = [] /\ resolver_calls q = []).
  { intros c s1.
    destruct (thread_create_or_abort_cases W c s1) as [[_ ->]|[_ ->]].
    - eexists _, [Thread_create c true]. split; [by left|]. by destruct s1.
    - eexists _, [Thread_create c false; Logger Create_thread_failed].
      split; [by right|]. split; [|done].
      destruct s1. unfold logger, emit, ticked. cbn. by rewrite <- app_assoc. }
  assert (Hall : all_candidates W (new_outgoing_record W o og s)
                   (set_o_cfg (lookup_config (read_connection_config W (o_name og))
                                 "Address") og)
                 = round_candidates W o og s) by reflexivity.
  destruct (setup_round_cases o og s Ho Hlive Hcfg)
    as (r1 & og1 & n & t & K & C & [(Eai & Ecfg & ->)|(a & fd & Hfd & Hlast & ->)]);
    destruct C as [_ _ _ _ (used & Eused & Ecalls) Ecand];
    rewrite Hall in Ecand; cbn [o_cfg set_o_cfg] in Eused.
  - match goal with |- context [thread_create_or_abort W ?c ?s1] =>
      destruct (Thr c s1) as (s' & q & Hres & Ht & Hq & Hq')
    end.
    exists s', ([Event_del o; Lookup_node (o_name og) (mutex s);
                 Connection_add (fresh (connections s)) (mutex s)]
                ++ (t ++ out_of_addresses_trace (fresh (connections s)) o r1 og1
                            (prepared W o og s)) ++ q).
    split; [exact Hres|]. split.
    { rewrite Ht. fields. unfold prepared. cbn [trace]. by rewrite <- !app_assoc. }
    assert (Et : tried (out_of_addresses_trace (fresh (connections s)) o r1 og1
                          (prepared W o og s)) = []).
    { unfold out_of_addresses_trace. by destruct (debug_connections _). }
    assert (Er : resolver_calls (out_of_addresses_trace (fresh (connections s)) o r1 og1
                                   (prepared W o og s)) = []).
    { unfold out_of_addresses_trace. by destruct (debug_connections _). }
    rewrite !tried_app, !resolver_calls_app, Hq, Hq', Et, Er, !app_nil_r.
    change (tried [Event_del o; Lookup_node (o_name og) (mutex s);
                   Connection_add (fresh (connections s)) (mutex s)]) with (@nil sockaddr_t).
    change (resolver_calls [Event_del o; Lookup_node (o_name og) (mutex s);
                   Connection_add (fresh (connections s)) (mutex s)])
      with (@nil (string * string)).
    cbn [app].
    assert (E0 : all_candidates W (new_outgoing_record W o og s) og1 = []).
    { unfold all_candidates. by rewrite Eai, Ecfg. }
    rewrite E0, app_nil_r in Ecand. rewrite Ecfg, app_nil_r in Eused.
    rewrite <- Ecand. split; [done|]. split; [done|].
    rewrite Ecalls, Eused. done.
  - match goal with |- context [thread_create_or_abort W ?c ?s1] =>
      destruct (Thr c s1) as (s' & q & Hres & Ht & Hq & Hq')
    end.
    exists s', ([Event_del o; Lookup_node (o_name og) (mutex s);
                 Connection_add (fresh (connections s)) (mutex s)] ++ t ++ q).
    split; [exact Hres|]. split.
    { rewrite Ht. fields. unfold prepared. cbn [trace]. by rewrite <- !app_assoc. }
    rewrite !tried_app, !resolver_calls_app, Hq, Hq', !app_nil_r.
    change (tried [Event_del o; Lookup_node (o_name og) (mutex s);
                   Connection_add (fresh (connections s)) (mutex s)]) with (@nil sockaddr_t).
    change (resolver_calls [Event_del o; Lookup_node (o_name og) (mutex s);
                   Connection_add (fresh (connections s)) (mutex s)])
      with (@nil (string * string)).
    cbn [app].
    split; [rewrite Ecand; by apply prefix_app_r|].
    split.
    + rewrite Ecand. destruct (tried t); [discriminate|reflexivity].
    + rewrite Ecalls. unfold requests. rewrite Eused, map_app. by apply prefix_app_r.
Qed.

End Setup_round.

(** ** The attempts try_outgoing_connections leaves *)

Section Pending.

Variable W : world.

Lemma steady_unallocated s s' t o :
  steady s s' t -> outgoings s' !! o = None -> outgoings s !! o = None.
Proof.
  intros (_ & N & _) H. specialize (N o). rewrite H in N.
  by destruct (outgoings s !! o).
Qed.

Lemma steady_allocated s s' t o og :
  steady s s' t -> outgoings s !! o = Some og ->
  exists og', outgoings s' !! o = Some og' /\ o_name og' = o_name og.
Proof.
  intros (_ & N & _) H. specialize (N o). rewrite H in N.
  destruct (outgoings s' !! o) as [og'|]; [|discriminate].
  exists og'. split; [done|]. cbn in N. congruence.
Qed.

(** The loop of [try_outgoing_connections] when it comes to its end. *)
Lemma connect_to_done cfg :
  forall s s', listed_live s -> connect_to W cfg s = Done tt s' ->
    exists new,
      outgoing_list s' = outgoing_list s ++ new
      /\ pending_names s' = pending_names s ++ valid_names W cfg
      /\ NoDup new
      /\ Forall (fun o => outgoings s !! o = None) new
      /\ (forall o og, outgoings s !! o = Some og ->
                       exists og', outgoings s' !! o = Some og' /\ o_name og' = o_name og)
      /\ listed_live s'.
Proof.
  induction cfg as [|e next IH]; intros s s' Hlive Hdone.
  - injection Hdone as <-. exists []. rewrite !app_nil_r.
    split_and!; [done|done|constructor|constructor| |done]. intros o og H. by exists og.
  - destruct (check_id W (value e)) eqn:Hid.
    + rewrite (connect_to_valid W e next s Hid) in Hdone.
      pose proof (listed_listed_live (value e) s Hlive) as Hlive1.
      destruct (setup_outgoing_connection_steady W (fresh (outgoings s))
                  (set_o_name (value e) zero_outgoing) (listed (value e) s)
                  (listed_lookup _ _)) as (s1 & t & [E|E] & S & _);
        rewrite E in Hdone; [|discriminate].
      destruct (IH s1 s' (listed_live_steady _ _ _ S Hlive1) Hdone)
        as (new & L & P & ND & F & K & Hlive').
      destruct (steady_allocated _ _ _ _ _ S (listed_lookup (value e) s))
        as (og1 & Hog1 & _).
      exists (fresh (outgoings s) :: new). split_and!.
      * rewrite L. destruct S as (-> & _).
        change (outgoing_list (listed (value e) s))
          with (outgoing_list s ++ [fresh (outgoings s)]).
        by rewrite <- app_assoc.
      * rewrite P, (pending_names_steady _ _ _ S), (listed_pending _ _ Hlive).
        unfold valid_names. cbn [fmap list_fmap].
        rewrite filter_cons_True by done. by rewrite <- app_assoc.
      * apply NoDup_cons. split; [|exact ND].
        intros Hin. rewrite Forall_forall in F. specialize (F _ Hin). congruence.
      * constructor; [apply fresh_unused|].
        eapply Forall_impl; [exact F|]. intros o Ho. cbn beta in Ho.
        apply (steady_unallocated _ _ _ _ S) in Ho.
        destruct (outgoings s !! o) as [og|] eqn:Eo; [|done].
        rewrite (listed_lookup_old (value e) s o) in Ho by (by rewrite Eo). congruence.
      * intros o og Ho.
        assert (Ho1 : outgoings (listed (value e) s) !! o = Some og).
        { rewrite listed_lookup_old; [done|by rewrite Ho]. }
        destruct (steady_allocated _ _ _ _ _ S Ho1) as (og' & Ho' & Hn').
        destruct (K o og' Ho') as (og'' & Ho'' & Hn'').
        exists og''. split; [done|congruence].
      * exact Hlive'.
    + rewrite (connect_to_invalid W e next s Hid) in Hdone.
      destruct (IH (logger (Invalid_name (file e) (line e)) s) s' Hlive Hdone)
        as (new & L & P & ND & F & K & Hlive').
      exists new. split_and!; try done.
      unfold valid_names. cbn [fmap list_fmap].
      rewrite filter_cons_False; [done|]. by rewrite Hid.
Qed.

(** A round returns whenever a thread can be created. *)
Lemma setup_outgoing_connection_returns o og s :
  (forall k, sys_thread_create W k = true) ->
  outgoings s !! o = Some og ->
  exists s', setup_outgoing_connection W o s = Done tt s'.
Proof.
  intros Hthr Ho.
  destruct (live_connection s (o_name og)) as [c'|] eqn:Hlive.
  { rewrite (setup_already_connected W o og c' s Ho Hlive). by eexists. }
  destruct (lookup_config (read_connection_config W (o_name og)) "Address")
    as [|e rest] eqn:Hcfg.
  { rewrite (setup_no_address W o og s Ho Hlive Hcfg). by eexists. }
  assert (Hne : lookup_config (read_connection_config W (o_name og)) "Address" <> [])
    by (by rewrite Hcfg).
  destruct (setup_round_cases W o og s Ho Hlive Hne)
    as (r1 & og1 & n & t & _ & _ & [(_ & _ & ->)|(a & fd & _ & _ & ->)]);
    match goal with |- context [thread_create_or_abort W ?c ?s1] =>
      destruct (thread_create_or_abort_cases W c s1) as [[_ ->]|[E _]];
        [by eexists|by rewrite Hthr in E]
    end.
Qed.

Lemma connect_to_returns cfg :
  (forall k, sys_thread_create W k = true) ->
  forall s, exists s', connect_to W cfg s = Done tt s'.
Proof.
  intros Hthr. induction cfg as [|e next IH]; intros s; [by eexists|].
  destruct (check_id W (value e)) eqn:Hid.
  - rewrite (connect_to_valid W e next s Hid).
    destruct (setup_outgoing_connection_returns (fresh (outgoings s))
                (set_o_name (value e) zero_outgoing) (listed (value e) s) Hthr
                (listed_lookup _ _)) as (s1 & ->).
    apply IH.
  - rewrite (connect_to_invalid W e next s Hid). apply IH.
Qed.

(** X7.  [try_outgoing_connections] (lines 507-530) returns whenever
    [thread_create] succeeds.  When it returns, the list of attempts holds
    exactly one attempt for every [ConnectTo] line whose name passes
    [check_id], in configuration order, duplicates included; whatever list
    there was before is dropped.  The attempts are pairwise different and
    newly allocated, and the attempts that existed before are neither
    freed nor renamed. *)
Theorem try_outgoing_connections_pending (s : state) :
  ((forall k, sys_thread_create W k = true) ->
   exists s', try_outgoing_connections W s = Done tt s')
  /\ forall s',
      try_outgoing_connections W s = Done tt s' ->
      pending_names s' = valid_names W (lookup_config (config_tree s) "ConnectTo")
      /\ length (outgoing_list s')
         = length (valid_names W (lookup_config (config_tree s) "ConnectTo"))
      /\ NoDup (outgoing_list s')
      /\ Forall (fun o => outgoings s !! o = None) (outgoing_list s')
      /\ (forall o og, outgoings s !! o = Some og ->
                       exists og', outgoings s' !! o = Some og' /\ o_name og' = o_name og).
Proof.
  unfold try_outgoing_connections. split; [intros Hthr; by apply connect_to_returns|].
  intros s' Hdone.
  destruct (connect_to_done _ (set_outgoing_list [] s) s' ltac:(constructor) Hdone)
    as (new & L & P & ND & F & K & Hlive).
  change (outgoing_list (set_outgoing_list [] s)) with (@nil nat) in L.
  change (pending_names (set_outgoing_list [] s)) with (@nil string) in P.
  change (config_tree (set_outgoing_list [] s)) with (config_tree s) in P.
  cbn [app] in L, P. rewrite L. split_and!; try done.
  rewrite <- P. unfold pending_names. rewrite L.
  unfold listed_live in Hlive. rewrite L in Hlive. clear -Hlive.
  induction new as [|o new IH]; [reflexivity|].
  apply Forall_cons in Hlive as [[og Ho] Hl].
  cbn [omap list_omap]. rewrite Ho. cbn. by rewrite <- IH.
Qed.

End Pending.

(** ** The accept loop *)

Section Accept_loop.

Variable W : world.

(** A turn that accepts a connection and gets its thread. *)
Lemma accept_turn_again l_tcp s :
  0 <= (sys_accept W (tick s) l_tcp).1 ->
  sys_thread_create W (S (tick s)) = true ->
  exists s1 r t,
    accept_turn W l_tcp s = Again s1
    /\ connections s1 = <[fresh (connections s) := r]> (connections s)
    /\ c_socket r = (sys_accept W (tick s) l_tcp).1
    /\ c_allow_request r = Some ID /\ c_thread r = true /\ c_outgoing r = None
    /\ connection_tree s1 = {[fresh (connections s)]} ∪ connection_tree s
    /\ outgoings s1 = outgoings s /\ outgoing_list s1 = outgoing_list s
    /\ event_tree s1 = event_tree s /\ node_tree s1 = node_tree s
    /\ mutex s1 = false
    /\ trace s1 = trace s ++ t
    /\ lock_events t = [Mutex_lock; Mutex_unlock]
    /\ registry_locks t = [true].
Proof.
  intros Hfd Hthr. rewrite (accept_turn_accepted W l_tcp s Hfd).
  destruct (thread_create_or_abort_cases W (fresh (connections s)) (accepted W l_tcp s))
    as [[_ ->]|[E _]];
    [|change (tick (accepted W l_tcp s)) with (S (tick s)) in E; by rewrite Hthr in E].
  eexists _,
    (set_c_thread true
       (set_c_allow_request (Some ID)
          (accepted_record W (sockaddrunmap W (sys_accept W (tick s) l_tcp).2)
             (sys_accept W (tick s) l_tcp).1 (now s) zero_connection))),
    (accepted_trace W l_tcp s
     ++ [Thread_create (fresh (connections s)) true; Mutex_unlock]).
  split; [reflexivity|].
  destruct s as [ct mt dbg cs ctr os ol nt et mx nw tk tr]. project.
  rewrite alter_insert_same.
  split_and!; try reflexivity.
  - by rewrite <- !app_assoc.
  - destruct dbg, (have_TCP_NODELAY W), (have_IPTOS_LOWDELAY W); reflexivity.
  - destruct dbg, (have_TCP_NODELAY W), (have_IPTOS_LOWDELAY W); reflexivity.
Qed.

Lemma size_dom_fresh {A} (m : gmap nat A) (x : A) :
  size (dom (<[fresh m := x]> m)) = S (size (dom m)).
Proof.
  rewrite dom_insert_L, size_union, size_singleton; [reflexivity|].
  apply disjoint_singleton_l, not_elem_of_dom, fresh_unused.
Qed.

(** X8.  While [accept] hands out descriptors and [thread_create]
    succeeds, [handle_new_meta_connection] (lines 450-495) never returns.
    Each turn allocates one record and registers it, takes the lock once
    before the registration and releases it once after the thread is
    created, so that the lock is free after every turn; the attempts and
    the timers are never touched. *)
Theorem accept_loop_keeps_turning (l_tcp : Z) :
  (forall k, 0 <= (sys_accept W k l_tcp).1) ->
  (forall k, sys_thread_create W k = true) ->
  forall turns s,
    handle_new_meta_connection W turns l_tcp s = None
    /\ exists s' t,
        after_turns W turns l_tcp s = Some s'
        /\ trace s' = trace s ++ t
        /\ lock_events t = lock_pairs turns
        /\ registry_locks t = repeat true turns
        /\ ((0 < turns)%nat -> mutex s' = false)
        /\ size (dom (connections s')) = (size (dom (connections s)) + turns)%nat
        /\ connection_tree s ⊆ connection_tree s'
        /\ outgoings s' = outgoings s /\ outgoing_list s' = outgoing_list s
        /\ event_tree s' = event_tree s.
Proof.
  intros Hacc Hthr turns. induction turns as [|turns IH]; intros s.
  - split; [reflexivity|]. exists s, []. rewrite app_nil_r, Nat.add_0_r.
    split_and!; try done. lia.
  - destruct (accept_turn_again l_tcp s (Hacc _) (Hthr _))
      as (s1 & r & t1 & E & Hcs & _ & _ & _ & _ & Hct & Hos & Hol & Het & _ & Hm & Ht
          & Hl & Hr).
    cbn [handle_new_meta_connection after_turns]. rewrite E.
    destruct (IH s1) as (IH1 & s' & t & Ea & Ht' & Hl' & Hr' & Hm' & Hsz & Hsub & Hos'
                         & Hol' & Het').
    split; [exact IH1|]. exists s', (t1 ++ t).
    split_and!.
    + exact Ea.
    + by rewrite Ht', Ht, <- app_assoc.
    + by rewrite lock_events_app, Hl, Hl'.
    + by rewrite registry_locks_app, Hr, Hr'.
    + intros _. destruct turns as [|turns]; [|apply Hm'; lia].
      cbn in Ea. by injection Ea as <-.
    + rewrite Hsz, Hcs, size_dom_fresh. lia.
    + etrans; [|exact Hsub]. rewrite Hct. apply union_subseteq_r.
    + by rewrite Hos'.
    + by rewrite Hol'.
    + by rewrite Het'.
Qed.

(** X14.  One turn of the accept loop (lines 458-493).  When [accept]
    fails the function logs and returns; no record is allocated or
    registered and the lock is not taken.  Otherwise the turn allocates
    one record with the name ["<unknown>"], the unmapped address of the
    peer, its host name, the accepted descriptor, the current time, the
    cipher, digest, MAC length and compression of the local node and [ID]
    as the only request allowed; it registers the record under the lock
    and sends the [ID] before it calls [thread_create].  If that call
    fails the process is aborted with the lock still held; if it succeeds
    the record has its thread and the lock is released. *)
Theorem accept_turn_outcome (l_tcp : Z) (s : state) :
  let fd := (sys_accept W (tick s) l_tcp).1 in
  let sa := sockaddrunmap W (sys_accept W (tick s) l_tcp).2 in
  let c := fresh (connections s) in
  (fd < 0 ->
   exists s',
     accept_turn W l_tcp s = Leave (Done tt s')
     /\ connections s' = connections s /\ connection_tree s' = connection_tree s
     /\ mutex s' = mutex s
     /\ trace s' = trace s ++ [Accept fd; Logger Accepting_failed])
  /\ (0 <= fd ->
      exists s' r (ok : bool) q,
        accept_turn W l_tcp s = (if ok then Again s' else Leave (Abort s'))
        /\ ok = sys_thread_create W (S (tick s))
        /\ connections s' = <[c := r]> (connections s)
        /\ c_name r = "<unknown>"%string
        /\ c_address r = Some sa /\ c_hostname r = Some (sockaddr2hostname W sa)
        /\ c_socket r = fd /\ c_last_ping_time r = now s
        /\ c_outcipher r = c_outcipher (myself_connection W)
        /\ c_outdigest r = c_outdigest (myself_connection W)
        /\ c_outmaclength r = c_outmaclength (myself_connection W)
        /\ c_outcompression r = c_outcompression (myself_connection W)
        /\ c_allow_request r = Some ID /\ c_outgoing r = None /\ c_thread r = ok
        /\ connection_tree s' = {[c]} ∪ connection_tree s
        /\ mutex s' = negb ok
        /\ trace s' = trace s ++ accepted_trace W l_tcp s ++ Thread_create c ok :: q
        /\ last (accepted_trace W l_tcp s) = Some (Send_id c)
        /\ lock_events (accepted_trace W l_tcp s) = [Mutex_lock]
        /\ lock_events q = if ok then [Mutex_unlock] else []).
Proof.
  cbv zeta. split.
  - intros Hfd. rewrite (accept_turn_failed W l_tcp s Hfd).
    eexists. split; [reflexivity|].
    destruct s. unfold logger, emit, ticked. cbn. by rewrite <- app_assoc.
  - intros Hfd. rewrite (accept_turn_accepted W l_tcp s Hfd).
    assert (Hlast : last (accepted_trace W l_tcp s) = Some (Send_id (fresh (connections s)))
                    /\ lock_events (accepted_trace W l_tcp s) = [Mutex_lock]).
    { unfold accepted_trace.
      destruct (debug_connections s), (have_TCP_NODELAY W), (have_IPTOS_LOWDELAY W);
        by split. }
    destruct Hlast as [Hlast Hlock].
    destruct (thread_create_or_abort_cases W (fresh (connections s)) (accepted W l_tcp s))
      as [[E ->]|[E ->]];
      change (tick (accepted W l_tcp s)) with (S (tick s)) in E.
    + eexists _,
        (set_c_thread true
           (set_c_allow_request (Some ID)
              (accepted_record W (sockaddrunmap W (sys_accept W (tick s) l_tcp).2)
                 (sys_accept W (tick s) l_tcp).1 (now s) zero_connection))),
        true, [Mutex_unlock].
      split; [reflexivity|]. split; [done|].
      split_and!; try done.
      * destruct s. project. by rewrite alter_insert_same.
      * destruct s. project. by rewrite <- !app_assoc.
    + eexists _,
        (set_c_allow_request (Some ID)
           (accepted_record W (sockaddrunmap W (sys_accept W (tick s) l_tcp).2)
              (sys_accept W (tick s) l_tcp).1 (now s) zero_connection)),
        false, [Logger Create_thread_failed].
      split; [reflexivity|]. split; [done|].
      split_and!; try done.
      destruct s. project. by rewrite <- !app_assoc.
Qed.

End Accept_loop.

(** ** finish_connecting *)

Section Finish.

Variable W : world.

(** X9.  [finish_connecting] (lines 307-316) changes one record and
    appends to the trace, nothing else.  In the record it clears the
    [connecting] flag that [do_outgoing_connection] sets and stamps the
    time; the descriptor, the address, the host name, the name and the
    attempt stay.  It sets the TCP options the platform has on the
    descriptor of the record, [TCP_NODELAY] before the type of service,
    and the request it sends last is the [ID] of the local node. *)
Theorem finish_connecting_outcome (c : nat) (r : connection_t) (s : state) :
  connections s !! c = Some r ->
  exists r' t,
    finish_connecting W c s
    = updated s (<[c := r']> (connections s)) (outgoings s) (tick s) t
    /\ c_connecting r' = false /\ c_last_ping_time r' = now s
    /\ c_socket r' = c_socket r /\ c_address r' = c_address r
    /\ c_hostname r' = c_hostname r /\ c_name r' = c_name r
    /\ c_outgoing r' = c_outgoing r /\ c_config_tree r' = c_config_tree r
    /\ c_allow_request r' = c_allow_request r /\ c_thread r' = c_thread r
    /\ last t = Some (Send_id c)
    /\ sockopts t
       = (if have_TCP_NODELAY W then [(c_socket r, TCP_NODELAY)] else [])
         ++ (if have_IPTOS_LOWDELAY W then [(c_socket r, IP_TOS_LOWDELAY)] else [])
    /\ logged t
       = if debug_connections s then [Connected_to (c_name r) (c_hostname r)] else [].
Proof.
  intros Hc. unfold finish_connecting. rewrite Hc.
  assert (Hc1 : forall m, connections (ifdebug_CONNECTIONS m s) !! c = Some r).
  { intros m. unfold ifdebug_CONNECTIONS. by destruct (debug_connections s). }
  rewrite (configure_tcp_live W c r _ (Hc1 _)). cbv beta.
  exists (set_c_connecting false (set_c_last_ping_time (now s) r)).
  exists ((if debug_connections s then [Logger (Connected_to (c_name r) (c_hostname r))] else [])
          ++ (if have_TCP_NODELAY W then [Setsockopt (c_socket r) TCP_NODELAY] else [])
          ++ (if have_IPTOS_LOWDELAY W then [Setsockopt (c_socket r) IP_TOS_LOWDELAY] else [])
          ++ [Send_id c]).
  split.
  - unfold ifdebug_CONNECTIONS.
    destruct s as [ct mt dbg cs ctr os ol nt et mx nw tk tr].
    cbn [connections debug_connections now outgoings tick] in *.
    destruct dbg, (have_TCP_NODELAY W), (have_IPTOS_LOWDELAY W);
      apply state_ext; project; cbn [updated config_tree maxtimeout debug_connections
        connections connection_tree outgoings outgoing_list node_tree event_tree
        mutex now tick trace];
      try reflexivity;
      try (by rewrite (alter_Some _ cs c r Hc), alter_insert_same);
      repeat first [rewrite <- app_assoc | rewrite <- app_comm_cons]; reflexivity.
  - split_and!; try reflexivity.
    + destruct (debug_connections s), (have_TCP_NODELAY W), (have_IPTOS_LOWDELAY W);
        reflexivity.
    + destruct (debug_connections s), (have_TCP_NODELAY W), (have_IPTOS_LOWDELAY W);
        reflexivity.
    + destruct (debug_connections s), (have_TCP_NODELAY W), (have_IPTOS_LOWDELAY W);
        reflexivity.
Qed.

End Finish.

(** ** Listening and datagram sockets *)

Lemma open_after_app l1 l2 open :
  open_after (l1 ++ l2) open = open_after l2 (open_after l1 open).
Proof.
  revert open. induction l1 as [|e l1 IH]; intros open; [reflexivity|].
  destruct e; cbn [app open_after]; apply IH.
Qed.

Lemma open_after_keeps l open :
  forallb keeps_descriptors l = true -> open_after l open = open.
Proof.
  revert open. induction l as [|e l IH]; intros open H; [reflexivity|].
  cbn [forallb] in H. apply andb_true_iff in H as [He Hl].
  destruct e; try discriminate; cbn [open_after]; by apply IH.
Qed.

Lemma tuning_keeps l :
  forallb tuning_call l = true -> forallb keeps_descriptors l = true.
Proof.
  rewrite !forallb_forall. intros H e He. specialize (H e He). by destruct e.
Qed.

Lemma tuning_no_bind l d a st : forallb tuning_call l = true -> Call_bind d a st ∉ l.
Proof.
  rewrite forallb_forall. intros H Hin. apply list_elem_of_In in Hin.
  by specialize (H _ Hin).
Qed.

Lemma options_set_app fd l1 l2 :
  options_set fd (l1 ++ l2) = options_set fd l1 ++ options_set fd l2.
Proof. apply flat_map_app. Qed.

Lemma socket_logged_app l1 l2 :
  socket_logged (l1 ++ l2) = socket_logged l1 ++ socket_logged l2.
Proof. apply flat_map_app. Qed.

Lemma set_tick_set_tick n m s : set_tick n (set_tick m s) = set_tick n s.
Proof. by destruct s. Qed.

Lemma set_tick_id s : set_tick (tick s) s = s.
Proof. by destruct s. Qed.

Lemma ticked_set_tick s : ticked s = set_tick (S (tick s)) s.
Proof. by destruct s. Qed.

Lemma buffer_warnings_app l1 l2 :
  buffer_warnings (l1 ++ l2) = buffer_warnings l1 ++ buffer_warnings l2.
Proof. apply flat_map_app. Qed.

Lemma tunes_refl fd x : tunes fd [] [] x x.
Proof.
  exists []. cbn. rewrite Nat.add_0_r, set_tick_id, app_nil_r.
  split; [by destruct x|done].
Qed.

Lemma tunes_trans fd o1 o2 m1 m2 x x1 x2 :
  tunes fd o1 m1 x x1 -> tunes fd o2 m2 x1 x2 -> tunes fd (o1 ++ o2) (m1 ++ m2) x x2.
Proof.
  intros (l1 & -> & O1 & K1 & L1 & B1) (l2 & -> & O2 & K2 & L2 & B2).
  exists (l1 ++ l2). cbn [sys calls]. split_and!.
  - change (tick (set_tick ?n _)) with n. rewrite set_tick_set_tick, <- app_assoc.
    do 2 f_equal. rewrite length_app. lia.
  - by rewrite options_set_app, O1, O2.
  - by rewrite forallb_app, K1, K2.
  - rewrite socket_logged_app. by apply sublist_app.
  - by rewrite socket_logged_app, buffer_warnings_app, B1, B2.
Qed.

Lemma tunes_let fd o1 o2 m1 m2 x a (f : sockets -> sockets) :
  tunes fd o1 m1 x a -> (forall y, tunes fd o2 m2 y (f y)) ->
  tunes fd (o1 ++ o2) (m1 ++ m2) x (let y := a in f y).
Proof. intros H1 H2. cbv zeta. by eapply tunes_trans. Qed.

Ltac tunes_step :=
  lazymatch goal with
  | |- tunes ?fd _ _ ?x (let y := ?a in @?f y) =>
      refine (tunes_let fd _ _ _ _ x a f _ _); [|intros ?]
  end.

Section Sockets_proofs.

Variable W : world.
Variable P : platform.

Lemma tunes_setsockopt fd opt x :
  plain_option opt = true -> tunes fd [opt] [] x (setsockopt P fd opt x).2.
Proof.
  intros Hopt.
  exists [Call_setsockopt fd opt (os_setsockopt P (tick (sys x)) fd opt)].
  unfold setsockopt, called. cbn [snd length options_set flat_map app].
  rewrite Z.eqb_refl, ticked_set_tick, Nat.add_1_r.
  split_and!; try done. by destruct opt.
Qed.

Lemma tunes_if fd (b : bool) opt x :
  plain_option opt = true ->
  tunes fd (if b then [opt] else []) [] x (if b then (setsockopt P fd opt x).2 else x).
Proof. intros H. destruct b; [by apply tunes_setsockopt|apply tunes_refl]. Qed.

(** Lines 229-233: a buffer size that is set, and the warning when the
    call fails. *)
Lemma tunes_buffer fd (b : bool) opt m x :
  (forall st, buffer_warnings [Call_setsockopt fd opt st]
              = if st =? 0 then [] else [m]) ->
  tunes fd (if b then [opt] else []) (if b then [m] else []) x
    (if b then
       let '(status, x) := setsockopt P fd opt x in
       if negb (status =? 0) then socket_logger m x else x
     else x).
Proof.
  intros Hw. destruct b; [|apply tunes_refl].
  unfold setsockopt, called, socket_logger. cbn [sys calls].
  destruct (Z.eqb_spec (os_setsockopt P (tick (sys x)) fd opt) 0) as [E|E]; cbn [negb].
  - exists [Call_setsockopt fd opt (os_setsockopt P (tick (sys x)) fd opt)].
    cbn [snd length options_set flat_map app sys calls].
    rewrite Z.eqb_refl, ticked_set_tick, Nat.add_1_r.
    split_and!; try done; [apply sublist_nil_l|].
    by rewrite Hw, E.
  - exists [Call_setsockopt fd opt (os_setsockopt P (tick (sys x)) fd opt); Call_logger m].
    cbn [snd length options_set flat_map app sys calls].
    rewrite Z.eqb_refl, ticked_set_tick, Nat.add_1_r, <- app_assoc.
    split_and!; try done.
    change [Call_setsockopt fd opt (os_setsockopt P (tick (sys x)) fd opt); Call_logger m]
      with ([Call_setsockopt fd opt (os_setsockopt P (tick (sys x)) fd opt)]
            ++ [Call_logger m]).
    rewrite buffer_warnings_app, Hw.
    by destruct (Z.eqb_spec (os_setsockopt P (tick (sys x)) fd opt) 0).
Qed.

(** Lines 244-270: the ban on fragmentation, by the first of two ways. *)
Lemma tunes_pmtu fd (h1 h2 p : bool) o1 o2 x :
  plain_option o1 = true -> plain_option o2 = true ->
  tunes fd (if p then if h1 then [o1] else if h2 then [o2] else [] else []) [] x
    (if h1 then if p then (setsockopt P fd o1 x).2 else x
     else if h2 then if p then (setsockopt P fd o2 x).2 else x
          else x).
Proof.
  intros H1 H2. destruct h1, h2, p; first [by apply tunes_setsockopt|apply tunes_refl].
Qed.

(** Lines 226-270 ask for the options of [vpn_options], whatever the calls
    answer, and log at most a warning for each buffer size that is set. *)
Lemma tune_vpn_in_socket_calls nfd sa x :
  tunes nfd (vpn_options P sa)
    ((if udp_rcvbuf P =? 0 then [] else [Cant_set_UDP_SO_RCVBUF (udp_rcvbuf P)])
     ++ (if udp_sndbuf P =? 0 then [] else [Cant_set_UDP_SO_SNDBUF (udp_sndbuf P)]))
    x (tune_vpn_in_socket P nfd sa x).
Proof.
  eassert (H : tunes nfd _ _ x (tune_vpn_in_socket P nfd sa x)).
  { cbv beta delta [tune_vpn_in_socket].
    tunes_step; [by apply tunes_setsockopt|].
    tunes_step; [apply tunes_buffer|].
    { intros st. unfold buffer_warnings. cbn. by destruct (st =? 0). }
    tunes_step; [apply tunes_buffer|].
    { intros st. unfold buffer_warnings. cbn. by destruct (st =? 0). }
    tunes_step; [by apply tunes_if|].
    tunes_step; [by apply tunes_pmtu|].
    by apply tunes_pmtu. }
  unfold vpn_options.
  destruct (udp_rcvbuf P =? 0), (udp_sndbuf P =? 0),
    (have_IPPROTO_IPV6_V6ONLY P && (sa_family sa =? AF_INET6)),
    (option_pmtu_discovery P); cbn [negb app] in *;
    rewrite ?app_nil_r in *; exact H.
Qed.

Lemma set_tick_updated n s :
  set_tick n s = updated s (connections s) (outgoings s) n [].
Proof. destruct s. unfold updated. cbn. by rewrite app_nil_r. Qed.


(** X11.  [setup_listen_socket] (lines 155-212) returns -1 or the
    descriptor [socket] gave it, and leaves no descriptor open when it
    returns -1.  On the descriptor it asks for the options of
    [listen_options], in that order: the interface name is cut to
    [IFNAMSIZ] characters, one more than [bind_to_interface] keeps.  Only
    a failure to bind the interface stops it among these; the address is
    then never bound.  A descriptor is returned only after [bind] on the
    address and then [listen] with a backlog of 3 both answered 0, and
    these are the last two calls.  Every failure after [socket] closes
    the descriptor first and logs one message; the state of the program
    is changed only in the count of system calls. *)
Theorem setup_listen_socket_outcome (sa : sockaddr_t) (x : sockets) :
  let fd := os_socket P (tick (sys x)) (sa_family sa) SOCK_STREAM in
  let nfd := (setup_listen_socket W P sa x).1 in
  let x' := (setup_listen_socket W P sa x).2 in
  exists l n,
    calls x' = calls x ++ Call_socket (sa_family sa) SOCK_STREAM fd :: l
    /\ sys x' = set_tick n (sys x)
    /\ (nfd = -1 \/ (0 <= nfd /\ nfd = fd))
    /\ open_after (Call_socket (sa_family sa) SOCK_STREAM fd :: l) []
       = (if nfd <? 0 then [] else [nfd])
    /\ (fd < 0 ->
        nfd = -1
        /\ l = if debug_status P then [Call_logger Creating_metasocket_failed] else [])
    /\ (0 <= fd ->
        options_set fd l = listen_options W sa (config_tree (sys x))
        /\ (forall iface,
              SO_BINDTODEVICE_ifreq iface ∈ options_set fd l ->
              exists name,
                get_config_string (lookup_config (config_tree (sys x)) "BindToInterface")
                = Some name
                /\ String.length iface = Nat.min IFNAMSIZ (String.length name)
                /\ String.prefix iface name = true)
        /\ (nfd = -1 ->
            (exists l0 m, l = l0 ++ [Call_closesocket fd; Call_logger m])
            /\ forall backlog, Call_listen fd backlog 0 ∉ l)
        /\ (0 <= nfd ->
            exists l0,
              l = l0 ++ [Call_bind nfd sa 0; Call_listen nfd 3 0]
              /\ forallb tuning_call l0 = true)).
Proof.
  cbv zeta. unfold setup_listen_socket.
  set (fd := os_socket P (tick (sys x)) (sa_family sa) SOCK_STREAM).
  set (x0 := called (Call_socket (sa_family sa) SOCK_STREAM fd) x).
  assert (Hopen : forall l1 k,
            forallb tuning_call l1 = true ->
            open_after (Call_socket (sa_family sa) SOCK_STREAM fd :: l1 ++ k) []
            = open_after k (if fd <? 0 then [] else [fd])).
  { intros l1 k K1.
    change (Call_socket (sa_family sa) SOCK_STREAM fd :: l1 ++ k)
      with ([Call_socket (sa_family sa) SOCK_STREAM fd] ++ l1 ++ k).
    by rewrite !open_after_app, (open_after_keeps l1) by (by apply tuning_keeps). }
  destruct (Z.ltb_spec fd 0) as [Hfd|Hfd].
  - exists (if debug_status P then [Call_logger Creating_metasocket_failed] else []),
      (S (tick (sys x))).
    cbn [fst snd].
    split_and!.
    + destruct (debug_status P); subst x0; cbn [socket_logger called sys calls];
        by rewrite <- ?app_assoc.
    + destruct (debug_status P); subst x0; cbn [socket_logger called sys calls];
        by rewrite ticked_set_tick.
    + by left.
    + destruct (debug_status P); cbn; by destruct (Z.ltb_spec fd 0); [|lia].
    + done.
    + lia.
  - set (x2 := if have_IPV6_V6ONLY W && (sa_family sa =? AF_INET6)
               then (setsockopt P fd (SOL_IPV6_V6ONLY 1)
                       (setsockopt P fd (SO_REUSEADDR 1) x0).2).2
               else (setsockopt P fd (SO_REUSEADDR 1) x0).2).
    assert (T : tunes fd ([SO_REUSEADDR 1]
                          ++ if have_IPV6_V6ONLY W && (sa_family sa =? AF_INET6)
                             then [SOL_IPV6_V6ONLY 1] else []) ([] ++ []) x0 x2).
    { eapply tunes_trans; [by apply tunes_setsockopt|by apply tunes_if]. }
    destruct T as (l1 & E1 & O1 & K1 & _).
    rewrite E1. clear x2 E1.
    set (opts := [SO_REUSEADDR 1] ++ _) in *.
    subst x0. cbn [sys calls called].
    rewrite ticked_set_tick, set_tick_set_tick. cbn [tick set_tick].
    change (tick (set_tick ?n _)) with n.
    set (n1 := (S (tick (sys x)) + length opts)%nat).
    unfold listen_bind_to_interface, listen_options. cbn [sys calls].
    change (config_tree (set_tick n1 (sys x))) with (config_tree (sys x)).
    fold opts.
    assert (Names : forall iface,
              SO_BINDTODEVICE_ifreq iface
              ∈ opts ++ match get_config_string
                                (lookup_config (config_tree (sys x)) "BindToInterface") with
                        | Some iface =>
                            if have_SO_BINDTODEVICE W
                            then [SO_BINDTODEVICE_ifreq (substring 0 IFNAMSIZ iface)] else []
                        | None => []
                        end ->
              exists name,
                get_config_string (lookup_config (config_tree (sys x)) "BindToInterface")
                = Some name
                /\ String.length iface = Nat.min IFNAMSIZ (String.length name)
                /\ String.prefix iface name = true).
    { intros iface Hin. apply elem_of_app in Hin as [Hin|Hin].
      - subst opts. apply elem_of_app in Hin as [Hin|Hin].
        + apply list_elem_of_singleton in Hin. discriminate.
        + destruct (_ && _); [|by apply elem_of_nil in Hin].
          apply list_elem_of_singleton in Hin. discriminate.
      - destruct (get_config_string _) as [name|]; [|by apply elem_of_nil in Hin].
        destruct (have_SO_BINDTODEVICE W); [|by apply elem_of_nil in Hin].
        apply list_elem_of_singleton in Hin. injection Hin as ->.
        exists name. split; [done|]. split; [apply substring_length|apply substring_prefix]. }
    assert (Tail : forall k l2 (opts2 : list socket_option),
              options_set fd l2 = opts2 ->
              forallb tuning_call l2 = true ->
              let y := {| sys := set_tick k (sys x);
                          calls := (calls x ++ [Call_socket (sa_family sa) SOCK_STREAM fd])
                                   ++ l1 ++ l2 |} in
              let res :=
                (let '(status, x1) := bind P fd sa y in
                 if negb (status =? 0)
                 then (-1, socket_logger (Cant_bind_to_address_tcp (sockaddr2hostname W sa))
                             (closesocket fd x1))
                 else let '(status0, x3) := listen P fd 3 x1 in
                      if negb (status0 =? 0)
                      then (-1, socket_logger System_call_listen_failed (closesocket fd x3))
                      else (fd, x3)) in
              exists l n,
                calls res.2 = calls x ++ Call_socket (sa_family sa) SOCK_STREAM fd :: l
                /\ sys res.2 = set_tick n (sys x)
                /\ (res.1 = -1 \/ (0 <= res.1 /\ res.1 = fd))
                /\ open_after (Call_socket (sa_family sa) SOCK_STREAM fd :: l) []
                   = (if res.1 <? 0 then [] else [res.1])
                /\ options_set fd l = opts ++ opts2
                /\ (res.1 = -1 ->
                    (exists l0 m, l = l0 ++ [Call_closesocket fd; Call_logger m])
                    /\ forall backlog, Call_listen fd backlog 0 ∉ l)
                /\ (0 <= res.1 ->
                    exists l0,
                      l = l0 ++ [Call_bind res.1 sa 0; Call_listen res.1 3 0]
                      /\ forallb tuning_call l0 = true)).
    { intros k l2 opts2 O2 K2. cbv zeta.
      assert (K12 : forallb tuning_call (l1 ++ l2) = true)
        by (by rewrite forallb_app, K1, K2).
      assert (NL : forall backlog st, Call_listen fd backlog st ∉ l1 ++ l2).
      { intros backlog st Hin. apply list_elem_of_In in Hin.
        rewrite forallb_forall in K12. by specialize (K12 _ Hin). }
      unfold bind, listen, closesocket, called, socket_logger. cbn [sys calls tick].
      rewrite ?ticked_set_tick, ?set_tick_set_tick. cbn [tick set_tick].
      change (tick (set_tick ?n _)) with n.
      destruct (Z.eqb_spec (os_bind P k fd sa) 0) as [Eb|Eb]; cbn [negb fst snd sys calls].
      - rewrite ?ticked_set_tick, ?set_tick_set_tick. cbn [tick set_tick].
        change (tick (set_tick ?n _)) with n.
        destruct (Z.eqb_spec (os_listen P (S k) fd 3) 0) as [El|El];
          cbn [negb fst snd sys calls].
        + exists ((l1 ++ l2) ++ [Call_bind fd sa 0; Call_listen fd 3 0]), (S (S k)).
          rewrite Eb, El. split_and!.
          * rewrite <- !app_assoc. reflexivity.
          * reflexivity.
          * right. by split.
          * rewrite Hopen by done. cbn [open_after app].
            by destruct (Z.ltb_spec fd 0); [lia|].
          * rewrite !options_set_app, O1, O2. cbn. by rewrite app_nil_r.
          * lia.
          * intros _. by exists (l1 ++ l2).
        + exists ((l1 ++ l2 ++ [Call_bind fd sa 0; Call_listen fd 3 (os_listen P (S k) fd 3)])
                  ++ [Call_closesocket fd; Call_logger System_call_listen_failed]),
            (S (S (S k))).
          rewrite Eb. rewrite ?ticked_set_tick, ?set_tick_set_tick. cbn [tick set_tick].
          split_and!.
          * rewrite <- !app_assoc. reflexivity.
          * reflexivity.
          * by left.
          * rewrite <- !app_assoc, app_assoc, Hopen by done. cbn [open_after app].
            rewrite filter_cons_False by (intros H1; by apply H1). done.
          * rewrite !options_set_app, O1, O2. cbn. by rewrite !app_nil_r.
          * intros _. split; [by eexists _, _|].
            intros backlog Hin. rewrite <- !app_assoc, app_assoc in Hin.
            apply elem_of_app in Hin as [Hin|Hin]; [by apply (NL backlog 0)|].
            apply elem_of_cons in Hin as [Hin|Hin]; [discriminate|].
            apply elem_of_cons in Hin as [Hin|Hin]; [injection Hin as _ Hst; lia|].
            apply elem_of_cons in Hin as [Hin|Hin]; [discriminate|].
            apply list_elem_of_singleton in Hin. discriminate.
          * lia.
      - exists ((l1 ++ l2 ++ [Call_bind fd sa (os_bind P k fd sa)])
                ++ [Call_closesocket fd;
                    Call_logger (Cant_bind_to_address_tcp (sockaddr2hostname W sa))]),
          (S (S k)).
        rewrite ?ticked_set_tick, ?set_tick_set_tick. cbn [tick set_tick].
        split_and!.
        + rewrite <- !app_assoc. reflexivity.
        + reflexivity.
        + by left.
        + rewrite <- !app_assoc, app_assoc, Hopen by done. cbn [open_after app].
          rewrite filter_cons_False by (intros H1; by apply H1). done.
        + rewrite !options_set_app, O1, O2. cbn. by rewrite !app_nil_r.
        + intros _. split; [by eexists _, _|].
          intros backlog Hin. rewrite <- !app_assoc, app_assoc in Hin.
          apply elem_of_app in Hin as [Hin|Hin]; [by apply (NL backlog 0)|].
          apply elem_of_cons in Hin as [Hin|Hin]; [discriminate|].
          apply elem_of_cons in Hin as [Hin|Hin]; [discriminate|].
          apply list_elem_of_singleton in Hin. discriminate.
        + lia. }
    destruct (get_config_string (lookup_config (config_tree (sys x)) "BindToInterface"))
      as [iface|] eqn:Eif.
    + destruct (have_SO_BINDTODEVICE W) eqn:Ehave.
      * unfold setsockopt, called. cbn [sys calls tick set_tick].
        change (tick (set_tick ?n _)) with n.
        rewrite ticked_set_tick, set_tick_set_tick. cbn [tick set_tick].
        set (name := substring 0 IFNAMSIZ iface) in *.
        destruct (Z.eqb_spec (os_setsockopt P n1 fd (SO_BINDTODEVICE_ifreq name)) 0)
          as [Es|Es]; cbn [negb].
        -- destruct (Tail (S n1) [Call_setsockopt fd (SO_BINDTODEVICE_ifreq name)
                                    (os_setsockopt P n1 fd (SO_BINDTODEVICE_ifreq name))]
                       [SO_BINDTODEVICE_ifreq name])
             as (l & n & H1 & H2 & H3 & H4 & H5 & H6 & H7).
           { cbn. by rewrite Z.eqb_refl. }
           { done. }
           unfold opts in *. cbn [app] in *. rewrite <- ?app_assoc, ?app_nil_r in *.
           exists l, n.
           split_and!; [done|done|done|done|intros; lia|].
           intros _. rewrite H5.
           split_and!; [done|exact Names|exact H6|exact H7].
        -- unfold closesocket, called, socket_logger. cbn [fst snd sys calls].
           rewrite ticked_set_tick, set_tick_set_tick. cbn [tick set_tick].
           exists (l1 ++ [Call_setsockopt fd (SO_BINDTODEVICE_ifreq name)
                            (os_setsockopt P n1 fd (SO_BINDTODEVICE_ifreq name));
                          Call_closesocket fd;
                          Call_logger (Cant_bind_listen_socket_to_interface iface)]),
             (S (S n1)).
           split_and!.
           ++ rewrite <- !app_assoc. reflexivity.
           ++ reflexivity.
           ++ by left.
           ++ rewrite Hopen by done. cbn [open_after app].
              rewrite filter_cons_False by (intros H1; by apply H1). done.
           ++ lia.
           ++ intros _.
              assert (Eo : options_set fd
                             (l1 ++ [Call_setsockopt fd (SO_BINDTODEVICE_ifreq name)
                                       (os_setsockopt P n1 fd (SO_BINDTODEVICE_ifreq name));
                                     Call_closesocket fd;
                                     Call_logger (Cant_bind_listen_socket_to_interface iface)])
                           = opts ++ [SO_BINDTODEVICE_ifreq name]).
              { rewrite options_set_app, O1. cbn. by rewrite Z.eqb_refl. }
              rewrite Eo. clear Eo. unfold opts in *. split_and!.
              ** cbn [app]. by rewrite <- ?app_assoc.
              ** exact Names.
              ** intros _. split.
                 { exists (l1 ++ [Call_setsockopt fd (SO_BINDTODEVICE_ifreq name)
                                    (os_setsockopt P n1 fd (SO_BINDTODEVICE_ifreq name))]),
                     (Cant_bind_listen_socket_to_interface iface).
                   by rewrite <- app_assoc. }
                 intros backlog Hin.
                 apply elem_of_app in Hin as [Hin|Hin].
                 { apply list_elem_of_In in Hin. rewrite forallb_forall in K1.
                   by specialize (K1 _ Hin). }
                 apply elem_of_cons in Hin as [Hin|Hin]; [discriminate|].
                 apply elem_of_cons in Hin as [Hin|Hin]; [discriminate|].
                 apply list_elem_of_singleton in Hin. discriminate.
              ** lia.
      * unfold socket_logger. cbn [sys calls].
        destruct (Tail n1 [Call_logger BindToInterface_not_supported] [])
          as (l & n & H1 & H2 & H3 & H4 & H5 & H6 & H7); [done|done|].
        unfold opts in *. cbn [app] in *. rewrite <- ?app_assoc, ?app_nil_r in *.
        exists l, n.
        split_and!; [done|done|done|done|intros; lia|].
        intros _. rewrite H5.
        split_and!; [done|exact Names|exact H6|exact H7].
    + destruct (Tail n1 [] []) as (l & n & H1 & H2 & H3 & H4 & H5 & H6 & H7); [done|done|].
      unfold opts in *. cbn [app] in *. rewrite <- ?app_assoc, ?app_nil_r in *.
      exists l, n.
      split_and!; [done|done|done|done|intros; lia|].
      intros _. rewrite H5.
      split_and!; [done|exact Names|exact H6|exact H7].
Qed.

End Sockets_proofs.

(** ** One call of socket for each candidate *)

Lemma socket_results_app t t' :
  socket_results (t ++ t') = socket_results t ++ socket_results t'.
Proof. apply flat_map_app. Qed.

Lemma calm_nil : calm [].
Proof. constructor. Qed.

Lemma calm_app t t' : calm t -> calm t' -> calm (t ++ t').
Proof. apply Forall_app_2. Qed.

Lemma calm_one e : calm_event e = true -> calm [e].
Proof. intros H. by constructor. Qed.

Lemma calm_quiet t : calm t -> quiet t.
Proof.
  intros H. eapply Forall_impl; [exact H|]. intros e He. by destruct e.
Qed.

Lemma calm_sockets t : calm t -> socket_results t = [].
Proof.
  induction 1 as [|e t He _ IH]; [done|].
  change (e :: t) with ([e] ++ t). rewrite socket_results_app, IH.
  by destruct e.
Qed.

Section Calm.

Variable W : world.

Lemma bind_to_interface_calm sd s cs os n t :
  exists b n' t',
    bind_to_interface W sd (updated s cs os n t) = (b, updated s cs os n' (t ++ t'))
    /\ calm t'.
Proof.
  unfold bind_to_interface. cbn [config_tree updated tick].
  destruct (get_config_string _) as [iface|].
  - destruct (have_SO_BINDTODEVICE W).
    + rewrite ticked_updated, emit_updated.
      destruct (_ =? 0).
      * eexists _, _, _. split; [reflexivity|]. by apply calm_one.
      * rewrite logger_updated, <- app_assoc.
        eexists _, _, _. split; [reflexivity|].
        apply calm_app; by apply calm_one.
    + rewrite logger_updated. eexists _, _, _. split; [reflexivity|]. by apply calm_one.
  - exists true, n, []. rewrite app_nil_r. split; [reflexivity|apply calm_nil].
Qed.

Lemma bind_loop_calm fd a l st s cs os n t :
  exists st' n' t',
    bind_loop W fd a l st (updated s cs os n t) = (st', updated s cs os n' (t ++ t'))
    /\ calm t'.
Proof.
  destruct (bind_loop_statuses W fd a l st s cs os n t) as (sts & -> & _).
  eexists _, _, _. split; [reflexivity|].
  clear. induction sts as [|x sts IH]; [apply calm_nil|]. by constructor.
Qed.

Lemma bind_to_address_calm c r s cs os n t :
  cs !! c = Some r -> 0 <= c_socket r ->
  exists b n' t',
    bind_to_address W c (updated s cs os n t) = Done b (updated s cs os n' (t ++ t'))
    /\ calm t'.
Proof.
  intros Hc Hfd. unfold bind_to_address. cbn [connections config_tree updated tick].
  rewrite Hc. destruct (Z.ltb_spec (c_socket r) 0); [lia|].
  destruct (get_config_string _) as [node|].
  - rewrite ticked_updated, emit_updated.
    destruct (sys_getaddrinfo W n node _) as [[ai_list ai_next]|].
    + destruct (bind_loop_calm (c_socket r) ai_list (ai_list :: ai_next) (-1)
                  s cs os (S n) (t ++ [Getaddrinfo node
                     match c_address r with Some a => sa_family a | None => AF_UNSPEC end]))
        as (st' & n' & t' & E & Q).
      rewrite E. destruct (st' =? 0); cbn [negb].
      * rewrite ifdebug_updated, <- !app_assoc.
        eexists _, _, _. split; [reflexivity|].
        apply calm_app; [by apply calm_one|]. apply calm_app; [done|].
        destruct (debug_connections s); [by apply calm_one|apply calm_nil].
      * rewrite logger_updated, <- !app_assoc.
        eexists _, _, _. split; [reflexivity|].
        apply calm_app; [by apply calm_one|]. apply calm_app; [done|by apply calm_one].
    + rewrite logger_updated, <- app_assoc.
      eexists _, _, _. split; [reflexivity|].
      apply calm_app; by apply calm_one.
  - exists true, n, []. rewrite app_nil_r. split; [reflexivity|apply calm_nil].
Qed.

Lemma configure_tcp_calm c r s cs os n t :
  cs !! c = Some r ->
  exists t', configure_tcp W c (updated s cs os n t) = updated s cs os n (t ++ t')
             /\ calm t'.
Proof.
  intros Hc. unfold configure_tcp. cbn [connections updated]. rewrite Hc.
  exists ((if have_TCP_NODELAY W then [Setsockopt (c_socket r) TCP_NODELAY] else [])
          ++ if have_IPTOS_LOWDELAY W then [Setsockopt (c_socket r) IP_TOS_LOWDELAY] else []).
  split.
  - destruct (have_TCP_NODELAY W), (have_IPTOS_LOWDELAY W);
      rewrite ?emit_updated, <- ?app_assoc, ?app_nil_r; reflexivity.
  - apply calm_app.
    + destruct (have_TCP_NODELAY W); [by apply calm_one|apply calm_nil].
    + destruct (have_IPTOS_LOWDELAY W); [by apply calm_one|apply calm_nil].
Qed.

(** Lines 364-396 for the candidate [a]: one call of [socket], whose
    answer decides between the next pass and the return. *)
Lemma try_candidate_socket c o r og a ai_next s cs os n t :
  cs !! c = Some r -> os !! o = Some og -> o_aip og = a :: ai_next ->
  let fd := if sys_socket W n (sa_family a) <? 0 then -1 else sys_socket W n (sa_family a) in
  exists n' q,
    quiet q /\ socket_results q = [fd] /\
    try_candidate W c o r (updated s cs os n t)
    = if fd =? -1
      then Goto_begin (updated s (<[c := candidate_record W a (-1) r]> cs)
                         (<[o := set_o_aip ai_next og]> os) n'
                         (t ++ Sockaddr2hostname a :: q))
      else Return (Done tt (updated s
                              (<[c := set_c_connecting true (candidate_record W a fd r)]> cs)
                              (<[o := set_o_aip ai_next og]> os) n'
                              (t ++ Sockaddr2hostname a :: q))).
Proof.
  intros Hc Ho Eaip. cbv zeta. unfold try_candidate. cbn [outgoings updated]. rewrite Ho, Eaip.
  rewrite with_connection_updated, with_outgoing_updated, emit_updated,
    with_connection_updated, ifdebug_updated, socket_updated.
  cbv zeta.
  rewrite (alter_Some _ _ _ _ Hc), alter_insert_same, (alter_Some _ _ _ _ Ho).
  set (fd := if sys_socket W n (sa_family a) <? 0 then -1 else sys_socket W n (sa_family a)).
  rewrite with_connection_updated, alter_insert_same.
  change (set_c_socket fd (set_c_hostname (Some (sockaddr2hostname W a))
            (set_c_address (Some a) r))) with (candidate_record W a fd r).
  set (dbg := if debug_connections s then [Logger (Trying_to_connect (c_name r) (sockaddr2hostname W a))] else []).
  assert (Qdbg : calm dbg).
  { subst dbg. destruct (debug_connections s); [by apply calm_one|apply calm_nil]. }
  destruct (socket_result W n (sa_family a)) as [Hfd|Hfd]; fold fd in Hfd.
  - rewrite Hfd. cbn [Z.eqb Pos.eqb]. rewrite ifdebug_updated.
    exists (S n), (dbg ++ [Socket (sa_family a) (-1)]
                   ++ if debug_connections s
                      then [Logger (Creating_socket_failed (sockaddr2hostname W a))] else []).
    assert (Ql : calm (if debug_connections s
                       then [Logger (Creating_socket_failed (sockaddr2hostname W a))] else [])).
    { destruct (debug_connections s); [by apply calm_one|apply calm_nil]. }
    split.
    { apply quiet_app; [by apply calm_quiet|]. apply quiet_app; [by apply quiet_one|].
      by apply calm_quiet. }
    split.
    { by rewrite !socket_results_app, (calm_sockets _ Qdbg), (calm_sockets _ Ql). }
    do 2 f_equal. rewrite <- !app_assoc. reflexivity.
  - destruct (Z.eqb_spec fd (-1)) as [E|_]; [lia|].
    set (s1 := updated s _ _ _ _).
    assert (E1 : exists t1, calm t1 /\
              (if have_IPV6_V6ONLY W && (sa_family a =? AF_INET6)
               then emit (Setsockopt fd IPV6_V6ONLY) s1 else s1)
              = updated s (<[c := candidate_record W a fd r]> cs)
                  (<[o := set_o_aip ai_next og]> os) (S n)
                  (t ++ Sockaddr2hostname a :: dbg ++ [Socket (sa_family a) fd] ++ t1)).
    { subst s1. destruct (_ && _).
      - exists [Setsockopt fd IPV6_V6ONLY]. split; [by apply calm_one|].
        rewrite emit_updated. f_equal. rewrite <- !app_assoc. reflexivity.
      - exists []. split; [apply calm_nil|]. f_equal.
        rewrite <- !app_assoc. rewrite app_nil_r. reflexivity. }
    destruct E1 as (t1 & Q1 & ->).
    match goal with |- context [bind_to_interface W fd (updated ?s0 ?cs0 ?os0 ?n0 ?t0)] =>
      destruct (bind_to_interface_calm fd s0 cs0 os0 n0 t0) as (b & n2 & t2 & -> & Q2)
    end.
    match goal with |- context [bind_to_address W c (updated ?s0 ?cs0 ?os0 ?n0 ?t0)] =>
      destruct (bind_to_address_calm c (candidate_record W a fd r) s0 cs0 os0 n0 t0)
        as (b' & n3 & t3 & -> & Q3); [apply lookup_insert_eq|exact Hfd|]
    end.
    match goal with |- context [configure_tcp W c (updated ?s0 ?cs0 ?os0 ?n0 ?t0)] =>
      destruct (configure_tcp_calm c (candidate_record W a fd r) s0 cs0 os0 n0 t0)
        as (t4 & -> & Q4); [apply lookup_insert_eq|]
    end.
    rewrite with_connection_updated, alter_insert_same.
    exists n3, (dbg ++ [Socket (sa_family a) fd] ++ t1 ++ t2 ++ t3 ++ t4).
    split.
    { apply quiet_app; [by apply calm_quiet|]. apply quiet_app; [by apply quiet_one|].
      apply calm_quiet. repeat (apply calm_app; [done|]). done. }
    split.
    { rewrite !socket_results_app, (calm_sockets _ Qdbg), (calm_sockets _ Q1),
        (calm_sockets _ Q2), (calm_sockets _ Q3), (calm_sockets _ Q4). reflexivity. }
    do 3 f_equal.
    repeat first [rewrite <- app_assoc | rewrite <- app_comm_cons]. reflexivity.
Qed.

End Calm.

Section Account.

Variable W : world.

Lemma all_failed_nil : all_failed W [].
Proof. split; [reflexivity|constructor]. Qed.

Lemma all_failed_untried t : tried t = [] -> socket_results t = [] -> all_failed W t.
Proof. intros E1 E2. unfold all_failed. rewrite E1, E2. split; [reflexivity|constructor]. Qed.

Lemma all_failed_app t t' : all_failed W t -> all_failed W t' -> all_failed W (t ++ t').
Proof.
  intros [S1 F1] [S2 F2]. split.
  - by rewrite socket_results_app, tried_app, length_app, repeat_app, S1, S2.
  - rewrite tried_app. by apply Forall_app_2.
Qed.

Lemma first_success_app t t' a fd :
  all_failed W t -> first_success W t' a fd -> first_success W (t ++ t') a fd.
Proof.
  intros [S1 F1] (before & E & S2 & F2 & Hfd & Hk).
  exists (tried t ++ before). split_and!; try done.
  - by rewrite tried_app, E, app_assoc.
  - by rewrite socket_results_app, S1, S2, length_app, repeat_app, app_assoc.
  - by apply Forall_app_2.
Qed.

(** The sockets of one pass. *)
Lemma try_candidate_sockets c o r og s cs os n t :
  cs !! c = Some r -> os !! o = Some og ->
  match try_candidate W c o r (updated s cs os n t) with
  | Goto_begin s' => exists t', trace s' = trace s ++ t ++ t' /\ all_failed W t'
  | Return (Done _ s') =>
      exists t' a fd r',
        trace s' = trace s ++ t ++ t'
        /\ tried t' = [a] /\ socket_results t' = [fd]
        /\ 0 <= fd /\ (exists k, sys_socket W k (sa_family a) = fd)
        /\ connections s' !! c = Some r' /\ c_socket r' = fd /\ c_address r' = Some a
  | Return _ => False
  end.
Proof.
  intros Hc Ho.
  destruct (o_aip og) as [|a ai_next] eqn:Eaip.
  - pose proof (try_candidate_spec W c o r og s cs os n t Hc Ho) as H.
    rewrite Eaip in H. rewrite H. exists []. fields. rewrite app_nil_r.
    split; [done|apply all_failed_nil].
  - destruct (try_candidate_socket W c o r og a ai_next s cs os n t Hc Ho Eaip)
      as (n' & q & Q & Sq & ->).
    set (fd := if sys_socket W n (sa_family a) <? 0 then -1 else sys_socket W n (sa_family a))
      in *.
    assert (Et : tried (Sockaddr2hostname a :: q) = [a]).
    { change (tried (Sockaddr2hostname a :: q)) with ([a] ++ tried q).
      by rewrite (quiet_tried _ Q). }
    assert (Es : socket_results (Sockaddr2hostname a :: q) = [fd]) by exact Sq.
    destruct (Z.eqb_spec fd (-1)) as [E|E].
    + exists (Sockaddr2hostname a :: q). fields. split; [done|].
      split; rewrite Et, ?Es, ?E; [reflexivity|].
      constructor; [|constructor]. exists n. subst fd.
      destruct (Z.ltb_spec (sys_socket W n (sa_family a)) 0); lia.
    + exists (Sockaddr2hostname a :: q), a, fd,
        (set_c_connecting true (candidate_record W a fd r)).
      fields. rewrite lookup_insert_eq. split_and!; try done.
      * subst fd. destruct (Z.ltb_spec (sys_socket W n (sa_family a)) 0); lia.
      * exists n. subst fd.
        destruct (Z.ltb_spec (sys_socket W n (sa_family a)) 0); [done|reflexivity].
Qed.

Lemma begin_pass_sockets c o r og s cs os n t :
  cs !! c = Some r -> c_outgoing r = Some o -> os !! o = Some og ->
  match begin_pass W c (updated s cs os n t) with
  | Goto_begin s' => exists t', trace s' = trace s ++ t ++ t' /\ all_failed W t'
  | Return (Done _ s') =>
      exists t',
        trace s' = trace s ++ t ++ t'
        /\ (tried t' = []
            \/ exists a fd r',
                tried t' = [a] /\ socket_results t' = [fd]
                /\ 0 <= fd /\ (exists k, sys_socket W k (sa_family a) = fd)
                /\ connections s' !! c = Some r' /\ c_socket r' = fd
                /\ c_address r' = Some a)
  | Return _ => True
  end.
Proof.
  intros Hc Hout Ho. unfold begin_pass. cbn [connections outgoings updated].
  rewrite Hc, Hout, Ho.
  assert (Direct : forall og1 os1 t1 q,
            os1 !! o = Some og1 -> tried q = [] -> socket_results q = [] ->
            t1 = t ++ q ->
            match try_candidate W c o r (updated s cs os1 n t1) with
            | Goto_begin s' => exists t', trace s' = trace s ++ t ++ t' /\ all_failed W t'
            | Return (Done _ s') =>
                exists t',
                  trace s' = trace s ++ t ++ t'
                  /\ (tried t' = []
                      \/ exists a fd r',
                          tried t' = [a] /\ socket_results t' = [fd]
                          /\ 0 <= fd /\ (exists k, sys_socket W k (sa_family a) = fd)
                          /\ connections s' !! c = Some r' /\ c_socket r' = fd
                          /\ c_address r' = Some a)
            | Return _ => True
            end).
  { intros og1 os1 t1 q Ho1 Eq1 Eq2 ->.
    pose proof (try_candidate_sockets c o r og1 s cs os1 n (t ++ q) Hc Ho1) as H.
    destruct (try_candidate W c o r _) as [s'|[[] s'| |]]; try done.
    - destruct H as (t' & Et & F). exists (q ++ t').
      split; [by rewrite Et, <- !app_assoc|].
      apply all_failed_app; [by apply all_failed_untried|done].
    - destruct H as (t' & a & fd & r' & Et & H1 & H2 & H3 & H4 & H5 & H6 & H7).
      exists (q ++ t'). split; [by rewrite Et, <- !app_assoc|]. right.
      exists a, fd, r'. rewrite tried_app, socket_results_app, Eq1, Eq2. by split_and!. }
  destruct (o_ai og) as [|a0 ai0] eqn:Eai.
  - destruct (o_cfg og) as [|e rest] eqn:Ecfg.
    + rewrite (out_of_addresses_updated c o r og) by done.
      exists (out_of_addresses_trace c o r og s). fields.
      split; [done|]. left. unfold out_of_addresses_trace.
      by destruct (debug_connections s).
    + rewrite (resolve_entry_updated W c o r og e rest) by done.
      eapply Direct; [apply lookup_insert_eq| | |reflexivity]; reflexivity.
  - apply (Direct og os t []); [done|done|done|by rewrite app_nil_r].
Qed.

(** The loop with its sockets: as [begin_spec], with the account of the
    calls of [socket]. *)
Lemma begin_sockets c o s fuel :
  forall r og cs os n t,
    cs !! c = Some r -> c_outgoing r = Some o -> os !! o = Some og ->
    (passes W r og <= fuel)%nat ->
    exists r1 og1 n1 t1,
      kept r r1 /\ consumed W r og og1 t1 /\
      ((o_ai og1 = [] /\ o_cfg og1 = [] /\ all_failed W t1 /\
        begin W fuel c (updated s cs os n t)
        = Done tt (ran_out c o r1 og1 s (<[c := r1]> cs) (<[o := og1]> os) n1 (t ++ t1)))
       \/
       (exists a fd,
          first_success W t1 a fd /\
          begin W fuel c (updated s cs os n t)
          = Done tt (updated s
                       (<[c := set_c_connecting true (candidate_record W a fd r1)]> cs)
                       (<[o := og1]> os) n1 (t ++ t1)))).
Proof.
  induction fuel as [|fuel IH]; intros r og cs os n t Hc Hout Ho Hfuel.
  - unfold passes in Hfuel. lia.
  - cbn [begin].
    pose proof (begin_pass_spec W c o r og s cs os n t Hc Hout Ho) as P.
    pose proof (begin_pass_sockets c o r og s cs os n t Hc Hout Ho) as Q.
    remember (begin_pass W c (updated s cs os n t)) as p eqn:Ep. clear Ep.
    destruct P as [Eai Ecfg|r1 og1 n1 t1 K1 C1 Hlt|a fd og1 n1 t1 Hfd C1 L1].
    + exists r, og, n, []. split; [apply kept_refl|]. split; [apply consumed_refl|].
      left. split; [done|]. split; [done|]. split; [apply all_failed_nil|].
      rewrite (out_of_addresses_updated c o r og) by done.
      by rewrite !insert_id, app_nil_r.
    + destruct Q as (t' & Et & F). fields_in Et.
      apply app_inv_head in Et. apply app_inv_head in Et.
      subst t'.
      assert (Hcfg : c_config_tree r1 = c_config_tree r) by apply K1.
      assert (Hout1 : c_outgoing r1 = Some o).
      { destruct K1 as (_ & _ & _ & _ & _ & _ & _ & _ & E & _). by rewrite E. }
      destruct (IH r1 og1 (<[c := r1]> cs) (<[o := og1]> os) n1 (t ++ t1)
                  (lookup_insert_eq _ _ _) Hout1 (lookup_insert_eq _ _ _)
                  ltac:(lia))
        as (r2 & og2 & n2 & t2 & K2 & C2 & [(Eai & Ecfg & F2 & ->)|(a & fd & F2 & ->)]);
        exists r2, og2, n2, (t1 ++ t2);
        (split; [by eapply kept_trans|]);
        (split; [eapply consumed_trans; [exact C1|]; by eapply consumed_config|]);
        rewrite !insert_insert_eq, <- app_assoc.
      * left. split; [done|]. split; [done|]. split; [by apply all_failed_app|done].
      * right. exists a, fd. split; [by apply first_success_app|done].
    + destruct Q as (t' & Et & Q). fields_in Et.
      apply app_inv_head in Et. apply app_inv_head in Et.
      subst t'.
      destruct Q as [Q|(a' & fd' & r' & Q1 & Q2 & Q3 & Q4 & Q5 & Q6 & Q7)].
      { rewrite Q in L1. discriminate. }
      fields_in Q5. rewrite lookup_insert_eq in Q5. injection Q5 as <-.
      cbn in Q6, Q7. subst fd'. injection Q7 as <-.
      exists r, og1, n1, t1. split; [apply kept_refl|]. split; [done|].
      right. exists a, fd. split; [|reflexivity].
      exists []. by split_and!.
Qed.

End Account.

Section First_success.

Variable W : world.

Lemma do_outgoing_connection_sockets c o r og s :
  connections s !! c = Some r -> c_outgoing r = Some o -> outgoings s !! o = Some og ->
  exists r1 og1 n t,
    kept r r1 /\ consumed W r og og1 t /\
    ((o_ai og1 = [] /\ o_cfg og1 = [] /\ all_failed W t /\
      do_outgoing_connection W c s
      = Done tt (ran_out c o r1 og1 s (<[c := r1]> (connections s))
                   (<[o := og1]> (outgoings s)) n t))
     \/
     (exists a fd,
        first_success W t a fd /\
        do_outgoing_connection W c s
        = Done tt (updated s
                     (<[c := set_c_connecting true (candidate_record W a fd r1)]>
                        (connections s))
                     (<[o := og1]> (outgoings s)) n t))).
Proof.
  intros Hc Hout Ho. unfold do_outgoing_connection. rewrite Hc, Hout, Ho.
  pose proof (begin_sockets W c o s (passes W r og) r og (connections s) (outgoings s)
                (tick s) [] Hc Hout Ho (le_n _)) as L.
  by rewrite <- updated_id in L.
Qed.

Lemma all_failed_length t : all_failed W t -> length (socket_results t) = length (tried t).
Proof. intros [-> _]. apply repeat_length. Qed.

Lemma first_success_length t a fd :
  first_success W t a fd -> length (socket_results t) = length (tried t).
Proof.
  intros (before & -> & -> & _). by rewrite !length_app, repeat_length.
Qed.

Lemma out_of_addresses_trace_untried c o r og s :
  tried (out_of_addresses_trace c o r og s) = []
  /\ socket_results (out_of_addresses_trace c o r og s) = [].
Proof. unfold out_of_addresses_trace. by destruct (debug_connections s). Qed.

(** X12.  [do_outgoing_connection] (lines 327-396) calls [socket] once for
    every candidate it tries, and a candidate is tried after another only
    when [socket] failed for that one.  So either [socket] failed for
    every candidate the attempt had left, the timer is armed and the
    record is no longer registered; or the record is connecting on the
    address of the first candidate for which [socket] returned a
    descriptor, it holds that descriptor, no later candidate was tried,
    and the timeout and the timer of the attempt are as they were: a
    success does not reset the back-off. *)
Theorem do_outgoing_connection_first_success (c o : nat) (r : connection_t)
    (og : outgoing_t) (s : state) :
  connections s !! c = Some r -> c_outgoing r = Some o -> outgoings s !! o = Some og ->
  exists s' t,
    do_outgoing_connection W c s = Done tt s'
    /\ trace s' = trace s ++ t
    /\ length (socket_results t) = length (tried t)
    /\ tried t `prefix_of` all_candidates W r og
    /\ ((all_failed W t /\ tried t = all_candidates W r og
         /\ (c ∉ connection_tree s') /\ (o ∈ event_tree s'))
        \/ (exists a fd r',
              first_success W t a fd
              /\ connections s' !! c = Some r'
              /\ c_address r' = Some a /\ c_socket r' = fd /\ c_connecting r' = true
              /\ c_outgoing r' = Some o
              /\ connection_tree s' = connection_tree s
              /\ event_tree s' = event_tree s
              /\ exists og',
                  outgoings s' !! o = Some og'
                  /\ o_timeout og' = o_timeout og /\ o_ev og' = o_ev og)).
Proof.
  intros Hc Hout Ho.
  destruct (do_outgoing_connection_sockets c o r og s Hc Hout Ho)
    as (r1 & og1 & n & t & K & C & [(Eai & Ecfg & F & ->)|(a & fd & F & ->)]);
    destruct C as [_ _ Htime Hev _ Ecand].
  - destruct (out_of_addresses_trace_untried c o r1 og1 s) as [E1 E2].
    assert (E0 : all_candidates W r og1 = []).
    { unfold all_candidates. by rewrite Eai, Ecfg. }
    rewrite E0, app_nil_r in Ecand.
    assert (F' : all_failed W (t ++ out_of_addresses_trace c o r1 og1 s)).
    { apply all_failed_app; [done|]. by apply all_failed_untried. }
    eexists _, (t ++ out_of_addresses_trace c o r1 og1 s).
    split; [reflexivity|]. fields.
    split; [done|]. split; [by apply all_failed_length|].
    rewrite tried_app, E1, app_nil_r in *. rewrite <- Ecand.
    split; [done|]. left. split_and!; [done|done|apply removed_out|apply armed_in].
  - eexists _, t. split; [reflexivity|]. fields.
    split; [done|]. split; [by eapply first_success_length|].
    split; [rewrite Ecand; by apply prefix_app_r|].
    right. exists a, fd, (set_c_connecting true (candidate_record W a fd r1)).
    rewrite !lookup_insert_eq. split_and!; try done.
    + cbn. rewrite (kept_outgoing r r1 K). done.
    + by exists og1.
Qed.

(** X13.  When [socket] never fails, [do_outgoing_connection] tries
    exactly one address, the first candidate of the attempt: what an
    earlier call left of the current list if there is any, else the
    first address of the first entry that resolves to one.  The record is
    connecting on that address and stays registered, no timer is armed,
    and only the entries up to that candidate are resolved. *)
Theorem first_candidate_wins (c o : nat) (r : connection_t) (og : outgoing_t)
    (s : state) (a : sockaddr_t) (rest : list sockaddr_t) :
  (forall k family, 0 <= sys_socket W k family) ->
  connections s !! c = Some r -> c_outgoing r = Some o -> outgoings s !! o = Some og ->
  all_candidates W r og = a :: rest ->
  exists s' t r' og',
    do_outgoing_connection W c s = Done tt s'
    /\ trace s' = trace s ++ t
    /\ tried t = [a]
    /\ length (socket_results t) = 1%nat
    /\ connections s' !! c = Some r'
    /\ c_address r' = Some a /\ c_hostname r' = Some (sockaddr2hostname W a)
    /\ 0 <= c_socket r' /\ c_connecting r' = true /\ c_outgoing r' = Some o
    /\ connection_tree s' = connection_tree s /\ event_tree s' = event_tree s
    /\ outgoings s' !! o = Some og'
    /\ all_candidates W r og' = rest.
Proof.
  intros Hsock Hc Hout Ho Hall.
  assert (Never : forall b, ~ no_socket_for W b).
  { intros b [k Hk]. specialize (Hsock k (sa_family b)). lia. }
  destruct (do_outgoing_connection_sockets c o r og s Hc Hout Ho)
    as (r1 & og1 & n & t & K & C & [(Eai & Ecfg & [_ F] & _)|(b & fd & F & ->)]);
    destruct C as [_ _ _ _ _ Ecand].
  - assert (E0 : all_candidates W r og1 = []).
    { unfold all_candidates. by rewrite Eai, Ecfg. }
    rewrite E0, app_nil_r, Hall in Ecand. rewrite <- Ecand in F.
    apply Forall_cons in F as [F _]. by apply Never in F.
  - destruct F as (before & Et & Es & Fb & Hfd & _).
    destruct before as [|x before].
    2: { apply Forall_cons in Fb as [Fb _]. by apply Never in Fb. }
    cbn in Et, Es. rewrite Et, Hall in Ecand. injection Ecand as <- Erest.
    eexists _, t, (set_c_connecting true (candidate_record W a fd r1)), og1.
    split; [reflexivity|]. fields. rewrite !lookup_insert_eq.
    split_and!; try done.
    + by rewrite Es.
    + cbn. by rewrite (kept_outgoing r r1 K).
Qed.

End First_success.

(** ** Configuration errors, fatal conditions and the lock *)

Lemma thread_calls_app t t' : thread_calls (t ++ t') = thread_calls t ++ thread_calls t'.
Proof. apply flat_map_app. Qed.

Lemma io_no_threads t : Forall (fun e => io_event e = true) t -> thread_calls t = [].
Proof.
  induction 1 as [|e t He _ IH]; [done|].
  change (e :: t) with ([e] ++ t). rewrite thread_calls_app, IH. by destruct e.
Qed.

Lemma result_unique {A} (x : result A) (v : A) a b :
  (x = Done v a \/ x = Abort a) -> (x = Done v b \/ x = Abort b) -> a = b.
Proof. intros [-> | ->] [E|E]; congruence. Qed.

Section Claims_errors.

Variable W : world.

(** The loop of [try_outgoing_connections] under the lock of its caller. *)
Lemma connect_to_steady cfg :
  forall s,
    exists s' t,
      (connect_to W cfg s = Done tt s' \/ connect_to W cfg s = Abort s')
      /\ trace s' = trace s ++ t
      /\ mutex s' = mutex s
      /\ Forall (eq (mutex s)) (registry_locks t)
      /\ lock_events t = [].
Proof.
  induction cfg as [|e next IH]; intros s.
  - exists s, []. rewrite app_nil_r. split_and!; try done. by left.
  - destruct (check_id W (value e)) eqn:Hid.
    + rewrite (connect_to_valid W e next s Hid).
      destruct (setup_outgoing_connection_steady W (fresh (outgoings s))
                  (set_o_name (value e) zero_outgoing) (listed (value e) s)
                  (listed_lookup _ _))
        as (s1 & t1 & [E|E] & (_ & _ & M1 & T1 & F1 & K1) & _); rewrite E.
      * destruct (IH s1) as (s' & t & R & T & M & F & K).
        exists s', (t1 ++ t). split; [exact R|].
        change (trace (listed (value e) s)) with (trace s) in T1.
        change (mutex (listed (value e) s)) with (mutex s) in M1, F1.
        rewrite T, T1, M, M1, registry_locks_app, lock_events_app, K1, K, app_assoc.
        split_and!; try done. apply Forall_app_2; [done|]. by rewrite <- M1.
      * exists s1, t1. split; [by right|].
        change (trace (listed (value e) s)) with (trace s) in T1.
        change (mutex (listed (value e) s)) with (mutex s) in M1, F1.
        by split_and!.
    + rewrite (connect_to_invalid W e next s Hid).
      destruct (IH (logger (Invalid_name (file e) (line e)) s))
        as (s' & t & R & T & M & F & K).
      exists s', (Logger (Invalid_name (file e) (line e)) :: t).
      split; [exact R|]. split_and!; try done.
      rewrite T. unfold logger, emit. cbn [trace set_trace]. by rewrite <- app_assoc.
Qed.

(** How the loop of [try_outgoing_connections] ends. *)
Lemma connect_to_outcome cfg s :
  listed_live s ->
  exists s' t names,
    (connect_to W cfg s = Done tt s' \/ connect_to W cfg s = Abort s')
    /\ trace s' = trace s ++ t
    /\ pending_names s' = pending_names s ++ names
    /\ names `prefix_of` valid_names W cfg
    /\ ((forall k, sys_thread_create W k = true) ->
        connect_to W cfg s = Done tt s' /\ names = valid_names W cfg)
    /\ mutex s' = mutex s
    /\ Forall (eq (mutex s)) (registry_locks t)
    /\ lock_events t = [].
Proof.
  intros Hlive.
  destruct (connect_to_pending W cfg s Hlive) as (s' & names & R & P & Q).
  destruct (connect_to_steady cfg s) as (s2 & t & R2 & T & M & F & K).
  assert (E2 : s2 = s') by (by eapply result_unique). subst s2.
  exists s', t, names. split_and!; try done.
  intros Hthr. destruct (connect_to_returns W cfg Hthr s) as (s3 & E3).
  destruct R as [E|E]; [|rewrite E in E3; discriminate].
  split; [exact E|].
  destruct (connect_to_done W cfg s s' Hlive E) as (new & _ & P' & _).
  rewrite P in P'. by apply app_inv_head in P'.
Qed.

(** C7.  A [ConnectTo] name that fails [check_id] costs one log line and
    no attempt: the loop goes on with the names after it from a state that
    differs only in that line, it ends in a return or in the abort of a
    later name, never because of this one, and when threads can be created
    it returns with an attempt for every valid name after it.  A valid
    name whose host configuration has no [Address] gets its attempt, is
    logged, the record made for it is freed, no socket, thread or timer
    is made for it, the registry and every other attempt are as before,
    and the names after it are processed in the same way. *)
Theorem connect_to_errors_are_skipped (e : config_t) (next : list config_t) (s : state) :
  listed_live s ->
  (check_id W (value e) = false ->
   exists s' t names,
     (connect_to W (e :: next) s = Done tt s' \/ connect_to W (e :: next) s = Abort s')
     /\ connect_to W (e :: next) s
        = connect_to W next (logger (Invalid_name (file e) (line e)) s)
     /\ trace s' = trace s ++ Logger (Invalid_name (file e) (line e)) :: t
     /\ pending_names s' = pending_names s ++ names
     /\ names `prefix_of` valid_names W next
     /\ ((forall k, sys_thread_create W k = true) ->
         connect_to W (e :: next) s = Done tt s' /\ names = valid_names W next))
  /\ (check_id W (value e) = true ->
      live_connection s (value e) = None ->
      lookup_config (read_connection_config W (value e)) "Address" = [] ->
      exists s1 s' t names,
        setup_outgoing_connection W (fresh (outgoings s)) (listed (value e) s)
        = Done tt s1
        /\ trace s1
           = trace s ++ [Event_del (fresh (outgoings s));
                         Lookup_node (value e) (mutex s);
                         Logger (No_address_specified (value e));
                         Free_connection (fresh (connections s))]
        /\ connections s1 = connections s
        /\ connection_tree s1 = connection_tree s
        /\ event_tree s1 = event_tree s ∖ {[fresh (outgoings s)]}
        /\ node_tree s1 = node_tree s
        /\ (forall o, o <> fresh (outgoings s) -> outgoings s1 !! o = outgoings s !! o)
        /\ connect_to W (e :: next) s = connect_to W next s1
        /\ (connect_to W (e :: next) s = Done tt s'
            \/ connect_to W (e :: next) s = Abort s')
        /\ trace s' = trace s1 ++ t
        /\ pending_names s' = pending_names s ++ value e :: names
        /\ names `prefix_of` valid_names W next
        /\ ((forall k, sys_thread_create W k = true) ->
            connect_to W (e :: next) s = Done tt s' /\ names = valid_names W next)).
Proof.
  intros Hlive. split.
  - intros Hid.
    rewrite (connect_to_invalid W e next s Hid).
    destruct (connect_to_outcome next (logger (Invalid_name (file e) (line e)) s) Hlive)
      as (s' & t & names & R & T & P & Q & Hthr & _).
    exists s', t, names. split_and!; try done.
    rewrite T. unfold logger, emit. cbn [trace set_trace]. by rewrite <- app_assoc.
  - intros Hid Hnolive Hcfg.
    pose proof (setup_no_address W (fresh (outgoings s))
                  (set_o_name (value e) zero_outgoing) (listed (value e) s)
                  (listed_lookup _ _) Hnolive Hcfg) as E.
    destruct (setup_outgoing_connection_steady W (fresh (outgoings s))
                (set_o_name (value e) zero_outgoing) (listed (value e) s)
                (listed_lookup _ _)) as (s1 & t1 & R1 & S1 & _).
    assert (E1 : setup_outgoing_connection W (fresh (outgoings s)) (listed (value e) s)
                 = Done tt s1).
    { destruct R1 as [R1|R1]; [done|]. rewrite R1 in E. discriminate. }
    assert (Hlive1 : listed_live s1).
    { eapply listed_live_steady; [exact S1|]. by apply listed_listed_live. }
    assert (P1 : pending_names s1 = pending_names s ++ [value e]).
    { by rewrite (pending_names_steady _ _ _ S1), (listed_pending _ _ Hlive). }
    destruct (connect_to_outcome next s1 Hlive1)
      as (s' & t & names & R & T & P & Q & Hthr & _).
    rewrite (connect_to_valid W e next s Hid), E1.
    rewrite E in E1. injection E1 as E1.
    exists s1, s', t, names.
    split; [done|].
    rewrite P, P1, <- app_assoc. cbn [app].
    split_and!; try done; rewrite <- E1; unfold listed; fields'; try reflexivity.
    + by rewrite delete_insert_id by apply fresh_unused.
    + intros o Ho. by rewrite lookup_insert_ne, alter_insert_same, lookup_insert_ne.
Qed.

End Claims_errors.

Section Claims_fatal.

Variable W : world.

(** [do_outgoing_connection] never calls [thread_create]. *)
Lemma do_outgoing_connection_threads c o r og s :
  connections s !! c = Some r -> c_outgoing r = Some o -> outgoings s !! o = Some og ->
  exists s1,
    do_outgoing_connection W c s = Done tt s1
    /\ thread_calls (trace s1) = thread_calls (trace s).
Proof.
  intros Hc Hout Ho.
  destruct (do_outgoing_connection_cases W c o r og s Hc Hout Ho)
    as (r1 & og1 & n & t & _ & C & [(_ & _ & ->)|(a & fd & _ & _ & ->)]);
    (eexists; split; [reflexivity|]); fields;
    rewrite !thread_calls_app, (io_no_threads t (cs_io _ _ _ _ _ C)), ?app_nil_r.
  - unfold out_of_addresses_trace. destruct (debug_connections s); cbn; by rewrite app_nil_r.
  - reflexivity.
Qed.

Lemma thread_create_or_abort_if c s1 :
  thread_create_or_abort W c s1
  = if sys_thread_create W (tick s1)
    then Done tt (with_connection c (set_c_thread true)
                    (emit (Thread_create c true) (ticked s1)))
    else Abort (logger Create_thread_failed (emit (Thread_create c false) (ticked s1))).
Proof. unfold thread_create_or_abort. by destruct (sys_thread_create W (tick s1)). Qed.

(** A round with a new record: the one call of [thread_create], after
    [do_outgoing_connection], decides between return and abort. *)
Lemma setup_thread_decides o og s :
  outgoings s !! o = Some og ->
  live_connection s (o_name og) = None ->
  lookup_config (read_connection_config W (o_name og)) "Address" <> [] ->
  exists s1,
    do_outgoing_connection W (fresh (connections s)) (prepared W o og s) = Done tt s1
    /\ thread_calls (trace s1) = thread_calls (trace s)
    /\ setup_outgoing_connection W o s
       = if sys_thread_create W (tick s1)
         then Done tt (with_connection (fresh (connections s)) (set_c_thread true)
                         (emit (Thread_create (fresh (connections s)) true) (ticked s1)))
         else Abort (logger Create_thread_failed
                       (emit (Thread_create (fresh (connections s)) false) (ticked s1))).
Proof.
  intros Ho Hlive Hcfg.
  rewrite (setup_prepared W o og s Ho Hlive Hcfg).
  destruct (do_outgoing_connection_threads (fresh (connections s)) o
              (new_outgoing_record W o og s)
              (set_o_cfg (lookup_config (read_connection_config W (o_name og))
                            "Address") og)
              (prepared W o og s)) as (s1 & E & T).
  { unfold prepared. cbn [connections]. apply lookup_insert_eq. }
  { reflexivity. }
  { unfold prepared. cbn [outgoings]. apply lookup_insert_eq. }
  exists s1. split; [exact E|]. split.
  - rewrite T. unfold prepared. cbn [trace]. rewrite thread_calls_app. cbn.
    by rewrite app_nil_r.
  - rewrite E. apply thread_create_or_abort_if.
Qed.

(** C8.  [do_outgoing_connection] on a record without a pending attempt
    logs and aborts, and does nothing else.  A round for a peer that is to
    be connected calls [thread_create] once, after
    [do_outgoing_connection] has returned: when that one call fails, the
    round logs and aborts with nothing done after the log line, whatever
    a later call would answer; the names after it in the [ConnectTo] list
    are not processed.  A turn of the accept loop calls [thread_create]
    once, after the record is registered: when that call fails the loop
    logs and aborts. *)
Theorem fatal_conditions_abort (c o : nat) (r : connection_t) (og : outgoing_t)
    (e : config_t) (next : list config_t) (l_tcp : Z) (turns : nat) (s : state) :
  (connections s !! c = Some r -> c_outgoing r = None ->
   do_outgoing_connection W c s = Abort (logger (Called_without_outgoing (c_name r)) s))
  /\ (outgoings s !! o = Some og -> live_connection s (o_name og) = None ->
      lookup_config (read_connection_config W (o_name og)) "Address" <> [] ->
      exists s1,
        do_outgoing_connection W (fresh (connections s)) (prepared W o og s) = Done tt s1
        /\ thread_calls (trace s1) = thread_calls (trace s)
        /\ setup_outgoing_connection W o s
           = (if sys_thread_create W (tick s1)
              then Done tt (with_connection (fresh (connections s)) (set_c_thread true)
                              (emit (Thread_create (fresh (connections s)) true)
                                 (ticked s1)))
              else Abort (logger Create_thread_failed
                            (emit (Thread_create (fresh (connections s)) false)
                               (ticked s1))))
        /\ (sys_thread_create W (tick s1) = false ->
            exists s',
              setup_outgoing_connection W o s = Abort s'
              /\ trace s' = trace s1 ++ [Thread_create (fresh (connections s)) false;
                                         Logger Create_thread_failed]
              /\ thread_calls (trace s')
                 = thread_calls (trace s) ++ [(fresh (connections s), false)]
              /\ connections s' = connections s1
              /\ connection_tree s' = connection_tree s1
              /\ event_tree s' = event_tree s1))
  /\ (check_id W (value e) = true -> live_connection s (value e) = None ->
      lookup_config (read_connection_config W (value e)) "Address" <> [] ->
      exists s1,
        do_outgoing_connection W (fresh (connections s))
          (prepared W (fresh (outgoings s)) (set_o_name (value e) zero_outgoing)
             (listed (value e) s)) = Done tt s1
        /\ (sys_thread_create W (tick s1) = false ->
            connect_to W (e :: next) s
            = Abort (logger Create_thread_failed
                       (emit (Thread_create (fresh (connections s)) false) (ticked s1)))))
  /\ (0 <= (sys_accept W (tick s) l_tcp).1 ->
      thread_calls (accepted_trace W l_tcp s) = []
      /\ accept_turn W l_tcp s
         = (if sys_thread_create W (S (tick s))
            then Again (mutex_unlock
                          (with_connection (fresh (connections s)) (set_c_thread true)
                             (emit (Thread_create (fresh (connections s)) true)
                                (ticked (accepted W l_tcp s)))))
            else Leave (Abort (logger Create_thread_failed
                                 (emit (Thread_create (fresh (connections s)) false)
                                    (ticked (accepted W l_tcp s))))))
      /\ (sys_thread_create W (S (tick s)) = false ->
          exists s',
            accept_turn W l_tcp s = Leave (Abort s')
            /\ handle_new_meta_connection W (S turns) l_tcp s = Some (Abort s')
            /\ trace s' = trace s ++ accepted_trace W l_tcp s
                          ++ [Thread_create (fresh (connections s)) false;
                              Logger Create_thread_failed])).
Proof.
  split; [|split; [|split]].
  - intros Hc Hout. unfold do_outgoing_connection. by rewrite Hc, Hout.
  - intros Ho Hlive Hcfg.
    destruct (setup_thread_decides o og s Ho Hlive Hcfg) as (s1 & E & T & R).
    exists s1. split; [exact E|]. split; [exact T|]. split; [exact R|].
    intros Hfail. rewrite R, Hfail. eexists. split; [reflexivity|].
    assert (Et : trace (logger Create_thread_failed
                          (emit (Thread_create (fresh (connections s)) false) (ticked s1)))
                 = trace s1 ++ [Thread_create (fresh (connections s)) false;
                                Logger Create_thread_failed]).
    { destruct s1. unfold logger, emit, ticked. cbn. by rewrite <- app_assoc. }
    split; [exact Et|]. split; [by rewrite Et, thread_calls_app, T|].
    by destruct s1.
  - intros Hid Hlive Hcfg.
    destruct (setup_thread_decides (fresh (outgoings s))
                (set_o_name (value e) zero_outgoing) (listed (value e) s)
                (listed_lookup _ _) Hlive Hcfg) as (s1 & E & _ & R).
    exists s1. split; [exact E|]. intros Hfail.
    rewrite (connect_to_valid W e next s Hid), R, Hfail. reflexivity.
  - intros Hfd.
    assert (Haccept : accept_turn W l_tcp s
              = (if sys_thread_create W (S (tick s))
                 then Again (mutex_unlock
                               (with_connection (fresh (connections s)) (set_c_thread true)
                                  (emit (Thread_create (fresh (connections s)) true)
                                     (ticked (accepted W l_tcp s)))))
                 else Leave (Abort (logger Create_thread_failed
                                      (emit (Thread_create (fresh (connections s)) false)
                                         (ticked (accepted W l_tcp s))))))).
    { rewrite (accept_turn_accepted W l_tcp s Hfd), thread_create_or_abort_if.
      change (tick (accepted W l_tcp s)) with (S (tick s)).
      by destruct (sys_thread_create W (S (tick s))). }
    split.
    { unfold accepted_trace.
      by destruct (debug_connections s), (have_TCP_NODELAY W), (have_IPTOS_LOWDELAY W). }
    split; [exact Haccept|].
    intros Hfail. cbn [handle_new_meta_connection]. rewrite Haccept, Hfail.
    eexists. split; [reflexivity|]. split; [reflexivity|].
    destruct s. project. by rewrite <- !app_assoc.
Qed.

End Claims_fatal.

Section Claims_lock.

Variable W : world.


End Claims_lock.

(** ** The further theorems at concrete inputs *)

Lemma bind_to_address_outcome_witness :
  connections bind_state !! 1%nat = Some (set_c_socket 3 example_record)
  /\ exists b n t,
       bind_to_address (example_world 3 true) 1 bind_state
       = Done b (updated bind_state (connections bind_state) (outgoings bind_state) n t).
Proof.
  split; [reflexivity|].
  destruct (bind_to_address_outcome (example_world 3 true) 1
              (set_c_socket 3 example_record) bind_state) as [_ H]; [reflexivity|].
  destruct H as (b & n & t & E & _); [cbn; lia|].
  by exists b, n, t.
Defined.

Lemma do_outgoing_connection_frame_witness :
  outgoings (example_state [] 900 (c_config_tree example_record) 0) !! 1%nat
  = Some (example_attempt (c_config_tree example_record) 0)
  /\ exists s',
       do_outgoing_connection (example_world 5 true) 1
         (example_state [] 900 (c_config_tree example_record) 0) = Done tt s'
       /\ outgoing_list s' = [1%nat] /\ mutex s' = false.
Proof.
  split; [reflexivity|].
  destruct (do_outgoing_connection_frame (example_world 5 true) 1 1 example_record
              (example_attempt (c_config_tree example_record) 0)
              (example_state [] 900 (c_config_tree example_record) 0))
    as (s' & E & _ & _ & _ & _ & _ & _ & _ & _ & Hl & Hm & _); [reflexivity..|].
  by exists s'.
Defined.

Lemma setup_outgoing_connection_new_record_witness :
  live_connection (example_state [] 900 [] 0) "a" = None
  /\ exists s' r',
       setup_outgoing_connection (example_world 5 true) 1 (example_state [] 900 [] 0)
       = Done tt s'
       /\ connections s' !! 2%nat = Some r'
       /\ c_name r' = "a"%string /\ c_last_ping_time r' = 1000 /\ c_thread r' = true.
Proof.
  split; [reflexivity|].
  destruct (setup_outgoing_connection_new_record (example_world 5 true) 1
              (example_attempt [] 0) (example_state [] 900 [] 0))
    as (s' & r' & ok & E & Hr & Hn & _ & _ & _ & _ & _ & Ht & Hth & _);
    [reflexivity..|discriminate|].
  destruct ok.
  - by exists s', r'.
  - vm_compute in E. discriminate.
Defined.

Lemma setup_outgoing_connection_candidates_witness :
  round_candidates (example_world 5 true) 1 (example_attempt [] 0) (example_state [] 900 [] 0)
  = [INADDR "10.0.0.1" 1000; INADDR "10.0.0.2" 655]
  /\ exists s' t,
       (setup_outgoing_connection (example_world 5 true) 1 (example_state [] 900 [] 0)
        = Done tt s'
        \/ setup_outgoing_connection (example_world 5 true) 1 (example_state [] 900 [] 0)
           = Abort s')
       /\ head (tried t) = Some (INADDR "10.0.0.1" 1000).
Proof.
  split; [reflexivity|].
  destruct (setup_outgoing_connection_candidates (example_world 5 true) 1
              (example_attempt [] 0) (example_state [] 900 [] 0))
    as (s' & t & R & _ & _ & H & _); [reflexivity..|discriminate|].
  by exists s', t.
Defined.

Lemma try_outgoing_connections_pending_witness :
  exists s',
    try_outgoing_connections (example_world 5 true)
      (startup [connect_to_entry "a"; connect_to_entry "not a name"] false 1000)
    = Done tt s'
    /\ pending_names s'
       = valid_names (example_world 5 true)
           [connect_to_entry "a"; connect_to_entry "not a name"]
    /\ NoDup (outgoing_list s').
Proof.
  destruct (try_outgoing_connections_pending (example_world 5 true)
              (startup [connect_to_entry "a"; connect_to_entry "not a name"] false 1000))
    as [H1 H2].
  destruct H1 as (s' & E); [reflexivity|].
  destruct (H2 s' E) as (P & _ & N & _).
  by exists s'.
Defined.

Lemma accept_loop_keeps_turning_witness :
  0 <= (sys_accept (example_world 5 true) 0 4).1
  /\ handle_new_meta_connection (example_world 5 true) 3 4 (startup [] false 1000) = None.
Proof.
  split; [cbn; lia|].
  apply (accept_loop_keeps_turning (example_world 5 true) 4).
  - intros k. cbn. lia.
  - reflexivity.
Defined.

Lemma finish_connecting_outcome_witness :
  connections (example_state [] 900 [] 0) !! 1%nat = Some example_record
  /\ exists r' t,
       finish_connecting (example_world 5 true) 1 (example_state [] 900 [] 0)
       = updated (example_state [] 900 [] 0)
           (<[1%nat := r']> (connections (example_state [] 900 [] 0)))
           (outgoings (example_state [] 900 [] 0)) 0 t
       /\ c_connecting r' = false /\ last t = Some (Send_id 1).
Proof.
  split; [reflexivity|].
  destruct (finish_connecting_outcome (example_world 5 true) 1 example_record
              (example_state [] 900 [] 0))
    as (r' & t & E & Hc & _ & _ & _ & _ & _ & _ & _ & _ & _ & Hl & _); [reflexivity|].
  by exists r', t.
Defined.

Lemma do_outgoing_connection_first_success_witness :
  connections (example_state [] 900 (c_config_tree example_record) 0) !! 1%nat
  = Some example_record
  /\ exists s' t,
       do_outgoing_connection (example_world (-1) true) 1
         (example_state [] 900 (c_config_tree example_record) 0) = Done tt s'
       /\ length (socket_results t) = length (tried t).
Proof.
  split; [reflexivity|].
  destruct (do_outgoing_connection_first_success (example_world (-1) true) 1 1
              example_record (example_attempt (c_config_tree example_record) 0)
              (example_state [] 900 (c_config_tree example_record) 0))
    as (s' & t & E & _ & H & _); [reflexivity..|].
  by exists s', t.
Defined.

Lemma first_candidate_wins_witness :
  all_candidates (example_world 5 true) example_record
    (example_attempt (c_config_tree example_record) 0)
  = [INADDR "10.0.0.1" 1000; INADDR "10.0.0.2" 655]
  /\ exists s' t r',
       do_outgoing_connection (example_world 5 true) 1
         (example_state [] 900 (c_config_tree example_record) 0) = Done tt s'
       /\ tried t = [INADDR "10.0.0.1" 1000]
       /\ connections s' !! 1%nat = Some r'
       /\ c_address r' = Some (INADDR "10.0.0.1" 1000).
Proof.
  split; [reflexivity|].
  destruct (first_candidate_wins (example_world 5 true) 1 1 example_record
              (example_attempt (c_config_tree example_record) 0)
              (example_state [] 900 (c_config_tree example_record) 0)
              (INADDR "10.0.0.1" 1000) [INADDR "10.0.0.2" 655])
    as (s' & t & r' & og' & E & _ & Ht & _ & Hr & Ha & _).
  - intros k family. cbn. lia.
  - reflexivity.
  - reflexivity.
  - reflexivity.
  - reflexivity.
  - by exists s', t, r'.
Defined.

Lemma connect_to_errors_are_skipped_witness :
  listed_live (startup [] false 1000)
  /\ (exists s' t,
        connect_to (example_world 5 true)
          [connect_to_entry "not a name"; connect_to_entry "a"] (startup [] false 1000)
        = Done tt s'
        /\ trace s' = trace (startup [] false 1000)
                      ++ Logger (Invalid_name "tinc.conf" 1) :: t
        /\ pending_names s'
           = pending_names (startup [] false 1000)
             ++ valid_names (example_world 5 true) [connect_to_entry "a"])
  /\ (exists s1 s',
        setup_outgoing_connection (example_world 5 true)
          (fresh (outgoings (startup [] false 1000)))
          (listed "b" (startup [] false 1000)) = Done tt s1
        /\ connections s1 = connections (startup [] false 1000)
        /\ connect_to (example_world 5 true)
             [connect_to_entry "b"; connect_to_entry "a"] (startup [] false 1000)
           = Done tt s'
        /\ pending_names s'
           = pending_names (startup [] false 1000)
             ++ "b"%string :: valid_names (example_world 5 true) [connect_to_entry "a"]).
Proof.
  assert (Hlive : listed_live (startup [] false 1000)) by constructor.
  split; [exact Hlive|]. split.
  - destruct (connect_to_errors_are_skipped (example_world 5 true)
                (connect_to_entry "not a name") [connect_to_entry "a"]
                (startup [] false 1000) Hlive) as [H _].
    destruct H as (s' & t & names & _ & _ & T & P & _ & Hthr); [reflexivity|].
    destruct Hthr as [E ->]; [reflexivity|].
    exists s', t. split; [exact E|]. split; [exact T|exact P].
  - destruct (connect_to_errors_are_skipped (example_world 5 true)
                (connect_to_entry "b") [connect_to_entry "a"]
                (startup [] false 1000) Hlive) as [_ H].
    destruct H as (s1 & s' & t & names & E1 & _ & Hc & _ & _ & _ & _ & _ & _ & _ & P & _ & Hthr);
      [reflexivity..|].
    destruct Hthr as [E ->]; [reflexivity|].
    exists s1, s'. split; [exact E1|]. split; [exact Hc|]. split; [exact E|exact P].
Defined.

Lemma fatal_conditions_abort_witness :
  sys_thread_create (thread_fails_at 1 (example_world 5 true)) 2 = true
  /\ (exists s',
        setup_outgoing_connection (thread_fails_at 1 (example_world 5 true)) 1
          (example_state [] 900 [] 0) = Abort s'
        /\ thread_calls (trace s')
           = thread_calls (trace (example_state [] 900 [] 0))
             ++ [(fresh (connections (example_state [] 900 [] 0)), false)])
  /\ (exists s',
        connect_to (thread_fails_at 1 (example_world 5 true))
          [connect_to_entry "a"; connect_to_entry "b"] (startup [] false 1000) = Abort s')
  /\ (exists s',
        handle_new_meta_connection (thread_fails_at 1 (example_world 5 true)) 3 4
          (startup [] false 1000) = Some (Abort s')).
Proof.
  split; [reflexivity|]. split; [|split].
  - destruct (fatal_conditions_abort (thread_fails_at 1 (example_world 5 true)) 1 1
                example_record (example_attempt [] 0)
                (connect_to_entry "a") [] 4 0 (example_state [] 900 [] 0))
      as (_ & H & _).
    destruct H as (s1 & E1 & _ & _ & Hab); [reflexivity..|discriminate|].
    destruct Hab as (s' & E & _ & Ht & _).
    { vm_compute in E1. injection E1 as <-. reflexivity. }
    by exists s'.
  - destruct (fatal_conditions_abort (thread_fails_at 1 (example_world 5 true)) 1 1
                example_record (example_attempt [] 0)
                (connect_to_entry "a") [connect_to_entry "b"] 4 0 (startup [] false 1000))
      as (_ & _ & H & _).
    destruct H as (s1 & E1 & Hab); [reflexivity..|discriminate|].
    eexists. apply Hab.
    vm_compute in E1. injection E1 as <-. reflexivity.
  - destruct (fatal_conditions_abort (thread_fails_at 1 (example_world 5 true)) 1 1
                example_record (example_attempt [] 0)
                (connect_to_entry "a") [] 4 2 (startup [] false 1000))
      as (_ & _ & _ & H).
    destruct H as (_ & _ & Hab); [cbn; lia|].
    destruct Hab as (s' & _ & E & _); [reflexivity|].
    by exists s'.
Defined.

